(** * Sketch2Play: scene builder, asset validator, design compiler,
      manifest generator, collider extraction and pixel tools

    A shallow embedding of
    - [src/lib/canvas.js]              ([clamp], [hexToRgba], [rgbaEq], [floodFill],
                                        [drawLinePixel]),
    - [src/components/editors/CanvasEditor.jsx] ([rgbaToHex]),
    - [src/lib/scene.js]               ([toScene], [dataUriBytes], [validateAssets]),
    - [src/lib/generator.js]           ([stableStringify], [ensureScene],
                                        [buildGameJs], [generateBuildManifest]),
    - [src/lib/characterExtraction.js] ([calculateColliderBounds],
                                        [validateCharacterData],
                                        [extractCharacterFromFrames]),
    together with the fragment of JavaScript they run on: dynamically typed
    values, objects as association lists in insertion order, the operators
    [||], [??], [?.], [typeof], [Math.min]/[Math.max] with their numeric
    coercion, and [JSON.stringify] with a property list and an indent. *)

From Stdlib Require Import ZArith QArith Qround Qabs Lqa Lia.
From Stdlib Require Import List String Ascii Bool.
From Stdlib Require Import Numbers.DecimalString.
Import ListNotations.

Set Warnings "-register-all".

Local Close Scope Q_scope.
Local Open Scope list_scope.
Local Open Scope string_scope.

(** ** Numbers

    A JavaScript number is NaN, an infinity or a finite value.  Finite
    values are rationals: every finite double is one, and comparison,
    [Math.min] and [Math.max] are exact on them.  Subtraction is exact
    here, where the program rounds the difference to a double: the two
    agree wherever the exact difference is a double itself, as it is for
    integers of magnitude up to 2^53.  Rounding and overflow of other
    operands are outside the model, as is the sign of zero, and a
    property that states the value of a difference keeps to integers
    within that bound. *)

Inductive num : Type :=
| NaN
| NInf
| Fin (q : Q)
| PInf.

Definition Qltb (x y : Q) : bool :=
  match Qcompare x y with Lt => true | _ => false end.

(** [a < b]; every comparison with NaN is false. *)
Definition num_ltb (a b : num) : bool :=
  match a, b with
  | NaN, _ | _, NaN => false
  | NInf, NInf => false
  | NInf, _ => true
  | _, NInf => false
  | PInf, _ => false
  | Fin _, PInf => true
  | Fin x, Fin y => Qltb x y
  end.

Definition num_is_nan (a : num) : bool :=
  match a with NaN => true | _ => false end.

(** The smaller (larger) of two numbers, NaN if either is NaN.  Of two
    equal numbers the second is returned. *)
Definition num_min (a b : num) : num :=
  if num_is_nan a || num_is_nan b then NaN
  else if num_ltb a b then a else b.

Definition num_max (a b : num) : num :=
  if num_is_nan a || num_is_nan b then NaN
  else if num_ltb b a then a else b.

(** [a - b], the exact difference of finite values (see above). *)
Definition num_sub (a b : num) : num :=
  match a, b with
  | NaN, _ | _, NaN => NaN
  | PInf, PInf | NInf, NInf => NaN
  | PInf, _ | _, NInf => PInf
  | NInf, _ | _, PInf => NInf
  | Fin x, Fin y => Fin (x - y)%Q
  end.

Definition num_abs (a : num) : num :=
  match a with
  | NaN => NaN
  | NInf | PInf => PInf
  | Fin x => Fin (Qabs x)
  end.

Definition num_is_zero (a : num) : bool :=
  match a with Fin x => Qeq_bool x 0%Q | _ => false end.

Definition num_finite (a : num) : bool :=
  match a with Fin _ => true | _ => false end.

(** ** Values *)

Inductive value : Type :=
| VUndef
| VNull
| VBool (b : bool)
| VNum (n : num)
| VStr (s : string)
| VArr (items : list value)
| VObj (fields : list (string * value)).

Definition fields_of := list (string * value).

(** Induction over values that reaches the elements of arrays and the
    field values of objects. *)
Definition value_nested_ind (P : value -> Prop)
  (Hundef : P VUndef) (Hnull : P VNull)
  (Hbool : forall b, P (VBool b)) (Hnum : forall n, P (VNum n))
  (Hstr : forall s, P (VStr s))
  (Harr : forall l, Forall P l -> P (VArr l))
  (Hobj : forall kvs, Forall (fun kv => P (snd kv)) kvs -> P (VObj kvs))
  : forall v, P v :=
  fix go (v : value) : P v :=
    match v with
    | VUndef => Hundef
    | VNull => Hnull
    | VBool b => Hbool b
    | VNum n => Hnum n
    | VStr s => Hstr s
    | VArr l =>
        Harr l ((fix all (l : list value) : Forall P l :=
                   match l with
                   | [] => Forall_nil P
                   | x :: r => Forall_cons x (go x) (all r)
                   end) l)
    | VObj kvs =>
        Hobj kvs ((fix all (l : fields_of) : Forall (fun kv => P (snd kv)) l :=
                     match l with
                     | [] => Forall_nil _
                     | kv :: r =>
                         Forall_cons (P := fun kv => P (snd kv)) kv (go (snd kv)) (all r)
                     end) kvs)
    end.

Definition num_lit (z : Z) : value := VNum (Fin (inject_Z z)).

(** Property read [o\[k\]] on an object: the first binding of [k]. *)
Fixpoint lookup (k : string) (kvs : fields_of) : option value :=
  match kvs with
  | [] => None
  | (k', v) :: rest => if String.eqb k k' then Some v else lookup k rest
  end.

(** Assignment [o\[k\] = v]: an existing key keeps its place, a new one
    is added at the end. *)
Fixpoint set_prop (k : string) (v : value) (kvs : fields_of) : fields_of :=
  match kvs with
  | [] => [(k, v)]
  | (k', v') :: rest =>
      if String.eqb k k' then (k', v) :: rest else (k', v') :: set_prop k v rest
  end.

Definition nullish (v : value) : bool :=
  match v with VUndef | VNull => true | _ => false end.

(** [v.k] for the identifiers the programs read (never an index or
    [length]): [undefined] on every primitive and on arrays.  Reading a
    property of [null] or [undefined] throws; [get] is that read, [prop]
    is the read once the receiver is known not to be nullish, and also
    the optional chain [v?.k]. *)
Definition prop (v : value) (k : string) : value :=
  match v with
  | VObj kvs => match lookup k kvs with Some x => x | None => VUndef end
  | _ => VUndef
  end.

Definition get (v : value) (k : string) : option value :=
  if nullish v then None else Some (prop v k).

Definition truthy (v : value) : bool :=
  match v with
  | VUndef | VNull => false
  | VBool b => b
  | VNum n => negb (num_is_nan n || num_is_zero n)
  | VStr s => negb (String.eqb s "")
  | VArr _ | VObj _ => true
  end.

(** [a || b], [a && b] and [a ?? b]. *)
Definition js_or (a b : value) : value := if truthy a then a else b.
Definition js_and (a b : value) : value := if truthy a then b else a.
Definition js_coalesce (a b : value) : value := if nullish a then b else a.

Definition typeof (v : value) : string :=
  match v with
  | VUndef => "undefined"
  | VNull => "object"
  | VBool _ => "boolean"
  | VNum _ => "number"
  | VStr _ => "string"
  | VArr _ | VObj _ => "object"
  end.

(** [v === "lit"]. *)
Definition is_str (v : value) (lit : string) : bool :=
  match v with VStr s => String.eqb s lit | _ => false end.

(** The receiver of [.forEach], [.map] and [.slice(..).map]: anything but
    an array has no such method and the call throws. *)
Definition as_array (v : value) : option (list value) :=
  match v with VArr l => Some l | _ => None end.

Definition nat_to_string (n : nat) : string :=
  NilZero.string_of_uint (Nat.to_uint n).

Definition Z_to_string (z : Z) : string :=
  NilZero.string_of_int (Z.to_int z).

(** Own enumerable properties, as [Object.keys] and [Object.assign] see
    them: the fields of an object, the indices of an array or a string. *)
Fixpoint indexed (i : nat) (l : list value) : fields_of :=
  match l with
  | [] => []
  | x :: r => (nat_to_string i, x) :: indexed (S i) r
  end.

Fixpoint chars_of (s : string) : list value :=
  match s with
  | EmptyString => []
  | String c r => VStr (String c EmptyString) :: chars_of r
  end.

Definition own_props (v : value) : fields_of :=
  match v with
  | VObj kvs => kvs
  | VArr l => indexed 0 l
  | VStr s => indexed 0 (chars_of s)
  | _ => []
  end.

Definition Object_keys (v : value) : list string := map fst (own_props v).

(** [Object.assign(target, source)] on the fields of [target]. *)
Definition Object_assign (target : fields_of) (source : value) : fields_of :=
  fold_left (fun acc kv => set_prop (fst kv) (snd kv) acc) (own_props source) target.

(** [Array.prototype.sort()] on strings: ascending code-unit order. *)
Fixpoint insert_sorted (s : string) (l : list string) : list string :=
  match l with
  | [] => [s]
  | x :: r => if String.leb s x then s :: l else x :: insert_sorted s r
  end.

Definition sort_strings (l : list string) : list string :=
  fold_right insert_sorted [] l.

(** ** Printing numbers *)

Definition pow10 (k : nat) : Z := (10 ^ Z.of_nat k)%Z.

Fixpoint zeros (k : nat) : string :=
  match k with O => "" | S k' => String "0" (zeros k') end.

(** [s] padded on the left with zeros to at least [k] characters. *)
Definition pad_left (k : nat) (s : string) : string :=
  zeros (k - String.length s) ++ s.

(** A non-negative integer [m] read as [m / 10^f], with [f] decimals. *)
Definition fixed_digits (m : Z) (f : nat) : string :=
  match f with
  | O => Z_to_string m
  | _ =>
      let s := pad_left (S f) (Z_to_string m) in
      let cut := String.length s - f in
      substring 0 cut s ++ "." ++ substring cut f s
  end.

(** [x.toFixed(f)] for a finite [x] below 10^21: the integer [n] nearest
    to [x * 10^f], the larger one on a tie, printed with [f] decimals;
    the sign is taken off first and put back in front. *)
Definition toFixed (x : Q) (f : nat) : string :=
  let neg := Qltb x 0%Q in
  let a := if neg then Qopp x else x in
  let n := Qfloor (a * inject_Z (pow10 f) + (1 # 2))%Q in
  (if neg then "-" else "") ++ fixed_digits n f.

(** The least [k], from [k] up to [k + fuel], with [q * 10^k] integral. *)
Fixpoint decimal_places (fuel k : nat) (q : Q) : option nat :=
  if Z.eqb ((Qnum q * pow10 k) mod Zpos (Qden q))%Z 0%Z then Some k
  else match fuel with
       | O => None
       | S fuel' => decimal_places fuel' (S k) q
       end.

(** ** Constants of [scene.js] *)

Record range : Type := { min : Z; max : Z }.

Module DEFAULTS.
Definition world : value :=
  VObj [("width", num_lit 1280); ("height", num_lit 720); ("gravity", num_lit 1400)].
Definition controls : value :=
  VObj [("arrows", VBool true); ("spaceJump", VBool true);
        ("resetKey", VStr "R"); ("shootKey", VStr "X")].
End DEFAULTS.

Module CONSTRAINTS.
Definition bgMaxMB : Q := (15 # 10)%Q.
Definition spriteMaxMB : Q := (10 # 10)%Q.
Definition maxCharacters : nat := 3.
Definition gravity : range := {| min := 100; max := 3000 |}.
Definition moveSpeed : range := {| min := 50; max := 800 |}.
Definition jumpVelocity : range := {| min := 100; max := 1500 |}.
Definition projectileSpeed : range := {| min := 100; max := 2000 |}.
Definition cooldownMs : range := {| min := 80; max := 2000 |}.
End CONSTRAINTS.

(** ** Errors and traversals

    A thrown [TypeError] is [None]. *)

Notation "x <- e ;; k" :=
  (match e with Some x => k | None => None end)
  (at level 61, e at next level, right associativity, only parsing).

Fixpoint mapM {A B : Type} (f : A -> option B) (l : list A) : option (list B) :=
  match l with
  | [] => Some []
  | x :: r => y <- f x ;; ys <- mapM f r ;; Some (y :: ys)
  end.

(** [l.map((x, i) => f(i, x))] with the index starting at [i]. *)
Fixpoint mapM_from {A B : Type} (f : nat -> A -> option B) (i : nat) (l : list A)
  : option (list B) :=
  match l with
  | [] => Some []
  | x :: r => y <- f i x ;; ys <- mapM_from f (S i) r ;; Some (y :: ys)
  end.

(** [l.forEach(step)] threading the state the callback updates. *)
Fixpoint foldM {S A : Type} (step : S -> A -> option S) (s : S) (l : list A) : option S :=
  match l with
  | [] => Some s
  | x :: r => s' <- step s x ;; foldM step s' r
  end.

(** [s.split(sep)] for a one-character separator. *)
Fixpoint split (sep : ascii) (s : string) : list string :=
  match s with
  | EmptyString => [EmptyString]
  | String c r =>
      if Ascii.eqb c sep then EmptyString :: split sep r
      else match split sep r with
           | [] => [String c EmptyString]
           | h :: t => String c h :: t
           end
  end.

(** [s.startsWith(p)]. *)
Fixpoint startsWith (s p : string) {struct p} : bool :=
  match p, s with
  | EmptyString, _ => true
  | String _ _, EmptyString => false
  | String b p', String a s' => Ascii.eqb a b && startsWith s' p'
  end.


(** ** A sample engine

    Closed examples run on an engine that reads unsigned decimal integers
    and nothing else as numbers, and prints ["?"] where it has no exact
    decimal form to print. *)

Module Sample.
Definition StringToNumber (s : string) : num :=
  match NilEmpty.uint_of_string s with
  | Some u => Fin (inject_Z (Z.of_uint u))
  | None => NaN
  end.
Definition FormatDouble (q : Q) : string := "?".
End Sample.

(** Inputs for closed examples. *)
Module Examples.

Definition hero : value :=
  VObj [ ("abilities", VObj [("moveSpeed", num_lit 50000); ("jumpVelocity", num_lit (-10))]);
         ("collider", VObj [("w", num_lit 4); ("h", num_lit 300)]) ].

Definition ground : value :=
  VObj [("x", num_lit 0); ("y", num_lit 660); ("w", num_lit 1280); ("h", num_lit 60)].

Definition world : value :=
  VObj [("width", num_lit 1280); ("height", num_lit 720); ("gravity", num_lit 5000)].

Definition named (id : string) : value := VObj [("id", VStr id)].

Definition five : list value :=
  [named "a"; named "b"; named "c"; named "d"; named "e"].

Definition coin : value :=
  VObj [("x", num_lit 1); ("y", num_lit 2); ("w", num_lit 3); ("h", num_lit 4);
        ("type", VStr "coin")].

Definition design : value :=
  VObj [ ("canvas", VObj [("width", num_lit 800); ("height", num_lit 600)]);
         ("entities",
           VArr [ VObj [ ("type", VStr "playerSpawn"); ("x", num_lit 5); ("y", num_lit 6);
                         ("props", VObj [("moveSpeed", num_lit 200); ("jump", VBool true)]) ] ]) ].

Definition design_reordered : value :=
  VObj [ ("entities",
           VArr [ VObj [ ("props", VObj [("jump", VBool true); ("moveSpeed", num_lit 200)]);
                         ("y", num_lit 6); ("x", num_lit 5); ("type", VStr "playerSpawn") ] ]);
         ("canvas", VObj [("height", num_lit 600); ("width", num_lit 800)]) ].


Definition shooter : value :=
  VObj [ ("id", VStr "ace");
         ("abilities",
           VObj [ ("moveSpeed", num_lit 20); ("jump", VBool true); ("slide", VStr "yes");
                  ("dash", VBool true);
                  ("shoot", VObj [("projectileSpeed", num_lit 9000); ("cooldownMs", num_lit 10)]) ]);
         ("collider", VObj [("w", num_lit 4); ("h", num_lit 300)]);
         ("spawn", VObj [("x", num_lit 5000)]) ].

Definition ledge : value :=
  VObj [ ("type", VStr "platform"); ("shape", VStr "line");
         ("x", num_lit 300); ("y", num_lit 200); ("x2", num_lit 100); ("y2", num_lit 200) ].

Definition spawn_props : list (string * value) :=
  [("moveSpeed", num_lit 5000); ("fly", VBool true)].

Definition spawn_point : value :=
  VObj [ ("type", VStr "playerSpawn"); ("x", num_lit 0); ("y", num_lit 40);
         ("props", VObj spawn_props) ].

Definition decor : value := VObj [("type", VStr "decor"); ("x", num_lit 7)].

Definition level : list value := [ledge; coin; decor; spawn_point].

Definition small_canvas : value := VObj [("width", num_lit 800); ("height", num_lit 600)].

Definition remote_background : value :=
  VObj [("imageUrl", VStr "https://example.com/bg.png")].

Definition inline_sprite : value :=
  VObj [("id", VStr "b"); ("imageUrl", VStr "data:image/png;base64,AAAA")].

Definition restless : value :=
  VObj [("abilities", VObj [("moveSpeed", VNum NaN)])].
End Examples.

Section Engine.

(** Two conversions of the engine stay abstract: reading a string as a
    number ([StringToNumber] of the language definition), and printing a
    finite number that has no exact decimal form of at most 15
    significant digits (or lies outside [1e-6, 2^53)), where the engine
    prints the shortest text that reads back as the same double. *)
Variable StringToNumber : string -> num.
Variable FormatDouble : Q -> string.

(** [Number.prototype.toString] as used by template literals and by
    [JSON.stringify]. *)
Definition NumberToString (n : num) : string :=
  match n with
  | NaN => "NaN"
  | PInf => "Infinity"
  | NInf => "-Infinity"
  | Fin q0 =>
      let q := Qred q0 in
      let neg := Qltb q 0%Q in
      let a := Z.abs (Qnum q) in
      match decimal_places 15 0 q with
      | Some O =>
          if Z.ltb a (2 ^ 53)%Z
          then (if neg then "-" else "") ++ Z_to_string a
          else FormatDouble q0
      | Some k =>
          let m := (a * pow10 k / Zpos (Qden q))%Z in
          if Z.ltb m (10 ^ 15)%Z && Z.leb (Zpos (Qden q)) (a * 10 ^ 6)%Z
          then (if neg then "-" else "") ++ fixed_digits m k
          else FormatDouble q0
      | None => FormatDouble q0
      end
  end.

(** [ToNumber].  An array converts through its text: empty gives 0, one
    element gives that element's text read back, more give NaN (their
    text has a comma); a plain object gives NaN. *)
Fixpoint ToNumber (v : value) : num :=
  match v with
  | VUndef => NaN
  | VNull => Fin 0%Q
  | VBool b => if b then Fin 1%Q else Fin 0%Q
  | VNum n => n
  | VStr s => StringToNumber s
  | VObj _ => NaN
  | VArr [] => Fin 0%Q
  | VArr [x] =>
      match x with
      | VUndef | VNull => Fin 0%Q
      | VBool _ => NaN
      | VNum n => n
      | VStr s => StringToNumber s
      | VArr _ => ToNumber x
      | VObj _ => NaN
      end
  | VArr _ => NaN
  end.

Definition Math_min (a b : value) : num := num_min (ToNumber a) (ToNumber b).
Definition Math_max (a b : value) : num := num_max (ToNumber a) (ToNumber b).
Definition Math_abs (a : value) : num := num_abs (ToNumber a).
Definition js_sub (a b : value) : num := num_sub (ToNumber a) (ToNumber b).

(** ** [JSON.stringify(value, propertyList, indent)] *)

Definition dq : string := String "034"%char EmptyString.
Definition nl : string := String "010"%char EmptyString.

Definition hex_digit (n : nat) : string :=
  substring n 1 "0123456789abcdef".

Definition quote_char (c : ascii) : string :=
  let n := nat_of_ascii c in
  if Nat.eqb n 34 then "\" ++ dq
  else if Nat.eqb n 92 then "\\"
  else if Nat.eqb n 8 then "\b"
  else if Nat.eqb n 12 then "\f"
  else if Nat.eqb n 10 then "\n"
  else if Nat.eqb n 13 then "\r"
  else if Nat.eqb n 9 then "\t"
  else if Nat.ltb n 32 then "\u00" ++ hex_digit (n / 16) ++ hex_digit (n mod 16)
  else String c EmptyString.

Fixpoint quote_body (s : string) : string :=
  match s with
  | EmptyString => ""
  | String c r => quote_char c ++ quote_body r
  end.

Definition QuoteJSONString (s : string) : string := dq ++ quote_body s ++ dq.

Definition wrap (open close stepback indent : string) (partial : list string) : string :=
  match partial with
  | [] => open ++ close
  | _ =>
      open ++ nl ++ indent
        ++ String.concat ("," ++ nl ++ indent) partial
        ++ nl ++ stepback ++ close
  end.

(** [SerializeJSONProperty]: the text of a value already read from its
    holder, [None] where the language gives [undefined].  With a property
    list [K] an object prints exactly the names of [K] it has, in the
    order of [K], at every depth; array elements are all printed, an
    [undefined] element as [null]. *)
Fixpoint SerializeJSONProperty (K : list string) (gap indent : string) (v : value)
  : option string :=
  match v with
  | VUndef => None
  | VNull => Some "null"
  | VBool b => Some (if b then "true" else "false")
  | VNum n => Some (if num_finite n then NumberToString n else "null")
  | VStr s => Some (QuoteJSONString s)
  | VArr l =>
      let stepback := indent in
      let indent := indent ++ gap in
      let partial :=
        map (fun e => match SerializeJSONProperty K gap indent e with
                      | Some s => s
                      | None => "null"
                      end) l in
      Some (wrap "[" "]" stepback indent partial)
  | VObj kvs =>
      let stepback := indent in
      let indent := indent ++ gap in
      let member (P : string) : list string :=
        (fix read (l : fields_of) : list string :=
           match l with
           | [] => []
           | (k, x) :: r =>
               if String.eqb P k
               then match SerializeJSONProperty K gap indent x with
                    | Some strP => [QuoteJSONString P ++ ":" ++ " " ++ strP]
                    | None => []
                    end
               else read r
           end) kvs in
      Some (wrap "{" "}" stepback indent (flat_map member K))
  end.

(** The property list is the replacer array without repeats; the gap is
    [space] blanks, ten at most. *)
Definition JSON_stringify (v : value) (replacer : list string) (space : nat) : option string :=
  let K := nodup String.string_dec replacer in
  SerializeJSONProperty K (substring 0 space "          ") "" v.

(** ** [canvas.js] *)

(** [clamp(n, min, max) = Math.max(min, Math.min(max, n))]. *)
Definition clamp (n min max : value) : num :=
  Math_max min (VNum (Math_min max n)).

Definition clamp_range (n : value) (r : range) : num :=
  clamp n (num_lit r.(min)) (num_lit r.(max)).

(** ** [scene.js] *)

(** The callback of [.map((c, i) => ...)] in [toScene].  The first read,
    [c.id], throws on a [null] or [undefined] entry; every later read
    goes through a value already known to be truthy or through [?.]. *)
Definition toScene_character (W H : value) (i : nat) (c : value) : option value :=
  _ <- get c "id" ;;
  let collider := prop c "collider" in
  let abilities := prop c "abilities" in
  let shoot := prop abilities "shoot" in
  let flag (k : string) : fields_of :=
    if String.eqb (typeof (prop abilities k)) "boolean"
    then [(k, VBool (truthy (prop abilities k)))]
    else [] in
  Some (VObj
    [ ("id", js_or (prop c "id") (VStr ("char-" ++ nat_to_string (i + 1))));
      ("name", js_or (prop c "name") (VStr "Hero"));
      ("imageUrl", prop c "imageUrl");
      ("collider",
        if truthy collider
        then VObj
               [ ("w", VNum (clamp (prop collider "w") (num_lit 8) (num_lit 256)));
                 ("h", VNum (clamp (prop collider "h") (num_lit 8) (num_lit 256)));
                 ("offsetX", js_or (prop collider "offsetX") (num_lit 0));
                 ("offsetY", js_or (prop collider "offsetY") (num_lit 0)) ]
        else VUndef);
      ("abilities",
        VObj
          (flag "jump" ++ flag "slide" ++ flag "punch"
           ++ [ ("moveSpeed",
                  VNum (clamp_range (js_coalesce (prop abilities "moveSpeed") (num_lit 180))
                          CONSTRAINTS.moveSpeed));
                ("jumpVelocity",
                  VNum (clamp_range (js_coalesce (prop abilities "jumpVelocity") (num_lit 420))
                          CONSTRAINTS.jumpVelocity)) ]
           ++ (if truthy shoot
               then [ ("shoot",
                        VObj
                          [ ("projectileSpeed",
                              VNum (clamp_range (prop shoot "projectileSpeed")
                                      CONSTRAINTS.projectileSpeed));
                            ("cooldownMs",
                              VNum (clamp_range (prop shoot "cooldownMs")
                                      CONSTRAINTS.cooldownMs)) ]) ]
               else []))%list);
      ("spawn",
        VObj
          [ ("x", VNum (clamp (js_coalesce (prop (prop c "spawn") "x") (num_lit 100))
                          (num_lit 0) W));
            ("y", VNum (clamp (js_coalesce (prop (prop c "spawn") "y")
                                 (VNum (js_sub H (num_lit 200))))
                          (num_lit 0) H)) ]) ]).

Definition toScene_platform (p : value) : option value :=
  _ <- get p "x" ;;
  Some (VObj [("x", prop p "x"); ("y", prop p "y"); ("w", prop p "w"); ("h", prop p "h")]).

(** [toScene({ characters, platforms, background, world = {}, controls })].
    Destructuring a [null] or [undefined] argument throws, and so does
    [world.width] on a [null] world; the default [{}] stands in for an
    [undefined] world only. *)
Definition toScene (arg : value) : option value :=
  characters <- get arg "characters" ;;
  let platforms := prop arg "platforms" in
  let background := prop arg "background" in
  let world := match prop arg "world" with VUndef => VObj [] | w => w end in
  let controls := prop arg "controls" in
  width <- get world "width" ;;
  let W := js_coalesce width (prop DEFAULTS.world "width") in
  let H := js_coalesce (prop world "height") (prop DEFAULTS.world "height") in
  selected <- as_array (js_or characters (VArr [])) ;;
  chars <- mapM_from (toScene_character W H) 0 (firstn CONSTRAINTS.maxCharacters selected) ;;
  authored <- as_array (js_or platforms (VArr [])) ;;
  plats <- mapM toScene_platform authored ;;
  Some (VObj
    [ ("world",
        VObj [ ("width", W);
               ("height", H);
               ("gravity",
                 VNum (clamp_range (js_coalesce (prop world "gravity")
                                      (prop DEFAULTS.world "gravity"))
                         CONSTRAINTS.gravity)) ]);
      ("background",
        VObj [ ("imageUrl", prop background "imageUrl");
               ("fit", js_or (prop background "fit") (VStr "cover")) ]);
      ("platforms", VArr plats);
      ("targets", js_or (prop background "targets") (VArr []));
      ("characters", VArr chars);
      ("controls", js_or controls DEFAULTS.controls) ]).

(** [dataUriBytes]: the text between the first and the second comma,
    three bytes for every four characters, rounded down. *)
Definition dataUriBytes (dataUri : value) : Z :=
  if negb (truthy dataUri) || negb (String.eqb (typeof dataUri) "string") then 0%Z
  else
    match dataUri with
    | VStr s =>
        let base64 := match nth_error (split "," s) 1 with
                      | Some seg => seg
                      | None => ""
                      end in
        (Z.of_nat (String.length base64) * 3 / 4)%Z
    | _ => 0%Z
    end.

(** [url?.startsWith("data:")]: [undefined] (falsy) on a nullish [url],
    a thrown error on anything else that is not a string. *)
Definition is_data_uri (url : value) : option bool :=
  match url with
  | VUndef | VNull => Some false
  | VStr s => Some (startsWith s "data:")
  | _ => None
  end.

Definition MB (n : Z) : string :=
  toFixed (inject_Z n / inject_Z (1024 * 1024))%Q 2.

Definition exceeds (sz : Z) (limitMB : Q) : bool :=
  Qltb (limitMB * 1024 * 1024)%Q (inject_Z sz).

Definition validateAssets_background (background : value) : option (list string) :=
  inline <- is_data_uri (prop background "imageUrl") ;;
  if inline then
    let sz := dataUriBytes (prop background "imageUrl") in
    if exceeds sz CONSTRAINTS.bgMaxMB
    then Some [ "Background " ++ MB sz ++ " MB exceeds limit "
                  ++ NumberToString (Fin CONSTRAINTS.bgMaxMB) ++ " MB" ]
    else Some []
  else Some [].

Definition validateAssets_character (i : nat) (c : value) : option (list string) :=
  url <- get c "imageUrl" ;;
  inline <- is_data_uri url ;;
  if inline then
    let sz := dataUriBytes url in
    if exceeds sz CONSTRAINTS.spriteMaxMB
    then Some [ "Character #" ++ nat_to_string (i + 1) ++ " " ++ MB sz
                  ++ " MB exceeds limit "
                  ++ NumberToString (Fin CONSTRAINTS.spriteMaxMB) ++ " MB" ]
    else Some []
  else Some [].

(** [validateAssets({ background, characters })]. *)
Definition validateAssets (arg : value) : option (list string) :=
  background <- get arg "background" ;;
  let characters := prop arg "characters" in
  errs_bg <- validateAssets_background background ;;
  chars <- as_array (js_or characters (VArr [])) ;;
  errs_chars <- mapM_from validateAssets_character 0 chars ;;
  let errs_count :=
    if Nat.ltb CONSTRAINTS.maxCharacters (List.length chars)
    then [ "Too many characters: " ++ nat_to_string (List.length chars)
             ++ " (max " ++ nat_to_string CONSTRAINTS.maxCharacters ++ ")" ]
    else [] in
  Some (errs_bg ++ List.concat errs_chars ++ errs_count)%list.

(** ** [generator.js] *)

(** The three lists [ensureScene] pushes to.  [Object.assign({}, defaults)]
    copies the references held by a [defaults] object that every call
    builds afresh, so the lists are local to the call and are threaded
    through the entity loop. *)
Record scene_lists : Type :=
  { platforms : list value; targets : list value; characters : list value }.

Definition push_platform (scene : scene_lists) (p : value) : scene_lists :=
  {| platforms := (scene.(platforms) ++ [p])%list;
     targets := scene.(targets);
     characters := scene.(characters) |}.

Definition push_target (scene : scene_lists) (t : value) : scene_lists :=
  {| platforms := scene.(platforms);
     targets := (scene.(targets) ++ [t])%list;
     characters := scene.(characters) |}.

Definition push_character (scene : scene_lists) (c : value) : scene_lists :=
  {| platforms := scene.(platforms);
     targets := scene.(targets);
     characters := (scene.(characters) ++ [c])%list |}.

Definition is_number (v : value) : bool := String.eqb (typeof v) "number".

Definition default_collider : value :=
  VObj [("w", num_lit 48); ("h", num_lit 64); ("offsetX", num_lit 0); ("offsetY", num_lit 0)].

Definition default_abilities : fields_of :=
  [("moveSpeed", num_lit 180); ("jumpVelocity", num_lit 420)].

(** The callback of [(design.entities || \[\]).forEach((e) => ...)]. *)
Definition ensureScene_entity (scene : scene_lists) (e : value) : option scene_lists :=
  type <- get e "type" ;;
  if is_str type "platform" then
    if is_str (prop e "shape") "rect" && is_number (prop e "w") && is_number (prop e "h")
    then
      Some (push_platform scene
              (VObj [("x", prop e "x"); ("y", prop e "y"); ("w", prop e "w"); ("h", prop e "h")]))
    else if is_str (prop e "shape") "line" && is_number (prop e "x2") && is_number (prop e "y2")
    then
      let w := js_or (VNum (Math_abs (VNum (js_sub (prop e "x2") (prop e "x"))))) (num_lit 24) in
      let h := VNum (Math_max (num_lit 4)
                       (js_or (VNum (Math_abs (VNum (js_sub (prop e "y2") (prop e "y")))))
                          (num_lit 4))) in
      Some (push_platform scene
              (VObj [ ("x", VNum (Math_min (prop e "x") (prop e "x2")));
                      ("y", VNum (Math_min (prop e "y") (prop e "y2")));
                      ("w", w); ("h", h) ]))
    else Some scene
  else if is_str type "coin" || is_str type "goal" || is_str type "hazard" then
    let w := js_or (prop e "w") (num_lit 28) in
    let h := js_or (prop e "h") (num_lit 28) in
    Some (push_target scene
            (VObj [("x", prop e "x"); ("y", prop e "y"); ("w", w); ("h", h); ("type", type)]))
  else if is_str type "playerSpawn" then
    let id := js_or (prop e "id") (VStr "char-1") in
    let spawn := VObj [ ("x", js_or (prop e "x") (num_lit 100));
                        ("y", js_or (prop e "y") (num_lit 100)) ] in
    let abilities := VObj (Object_assign default_abilities (js_or (prop e "props") (VObj []))) in
    Some (push_character scene
            (VObj [ ("id", id);
                    ("name", js_or (prop e "label") (VStr "Hero"));
                    ("imageUrl",
                      js_or (js_and (prop e "props") (prop (prop e "props") "imageUrl"))
                        (VStr ""));
                    ("collider",
                      js_or (js_and (prop e "props") (prop (prop e "props") "collider"))
                        default_collider);
                    ("abilities", abilities);
                    ("spawn", spawn) ]))
  else if is_str type "enemy" then
    let w := js_or (prop e "w") (num_lit 32) in
    let h := js_or (prop e "h") (num_lit 32) in
    Some (push_target scene
            (VObj [ ("x", prop e "x"); ("y", prop e "y"); ("w", w); ("h", h);
                    ("type", VStr "enemy");
                    ("props", js_or (prop e "props") (VObj [])) ]))
  else Some scene.

Definition ensureScene (design : value) : option value :=
  given <- get design "canvas" ;;
  let canvas := js_or given (VObj [("width", num_lit 1280); ("height", num_lit 720)]) in
  let world := VObj [ ("width", js_or (prop canvas "width") (num_lit 1280));
                      ("height", js_or (prop canvas "height") (num_lit 720));
                      ("gravity", num_lit 1400) ] in
  let background := VObj [("imageUrl", VStr ""); ("fit", VStr "cover")] in
  let controls := VObj [ ("arrows", VBool true); ("spaceJump", VBool true);
                         ("resetKey", VStr "R"); ("shootKey", VStr "X") ] in
  entities <- as_array (js_or (prop design "entities") (VArr [])) ;;
  scene <- foldM ensureScene_entity
             {| platforms := []; targets := []; characters := [] |} entities ;;
  (* If no platforms, create a ground *)
  let scene :=
    if Nat.eqb (List.length scene.(platforms)) 0 then
      let H := prop world "height" in
      push_platform scene
        (VObj [ ("x", num_lit 0); ("y", VNum (js_sub H (num_lit 60)));
                ("w", prop world "width"); ("h", num_lit 60) ])
    else scene in
  (* Ensure at least one character *)
  let scene :=
    if Nat.eqb (List.length scene.(characters)) 0 then
      push_character scene
        (VObj [ ("id", VStr "char-1");
                ("name", VStr "Hero");
                ("imageUrl", VStr "");
                ("collider", default_collider);
                ("abilities", VObj default_abilities);
                ("spawn", VObj [ ("x", num_lit 120);
                                 ("y", VNum (js_sub (prop world "height") (num_lit 120))) ]) ])
    else scene in
  Some (VObj [ ("world", world);
               ("background", background);
               ("platforms", VArr scene.(platforms));
               ("targets", VArr scene.(targets));
               ("characters", VArr scene.(characters));
               ("controls", controls) ]).

(** [JSON.stringify(obj, Object.keys(obj).sort(), 2)]: the second
    argument is the property list of the whole serialization.
    [Object.keys] throws on [null] and [undefined]. *)
Definition stableStringify (obj : value) : option (option string) :=
  if nullish obj then None
  else Some (JSON_stringify obj (sort_strings (Object_keys obj)) 2).

Definition buildIndexHtml : string :=
  "<!doctype html>
<html lang="
     ++ dq ++ "en"
     ++ dq ++ ">
<head>
  <meta charset="
     ++ dq ++ "utf-8"
     ++ dq ++ " />
  <title>Sketch2Play Demo</title>
  <meta name="
     ++ dq ++ "viewport"
     ++ dq ++ " content="
     ++ dq ++ "width=device-width,initial-scale=1"
     ++ dq ++ " />
  <style>
    html,body{margin:0;height:100%;background:#0b1220;color:#fff;font-family:system-ui,Segoe UI,Roboto,Helvetica,Arial}
    #game{width:100%;height:100%;display:flex;align-items:center;justify-content:center}
    canvas{outline:none;display:block}
    .hint{position:fixed;bottom:8px;left:8px;color:#cbd5e1;font-size:12px}
  </style>
</head>
<body>
  <div id="
     ++ dq ++ "game"
     ++ dq ++ "></div>
  <div class="
     ++ dq ++ "hint"
     ++ dq ++ ">Arrows move • Space jumps • R resets</div>

  <!-- Phaser (CDN for demo) -->
  <script src="
     ++ dq ++ "https://cdn.jsdelivr.net/npm/phaser@3/dist/phaser.min.js"
     ++ dq ++ "></script>

  <!-- Game code -->
  <script src="
     ++ dq ++ "./game.js"
     ++ dq ++ "></script>

  <script>
    // Parent can instruct reset via postMessage
    window.addEventListener('message', (e) => {
      try {
        if (e.data && e.data.type === 'reset' && window.__levelScene) {
          window.__levelScene.scene.restart();
        }
      } catch (err) { /* ignore */ }
    }, false);
  </script>
</body>
</html>
".

Definition gameJs_head : string :=
  "/* ==== GENERATED BY sketch2play static generator ==== */
const SCENE = ".

Definition gameJs_tail : string :=
  ";

(function () {
  const W = SCENE.world.width, H = SCENE.world.height;

  const config = {
    type: Phaser.AUTO,
    width: W,
    height: H,
    parent: 'game',
    backgroundColor: '#0b1220',
    physics: { default: 'arcade', arcade: { gravity: { y: SCENE.world.gravity || 1400 }, debug: false } },
    scene: { preload, create, update }
  };

  const game = new Phaser.Game(config);

  let cursors, keyR, player, platformsGroup, targetsGroup, bulletsGroup, facing = 1, canShootAt = 0;

  function preload() {
    // Pixel texture for primitives
    this.textures.generate('pixel', { data: ['1'], pixelWidth: 1, pixelHeight: 1 });

    // Load background if provided
    if (SCENE.background && SCENE.background.imageUrl) {
      try { this.load.image('bg', SCENE.background.imageUrl); } catch (e) {}
    }

    // Load first character image if present
    if (SCENE.characters && SCENE.characters[0] && SCENE.characters[0].imageUrl) {
      try { this.load.image('hero', SCENE.characters[0].imageUrl); } catch (e) {}
    }
  }

  function create() {
    // Background (best-effort)
    if (this.textures.exists('bg')) {
      const bg = this.add.image(0, 0, 'bg').setOrigin(0,0);
      fitBackground(bg, SCENE.background && SCENE.background.fit ? SCENE.background.fit : 'cover', this.scale.width, this.scale.height);
    }

    // Platforms
    platformsGroup = this.physics.add.staticGroup();
    (SCENE.platforms || []).forEach(p => {
      const x = p.x + (p.w || 100) / 2;
      const y = p.y + (p.h || 24) / 2;
      const s = platformsGroup.create(x, y, 'pixel').setDisplaySize(p.w || 100, p.h || 24);
      s.refreshBody();
      s.setVisible(false);
    });

    // Targets (coins, goals, enemies)
    targetsGroup = this.physics.add.staticGroup();
    (SCENE.targets || []).forEach(t => {
      const s = targetsGroup.create((t.x || 0) + (t.w || 28)/2, (t.y || 0) + (t.h||28)/2, 'pixel').setDisplaySize(t.w || 28, t.h || 28);
      s.refreshBody();
      // color hints by type
      if (t.type === 'coin') s.setTint(0xffd54f);
      if (t.type === 'goal') s.setTint(0x6ee7b7);
      if (t.type === 'hazard') s.setTint(0xff6b6b);
      s.setAlpha(0.95);
    });

    // Player
    const hero = SCENE.characters[0];
    const spawn = hero.spawn || { x: 100, y: H - 120 };
    if (this.textures.exists('hero')) {
      player = this.physics.add.sprite(spawn.x, spawn.y, 'hero');
      if (hero.collider) {
        player.body.setSize(hero.collider.w || 48, hero.collider.h || 64);
        player.setOffset(hero.collider.offsetX || 0, hero.collider.offsetY || 0);
      }
    } else {
      // fallback rectangle
      player = this.physics.add.sprite(spawn.x, spawn.y, 'pixel').setDisplaySize(48, 64);
      player.body.setSize(48, 64);
      player.setTint(0x8b5cf6);
    }
    player.setCollideWorldBounds(true);
    player.setBounce(0);

    // Collisions
    this.physics.add.collider(player, platformsGroup);
    this.physics.add.overlap(player, targetsGroup, (_p, target) => {
      target.destroy();
      const txt = this.add.text(W/2, 48, 'Collected!', { fontFamily: 'system-ui', fontSize: 24, color: '#fff' }).setOrigin(0.5);
      this.time.delayedCall(900, () => txt.destroy());
    });

    // Input
    cursors = this.input.keyboard.createCursorKeys();
    keyR = this.input.keyboard.addKey(Phaser.Input.Keyboard.KeyCodes.R);

    // Expose for parent reset
    window.__levelScene = this;

    // Prevent page scrolls
    this.input.keyboard.addCapture([Phaser.Input.Keyboard.KeyCodes.LEFT, Phaser.Input.Keyboard.KeyCodes.RIGHT, Phaser.Input.Keyboard.KeyCodes.SPACE]);
  }

  function update(time, delta) {
    const hero = SCENE.characters[0];
    const speed = clamp(hero.abilities && hero.abilities.moveSpeed ? hero.abilities.moveSpeed : 180, 50, 1000);
    const jumpV = -clamp(hero.abilities && hero.abilities.jumpVelocity ? hero.abilities.jumpVelocity : 420, 120, 1500);

    if (cursors.left.isDown) {
      player.setVelocityX(-speed);
      facing = -1; player.setFlipX(true);
    } else if (cursors.right.isDown) {
      player.setVelocityX(speed);
      facing = 1; player.setFlipX(false);
    } else {
      player.setVelocityX(0);
    }

    const grounded = player.body.blocked.down || player.body.touching.down;
    if (Phaser.Input.Keyboard.JustDown(cursors.space) && grounded) {
      player.setVelocityY(jumpV);
    }

    if (Phaser.Input.Keyboard.JustDown(keyR)) {
      this.scene.restart();
      return;
    }
  }

  function fitBackground(img, mode, w, h) {
    try {
      if (!img.texture || !img.texture.getSourceImage) return;
      if (mode === 'stretch') { img.setDisplaySize(w, h); return; }
      const tex = img.texture.getSourceImage();
      const sx = w / tex.width, sy = h / tex.height, s = Math.max(sx, sy);
      img.setScale(s).setPosition(0,0).setOrigin(0,0);
    } catch (e) { /* ignore */ }
  }

  function clamp(n, a, b) { return Math.max(a, Math.min(b, n)); }
})();
".

(** The template literal of [buildGameJs]; [undefined] would be spliced
    in as its name. *)
Definition buildGameJs (scene : value) : option string :=
  sceneJson <- stableStringify scene ;;
  Some (gameJs_head
          ++ match sceneJson with Some text => text | None => "undefined" end
          ++ gameJs_tail).

Record file : Type := { path : string; content : string }.

Record manifest : Type :=
  { kind : string; runtime : string; entry : string; start : string; files : list file }.

Definition generateBuildManifest (design : value) : option manifest :=
  scene <- ensureScene design ;;
  game <- buildGameJs scene ;;
  let files := [ {| path := "index.html"; content := buildIndexHtml |};
                 {| path := "game.js"; content := game |} ] in
  Some {| kind := "web-service";
          runtime := "static";
          entry := "index.html";
          start := "static";
          files := files |}.

(** ** [characterExtraction.js] *)

(** What [calculateColliderBounds] reads of its canvas: the size and the
    RGBA bytes that [getImageData(0, 0, width, height)] returns, row by
    row, four per pixel. *)
Record canvas : Type := { width : nat; height : nat; data : list Z }.

Record bounds : Type :=
  { minX : Z; minY : Z; maxX : Z; maxY : Z; hasContent : bool }.

Record collider : Type := { w : Z; h : Z; offsetX : Z; offsetY : Z }.

(** The body of the inner loop.  A read past the end of [data] is
    [undefined], and [undefined > 0] is false. *)
Definition scan_pixel (cv : canvas) (y x : nat) (b : bounds) : bounds :=
  let index := (y * cv.(width) + x) * 4 in
  match nth_error cv.(data) (index + 3) with
  | Some alpha =>
      if (0 <? alpha)%Z
      then {| minX := Z.min b.(minX) (Z.of_nat x);
              minY := Z.min b.(minY) (Z.of_nat y);
              maxX := Z.max b.(maxX) (Z.of_nat x);
              maxY := Z.max b.(maxY) (Z.of_nat y);
              hasContent := true |}
      else b
  | None => b
  end.

Definition scan_row (cv : canvas) (b : bounds) (y : nat) : bounds :=
  fold_left (fun b x => scan_pixel cv y x b) (seq 0 cv.(width)) b.

Definition scan (cv : canvas) : bounds :=
  fold_left (scan_row cv) (seq 0 cv.(height))
    {| minX := Z.of_nat cv.(width); minY := Z.of_nat cv.(height);
       maxX := 0; maxY := 0; hasContent := false |}.

(** [getImageData] throws on an empty rectangle. *)
Definition calculateColliderBounds (cv : canvas) : option collider :=
  if Nat.eqb cv.(width) 0 || Nat.eqb cv.(height) 0 then None
  else
    let b := scan cv in
    if negb b.(hasContent) then
      Some {| w := Z.max 24 (Z.of_nat cv.(width));
              h := Z.max 32 (Z.of_nat cv.(height));
              offsetX := 0; offsetY := 0 |}
    else
      let padding := 2%Z in
      let width' := Z.max 16 (b.(maxX) - b.(minX) + 1 + padding * 2) in
      let height' := Z.max 24 (b.(maxY) - b.(minY) + 1 + padding * 2) in
      let offsetX := Z.max 0 ((Z.of_nat cv.(width) - width') / 2) in
      let offsetY := Z.max 0 ((Z.of_nat cv.(height) - height') / 2) in
      Some {| w := width'; h := height'; offsetX := offsetX; offsetY := offsetY |}.

(** A [width] by [height] raster, transparent but for one opaque pixel. *)
Definition single_pixel (width height px py : nat) : canvas :=
  {| width := width; height := height;
     data := flat_map
               (fun i => if Nat.eqb i (py * width + px)
                         then [0; 0; 0; 255]%Z else [0; 0; 0; 0]%Z)
               (seq 0 (width * height)) |}.

(** ** Notions the properties are stated with *)

(** The call [toScene({ characters, platforms, background, world, controls })]. *)
Definition toScene_input (characters platforms background world controls : value) : value :=
  VObj [ ("characters", characters); ("platforms", platforms);
         ("background", background); ("world", world); ("controls", controls) ].

(** Feeding the components of a Scene back into [toScene]. *)
Definition feed_back (scene : value) : value :=
  toScene_input (prop scene "characters") (prop scene "platforms")
    (prop scene "background") (prop scene "world") (prop scene "controls").

(** An array entry that is an actual value, neither [null] nor [undefined]. *)
Definition present (v : value) : Prop := nullish v = false.

(** [a <= b], false with NaN. *)
Definition num_leb (a b : num) : bool :=
  negb (num_is_nan a || num_is_nan b) && negb (num_ltb b a).

Definition bound (z : Z) : num := Fin (inject_Z z).

(** [out] is [n] saturated into the range [r]: the nearer bound for an
    [n] outside it, [n] itself inside it.  (NaN is neither.) *)
Definition saturated (r : range) (n out : num) : Prop :=
  (num_ltb n (bound r.(min)) = true -> out = bound r.(min)) /\
  (num_ltb (bound r.(max)) n = true -> out = bound r.(max)) /\
  (num_leb (bound r.(min)) n = true -> num_leb n (bound r.(max)) = true -> out = n).

Definition collider_size : range := {| min := 8; max := 256 |}.

(** The world [toScene] writes for a given [world] argument. *)
Definition scene_world (world : value) : value :=
  let world := match world with VUndef => VObj [] | w => w end in
  VObj [ ("width", js_coalesce (prop world "width") (num_lit 1280));
         ("height", js_coalesce (prop world "height") (num_lit 720));
         ("gravity",
           VNum (clamp_range (js_coalesce (prop world "gravity") (num_lit 1400))
                   CONSTRAINTS.gravity)) ].

(** A Scene with its [targets] replaced. *)
Definition with_targets (scene t : value) : value :=
  match scene with
  | VObj kvs => VObj (set_prop "targets" t kvs)
  | _ => scene
  end.

Inductive opt_rel {A : Type} (R : A -> A -> Prop) : option A -> option A -> Prop :=
| opt_rel_none : opt_rel R None None
| opt_rel_some (x y : A) : R x y -> opt_rel R (Some x) (Some y).

(** Two values that denote the same data: equal primitives, arrays equal
    element by element, objects equal as finite maps, each name bound to
    the same data in both wherever it stands in their key orders. *)
Inductive same_value : value -> value -> Prop :=
| same_undef : same_value VUndef VUndef
| same_null : same_value VNull VNull
| same_bool (b : bool) : same_value (VBool b) (VBool b)
| same_num (n : num) : same_value (VNum n) (VNum n)
| same_str (s : string) : same_value (VStr s) (VStr s)
| same_arr (l l' : list value) :
    Forall2 same_value l l' -> same_value (VArr l) (VArr l')
| same_obj (a b : fields_of) :
    (forall k, opt_rel same_value (lookup k a) (lookup k b)) ->
    same_value (VObj a) (VObj b).

(** An association list stands for an object when no name occurs twice
    in it, here and in every object below. *)
Inductive distinct_keys : value -> Prop :=
| distinct_undef : distinct_keys VUndef
| distinct_null : distinct_keys VNull
| distinct_bool (b : bool) : distinct_keys (VBool b)
| distinct_num (n : num) : distinct_keys (VNum n)
| distinct_str (s : string) : distinct_keys (VStr s)
| distinct_arr (l : list value) :
    Forall distinct_keys l -> distinct_keys (VArr l)
| distinct_obj (kvs : fields_of) :
    NoDup (map fst kvs) ->
    Forall (fun kv => distinct_keys (snd kv)) kvs ->
    distinct_keys (VObj kvs).

(** Lists of fields with the same names in the same order, bound to the
    same data. *)
Definition same_fields (a b : fields_of) : Prop :=
  Forall2 (fun x y => fst x = fst y /\ same_value (snd x) (snd y)) a b.

Definition same_lists (s s' : scene_lists) : Prop :=
  Forall2 same_value s.(platforms) s'.(platforms) /\
  Forall2 same_value s.(targets) s'.(targets) /\
  Forall2 same_value s.(characters) s'.(characters).

(** The call [validateAssets({ background, characters })]. *)
Definition validateAssets_input (background characters : value) : value :=
  VObj [("background", background); ("characters", characters)].

(** Whether a character occurs in a text. *)
Fixpoint occurs (c : ascii) (s : string) : bool :=
  match s with
  | EmptyString => false
  | String c' r => Ascii.eqb c' c || occurs c r
  end.

(** The background ceiling in bytes, 1.5 * 1024 * 1024. *)
Definition bgMaxBytes : Z := 1572864.

(** The pixel at column [x], row [y] has a non-zero alpha byte. *)
Definition opaque_at (cv : canvas) (x y : nat) : bool :=
  match nth_error cv.(data) ((y * cv.(width) + x) * 4 + 3) with
  | Some alpha => (0 <? alpha)%Z
  | None => false
  end.

Definition opaque (cv : canvas) (x y : nat) : Prop :=
  x < cv.(width) /\ y < cv.(height) /\ opaque_at cv x y = true.

(** [x0..x1] by [y0..y1] is the tight bounding box of the opaque pixels:
    it holds them all and each of its four sides touches one. *)
Definition bounding_box (cv : canvas) (x0 y0 x1 y1 : nat) : Prop :=
  (forall x y, opaque cv x y -> x0 <= x <= x1 /\ y0 <= y <= y1) /\
  (exists y, opaque cv x0 y) /\ (exists y, opaque cv x1 y) /\
  (exists x, opaque cv x y0) /\ (exists x, opaque cv x y1).

(** The pixels in the order the two loops visit them. *)
Definition visit_order (cv : canvas) : list (nat * nat) :=
  flat_map (fun y => map (fun x => (x, y)) (seq 0 cv.(width))) (seq 0 cv.(height)).

(** What the scan knows after the pixels [seen]. *)
Definition scanned (cv : canvas) (seen : list (nat * nat)) (b : bounds) : Prop :=
  (forall x y, In (x, y) seen -> opaque_at cv x y = true ->
     b.(hasContent) = true /\
     (b.(minX) <= Z.of_nat x <= b.(maxX))%Z /\ (b.(minY) <= Z.of_nat y <= b.(maxY))%Z) /\
  (b.(hasContent) = true ->
     (exists x y, In (x, y) seen /\ opaque_at cv x y = true /\ b.(minX) = Z.of_nat x) /\
     (exists x y, In (x, y) seen /\ opaque_at cv x y = true /\ b.(maxX) = Z.of_nat x) /\
     (exists x y, In (x, y) seen /\ opaque_at cv x y = true /\ b.(minY) = Z.of_nat y) /\
     (exists x y, In (x, y) seen /\ opaque_at cv x y = true /\ b.(maxY) = Z.of_nat y)) /\
  (b.(hasContent) = false ->
     b.(minX) = Z.of_nat cv.(width) /\ b.(minY) = Z.of_nat cv.(height) /\
     b.(maxX) = 0%Z /\ b.(maxY) = 0%Z).


(** A number that is NaN or lies in a range. *)
Definition within (lo hi : Q) (n : num) : Prop :=
  n = NaN \/ exists q, n = Fin q /\ (lo <= q)%Q /\ (q <= hi)%Q.

Definition within_range (r : range) (n : num) : Prop :=
  within (inject_Z r.(min)) (inject_Z r.(max)) n.

(** The inputs on which [toScene] returns: an argument and a world that
    can be read, and lists (or nothing) whose entries can be read, of
    the characters only the first three. *)
Definition toScene_readable (arg : value) : Prop :=
  present arg /\
  prop arg "world" <> VNull /\
  (exists cs, js_or (prop arg "characters") (VArr []) = VArr cs /\
              Forall present (firstn CONSTRAINTS.maxCharacters cs)) /\
  (exists ps, js_or (prop arg "platforms") (VArr []) = VArr ps /\
              Forall present ps).

(** The sprite ceiling in bytes, 1.0 * 1024 * 1024. *)
Definition spriteMaxBytes : Z := 1048576.

(** A character whose image is not inline data: it can be read, and its
    image reference is missing or a text that does not start with
    ["data:"]. *)
Definition not_inline (c : value) : Prop :=
  present c /\ is_data_uri (prop c "imageUrl") = Some false.

(** An image reference [validateAssets] can inspect: missing or a text. *)
Definition inspectable (url : value) : Prop :=
  exists inline, is_data_uri url = Some inline.

(** An inline image whose estimate is above [limit] bytes. *)
Definition oversize (limit : Z) (url : value) : bool :=
  match is_data_uri url with
  | Some true => (limit <? dataUriBytes url)%Z
  | _ => false
  end.

(** A character [validateAssets] can inspect. *)
Definition inspectable_character (c : value) : Prop :=
  present c /\ inspectable (prop c "imageUrl").

(** The type tag of an entity, and the kinds [ensureScene] tells apart. *)
Definition entity_type (e : value) : value := prop e "type".

Definition is_target_entity (e : value) : bool :=
  is_str (entity_type e) "coin" || is_str (entity_type e) "goal"
  || is_str (entity_type e) "hazard" || is_str (entity_type e) "enemy".

Definition is_spawn_entity (e : value) : bool := is_str (entity_type e) "playerSpawn".

(** A platform entity that [ensureScene] turns into a platform: a
    rectangle with numeric [w] and [h], or a line with numeric [x2] and
    [y2]. *)
Definition is_platform_entity (e : value) : bool :=
  is_str (entity_type e) "platform"
  && ((is_str (prop e "shape") "rect" && is_number (prop e "w") && is_number (prop e "h"))
      || (is_str (prop e "shape") "line" && is_number (prop e "x2") && is_number (prop e "y2"))).

Definition known_type (e : value) : bool :=
  is_str (entity_type e) "platform" || is_target_entity e || is_spawn_entity e.

(** The design document [{ canvas, entities }]. *)
Definition design_of (canvas : value) (entities : list value) : value :=
  VObj [("canvas", canvas); ("entities", VArr entities)].

(** The world [ensureScene] builds from a canvas. *)
Definition design_world (canvas : value) : value :=
  let canvas := js_or canvas (VObj [("width", num_lit 1280); ("height", num_lit 720)]) in
  VObj [ ("width", js_or (prop canvas "width") (num_lit 1280));
         ("height", js_or (prop canvas "height") (num_lit 720));
         ("gravity", num_lit 1400) ].

Definition no_lists : scene_lists :=
  {| platforms := []; targets := []; characters := [] |}.

(** The property list [stableStringify] passes for a Scene: its six
    top-level names, sorted. *)
Definition scene_names : list string :=
  ["background"; "characters"; "controls"; "platforms"; "targets"; "world"].

(** A value that the Scene's property list prints as an empty object. *)
Definition prints_empty (v : value) : Prop :=
  forall indent, SerializeJSONProperty scene_names "  " indent v = Some "{}".

(** An array of [n] empty objects, as printed one level below the top
    with an indent of two. *)
Definition empty_objects (n : nat) : string :=
  match n with
  | 0 => "[]"
  | S _ =>
      "[" ++ nl ++ "    "
        ++ String.concat ("," ++ nl ++ "    ") (List.repeat "{}" n)
        ++ nl ++ "  ]"
  end.

(** The text of a Scene with that many platforms, targets and
    characters, all of them and every other nested object empty. *)
Definition hollow_scene (platforms targets characters : nat) : string :=
  "{" ++ nl
  ++ "  " ++ dq ++ "background" ++ dq ++ ": {}," ++ nl
  ++ "  " ++ dq ++ "characters" ++ dq ++ ": " ++ empty_objects characters ++ "," ++ nl
  ++ "  " ++ dq ++ "controls" ++ dq ++ ": {}," ++ nl
  ++ "  " ++ dq ++ "platforms" ++ dq ++ ": " ++ empty_objects platforms ++ "," ++ nl
  ++ "  " ++ dq ++ "targets" ++ dq ++ ": " ++ empty_objects targets ++ "," ++ nl
  ++ "  " ++ dq ++ "world" ++ dq ++ ": {}" ++ nl
  ++ "}".

(** ** [characterExtraction.js], continued *)

(** [a < b] and [a > b] against a number: the other operand is
    converted to a number, and every comparison with NaN is false. *)
Definition js_lt (a b : value) : bool := num_ltb (ToNumber a) (ToNumber b).
Definition js_gt (a b : value) : bool := num_ltb (ToNumber b) (ToNumber a).

(** White space and line terminators among the code units below 256:
    tab, line feed, vertical tab, form feed, carriage return, space and
    the no-break space. *)
Definition is_space (c : ascii) : bool :=
  let n := nat_of_ascii c in
  (Nat.leb 9 n && Nat.leb n 13) || Nat.eqb n 32 || Nat.eqb n 160.

Fixpoint trimStart (s : string) : string :=
  match s with
  | EmptyString => EmptyString
  | String c r => if is_space c then trimStart r else s
  end.

Fixpoint trimEnd (s : string) : string :=
  match s with
  | EmptyString => EmptyString
  | String c r =>
      match trimEnd r with
      | EmptyString => if is_space c then EmptyString else String c EmptyString
      | t => String c t
      end
  end.

(** [s.trim()]. *)
Definition trim (s : string) : string := trimEnd (trimStart s).

(** [validateCharacterData(character)].  [name.trim] and
    [imageUrl.startsWith] are methods of strings only: on any other
    truthy value the call throws. *)
Definition validateCharacterData (character : value) : option (list string) :=
  name <- get character "name" ;;
  no_name <-
    (if negb (truthy name) then Some true
     else match name with
          | VStr s => Some (Nat.eqb (String.length (trim s)) 0)
          | _ => None
          end) ;;
  let long_name :=
    match name with
    | VStr s => truthy name && Nat.ltb 50 (String.length s)
    | _ => false
    end in
  let imageUrl := prop character "imageUrl" in
  bad_format <-
    (if truthy imageUrl then
       match imageUrl with
       | VStr s => Some (negb (startsWith s "data:image/"))
       | _ => None
       end
     else Some false) ;;
  let collider := prop character "collider" in
  let abilities := prop character "abilities" in
  Some ((if no_name then ["Character name is required"] else [])
        ++ (if long_name then ["Character name too long (max 50 characters)"] else [])
        ++ (if negb (truthy imageUrl) then ["Character image is required"] else [])
        ++ (if bad_format then ["Invalid image data format"] else [])
        ++ (if negb (truthy collider)
               || js_lt (prop collider "w") (num_lit 8)
               || js_lt (prop collider "h") (num_lit 8)
            then ["Character collider too small (minimum 8x8)"] else [])
        ++ (if negb (truthy abilities) then ["Character abilities are required"] else [])
        ++ (if truthy abilities then
              (if negb (is_number (prop abilities "moveSpeed"))
                  || js_lt (prop abilities "moveSpeed") (num_lit 10)
                  || js_gt (prop abilities "moveSpeed") (num_lit 1000)
               then ["Invalid move speed (must be 10-1000)"] else [])
              ++ (if negb (is_number (prop abilities "jumpVelocity"))
                     || js_lt (prop abilities "jumpVelocity") (num_lit 50)
                     || js_gt (prop abilities "jumpVelocity") (num_lit 2000)
                  then ["Invalid jump velocity (must be 50-2000)"] else [])
            else []))%list.

(** A frame of the editor: its raster and the text
    [toDataURL("image/png")] gives for it. *)
Record frame : Type := { pixels : canvas; png : string }.

(** What the clock and the random generator contribute: the two parts
    of the id and the time stamp. *)
Record stamp : Type := { now : string; salt : string; iso : string }.

Definition collider_value (c : collider) : value :=
  VObj [ ("w", num_lit c.(w)); ("h", num_lit c.(h));
         ("offsetX", num_lit c.(offsetX)); ("offsetY", num_lit c.(offsetY)) ].

(** A destructuring default: taken when the property is [undefined]. *)
Definition js_default (v d : value) : value :=
  match v with VUndef => d | _ => v end.

(** [extractCharacterFromFrames(frames, currentFrame, options)], a
    rejected promise being [None].  Destructuring [null] throws; an
    index past the frames selects the first one. *)
Definition extractCharacterFromFrames
    (frames : list frame) (currentFrame : nat) (options : value) (s : stamp)
  : option value :=
  match frames with
  | [] => None
  | first :: _ =>
      let options := js_default options (VObj []) in
      if nullish options then None
      else
        let name := js_default (prop options "name") (VStr "Character") in
        let abilities :=
          js_default (prop options "abilities")
            (VObj [ ("jump", VBool true); ("slide", VBool false); ("punch", VBool false);
                    ("moveSpeed", num_lit 180); ("jumpVelocity", num_lit 420) ]) in
        let spawn :=
          js_default (prop options "spawn") (VObj [("x", num_lit 100); ("y", num_lit 520)]) in
        let frame := nth currentFrame frames first in
        let dataUrl := frame.(png) in
        collider <- calculateColliderBounds frame.(pixels) ;;
        let id := "char_" ++ s.(now) ++ "_" ++ s.(salt) in
        Some (VObj
                [ ("id", VStr id);
                  ("name", name);
                  ("imageUrl", VStr dataUrl);
                  ("collider", collider_value collider);
                  ("abilities", abilities);
                  ("spawn", spawn);
                  ("extractedAt", VStr s.(iso));
                  ("frameData",
                    VObj [ ("totalFrames", num_lit (Z.of_nat (List.length frames)));
                           ("extractedFrame", num_lit (Z.of_nat currentFrame));
                           ("dimensions",
                             VObj [ ("w", num_lit (Z.of_nat frame.(pixels).(width)));
                                    ("h", num_lit (Z.of_nat frame.(pixels).(height))) ]) ]) ])
  end.

(** A text made of white space only. *)
Fixpoint blank (s : string) : bool :=
  match s with
  | EmptyString => true
  | String c r => is_space c && blank r
  end.

(** A number that does not compare below [lo]: NaN, positive infinity,
    or a finite value of at least [lo]. *)
Definition not_below (lo : Q) (n : num) : Prop :=
  n = NaN \/ n = PInf \/ exists q, n = Fin q /\ (lo <= q)%Q.

(** The characters [validateCharacterData] finds no fault with. *)
Definition acceptable (character : value) : Prop :=
  (exists name, prop character "name" = VStr name /\
                blank name = false /\ String.length name <= 50) /\
  (exists url, prop character "imageUrl" = VStr url /\
               startsWith url "data:image/" = true) /\
  (truthy (prop character "collider") = true /\
   not_below 8 (ToNumber (prop (prop character "collider") "w")) /\
   not_below 8 (ToNumber (prop (prop character "collider") "h"))) /\
  (truthy (prop character "abilities") = true /\
   (exists n, prop (prop character "abilities") "moveSpeed" = VNum n /\ within 10 1000 n) /\
   (exists n, prop (prop character "abilities") "jumpVelocity" = VNum n /\ within 50 2000 n)).

(** ** [canvas.js], continued: [drawLinePixel] *)








(** ** [canvas.js], continued: [hexToRgba] *)

(** The value of a digit of radix 16, in either case. *)
Definition hex_digit_value (c : ascii) : option Z :=
  let n := nat_of_ascii c in
  if Nat.leb 48 n && Nat.leb n 57 then Some (Z.of_nat n - 48)%Z
  else if Nat.leb 97 n && Nat.leb n 102 then Some (Z.of_nat n - 87)%Z
  else if Nat.leb 65 n && Nat.leb n 70 then Some (Z.of_nat n - 55)%Z
  else None.

(** The value of the longest prefix of digits, [None] when it is empty. *)
Fixpoint radix16_prefix (s : string) (acc : option Z) : option Z :=
  match s with
  | EmptyString => acc
  | String c r =>
      match hex_digit_value c with
      | Some d =>
          radix16_prefix r (Some (16 * match acc with Some v => v | None => 0%Z end + d)%Z)
      | None => acc
      end
  end.

(** [parseInt(s, 16)]: leading white space, a sign and a [0x] prefix are
    skipped, then the longest run of digits is read; NaN when there is
    none.  The value is exact, as it is for the two-digit texts read
    here. *)
Definition parseInt16 (s : string) : num :=
  let s := trimStart s in
  let negative := match s with String c _ => Ascii.eqb c "-" | EmptyString => false end in
  let s :=
    match s with
    | String c r => if Ascii.eqb c "-" || Ascii.eqb c "+" then r else s
    | EmptyString => s
    end in
  let s :=
    match s with
    | String c (String x r) =>
        if Ascii.eqb c "0" && (Ascii.eqb x "x" || Ascii.eqb x "X") then r else s
    | _ => s
    end in
  match radix16_prefix s None with
  | Some v => Fin (inject_Z (if negative then - v else v))
  | None => NaN
  end.

(** [s.replace(c, "")] for a one-character pattern: the first
    occurrence goes. *)
Fixpoint remove_first (c : ascii) (s : string) : string :=
  match s with
  | EmptyString => EmptyString
  | String c' r => if Ascii.eqb c' c then r else String c' (remove_first c r)
  end.

(** [s.split("").map((ch) => ch + ch).join("")]. *)
Fixpoint double_each (s : string) : string :=
  match s with
  | EmptyString => EmptyString
  | String c r => String c (String c (double_each r))
  end.

(** [s.slice(from, to)] for [0 <= from <= to]. *)
Definition slice (from to : nat) (s : string) : string := substring from (to - from) s.

(** [hexToRgba(hex)]: the array [\[r, g, b, a\]]. *)
Definition hexToRgba (hex : string) : list num :=
  let h := remove_first "#" hex in
  let h := if Nat.eqb (String.length h) 3 then double_each h else h in
  let a := if Nat.eqb (String.length h) 8 then parseInt16 (slice 6 8 h)
           else Fin (inject_Z 255) in
  let h := if Nat.eqb (String.length h) 8 then slice 0 6 h else h in
  let r := parseInt16 (slice 0 2 h) in
  let g := parseInt16 (slice 2 4 h) in
  let b := parseInt16 (slice 4 6 h) in
  [r; g; b; a].

(** ** [canvas.js], continued: [floodFill] *)

(** A colour [\[r, g, b, a\]]. *)
Record rgba : Type := { red : Z; green : Z; blue : Z; alpha : Z }.

(** [data\[i\]] of the pixel array, [undefined] outside it. *)
Definition byte_at (data : list Z) (i : Z) : option Z :=
  if (i <? 0)%Z then None else nth_error data (Z.to_nat i).

(** What a [Uint8ClampedArray] keeps of an integer written to it. *)
Definition clamped_byte (v : Z) : Z := Z.max 0 (Z.min 255 v).

(** [data\[i\] = v] on the pixel array; a write outside it is ignored. *)
Fixpoint store (i : nat) (v : Z) (data : list Z) {struct data} : list Z :=
  match data with
  | [] => []
  | b :: r =>
      match i with
      | O => clamped_byte v :: r
      | S i' => b :: store i' v r
      end
  end.

(** The four components at [i] are strictly equal to those of [c], as
    [rgbaEq] and the test of the loop compare them; a component read
    outside the array is [undefined] and equal to nothing. *)
Definition same_rgba (data : list Z) (i : Z) (c : rgba) : bool :=
  match byte_at data i, byte_at data (i + 1), byte_at data (i + 2), byte_at data (i + 3) with
  | Some r, Some g, Some b, Some a =>
      (r =? c.(red))%Z && (g =? c.(green))%Z && (b =? c.(blue))%Z && (a =? c.(alpha))%Z
  | _, _, _, _ => false
  end.

Definition store_rgba (data : list Z) (i : Z) (c : rgba) : list Z :=
  let i := Z.to_nat i in
  store (i + 3) c.(alpha) (store (i + 2) c.(blue) (store (i + 1) c.(green)
    (store i c.(red) data))).

(** The [while (stack.length)] loop; the head of [stack] is the entry
    [pop] takes.  [None] when [fuel] iterations do not empty the stack. *)
Fixpoint fill_loop (fuel : nat) (w h : Z) (targetColor replacementColor : rgba)
    (data : list Z) (stack : list (Z * Z)) : option (list Z) :=
  match fuel with
  | O => None
  | S fuel' =>
      match stack with
      | [] => Some data
      | (cx, cy) :: stack' =>
          if (cx <? 0)%Z || (cy <? 0)%Z || (w <=? cx)%Z || (h <=? cy)%Z
          then fill_loop fuel' w h targetColor replacementColor data stack'
          else
            let i := ((cx + cy * w) * 4)%Z in
            if same_rgba data i targetColor
            then
              fill_loop fuel' w h targetColor replacementColor
                (store_rgba data i replacementColor)
                ((cx, cy - 1) :: (cx, cy + 1) :: (cx - 1, cy) :: (cx + 1, cy) :: stack')%Z
            else fill_loop fuel' w h targetColor replacementColor data stack'
      end
  end.

(** [floodFill(canvas, x, y, targetColor, replacementColor)] on integer
    coordinates and colour components: the raster handed to
    [putImageData], or the one read when the function returns early. *)
Definition floodFill (fuel : nat) (cv : canvas) (x y : Z)
    (targetColor replacementColor : rgba) : option canvas :=
  if Nat.eqb cv.(width) 0 || Nat.eqb cv.(height) 0 then None
  else
    let w := Z.of_nat cv.(width) in
    let h := Z.of_nat cv.(height) in
    let ix := ((x + y * w) * 4)%Z in
    if same_rgba cv.(data) ix replacementColor then Some cv
    else
      data' <- fill_loop fuel w h targetColor replacementColor cv.(data) [(x, y)] ;;
      Some {| width := cv.(width); height := cv.(height); data := data' |}.

(** Where the pixel [p] starts in the pixel array of a raster [w] wide. *)
Definition pixel_index (w : Z) (p : Z * Z) : Z := ((fst p + snd p * w) * 4)%Z.

Definition in_raster (w h : Z) (p : Z * Z) : Prop :=
  (0 <= fst p < w)%Z /\ (0 <= snd p < h)%Z.

(** A pixel inside the raster. *)
Definition inside (cv : canvas) (p : Z * Z) : Prop :=
  in_raster (Z.of_nat cv.(width)) (Z.of_nat cv.(height)) p.

(** The pixel [p] of the raster has the colour [c]. *)
Definition coloured (cv : canvas) (p : Z * Z) (c : rgba) : Prop :=
  same_rgba cv.(data) (pixel_index (Z.of_nat cv.(width)) p) c = true.

(** Two pixels that share a side. *)
Definition beside (p q : Z * Z) : Prop :=
  (fst q = fst p /\ (snd q = snd p - 1 \/ snd q = snd p + 1))%Z \/
  (snd q = snd p /\ (fst q = fst p - 1 \/ fst q = fst p + 1))%Z.

(** The pixels of colour [c] that are joined to [start] by pixels of that
    colour, each beside the next. *)
Inductive region (cv : canvas) (c : rgba) (start : Z * Z) : Z * Z -> Prop :=
| region_start : inside cv start -> coloured cv start c -> region cv c start start
| region_step (p q : Z * Z) :
    region cv c start p -> beside p q -> inside cv q -> coloured cv q c ->
    region cv c start q.

(** A colour as the pixel array keeps it. *)
Definition kept (c : rgba) : rgba :=
  {| red := clamped_byte c.(red); green := clamped_byte c.(green);
     blue := clamped_byte c.(blue); alpha := clamped_byte c.(alpha) |}.

(** Two rasters show the same at [p]: their pixels there have the same
    colours. *)
Definition same_pixel (cv cv' : canvas) (p : Z * Z) : Prop :=
  forall c, coloured cv' p c <-> coloured cv p c.

(** A pixel the fill has recoloured: it had the target colour and has
    the replacement now. *)
Definition filled (cv : canvas) (T R : rgba) (d : list Z) (p : Z * Z) : Prop :=
  coloured cv p T /\
  same_rgba d (pixel_index (Z.of_nat cv.(width)) p) (kept R) = true.

(** What holds of the pixel array [d] and the stack [s] at every turn of
    the loop: a pixel is as it was or recoloured and in the region; the
    neighbours of a recoloured pixel that may still need recolouring are
    on the stack, and so is the start; the stack holds nothing else. *)
Definition fill_invariant (cv : canvas) (T R : rgba) (start : Z * Z)
    (d : list Z) (s : list (Z * Z)) : Prop :=
  let w := Z.of_nat cv.(width) in
  List.length d = List.length cv.(data) /\
  (forall p, inside cv p ->
     (forall c, same_rgba d (pixel_index w p) c = same_rgba cv.(data) (pixel_index w p) c) \/
     (filled cv T R d p /\ region cv T start p)) /\
  (forall p q, inside cv p -> filled cv T R d p -> beside p q ->
     In q s \/ ~ inside cv q \/ same_rgba d (pixel_index w q) T = false) /\
  (forall q, In q s ->
     q = start \/ exists p, inside cv p /\ filled cv T R d p /\ beside p q) /\
  (In start s \/ ~ inside cv start \/ same_rgba d (pixel_index w start) T = false).

(** The pixels that still have the target colour, counted. *)
Definition targets_left (cv : canvas) (T : rgba) (d : list Z) : nat :=
  List.length
    (filter (fun k => same_rgba d (4 * Z.of_nat k) T) (seq 0 (cv.(width) * cv.(height)))).

(** ** [CanvasEditor.jsx]: [rgbaToHex], the colour the eyedropper sets *)

(** [n.toString(16)] for a natural number: its digits of radix 16, in
    lower case. *)
Fixpoint radix16_text (fuel n : nat) : string :=
  match fuel with
  | O => hex_digit (n mod 16)
  | S fuel' =>
      if Nat.ltb n 16 then hex_digit n
      else radix16_text fuel' (n / 16) ++ hex_digit (n mod 16)
  end.

(** [n.toString(16)] for an integer. *)
Definition toString16 (n : Z) : string :=
  if (n <? 0)%Z then "-" ++ radix16_text (Z.to_nat (- n)) (Z.to_nat (- n))
  else radix16_text (Z.to_nat n) (Z.to_nat n).

(** [s.padStart(2, "0")]. *)
Definition padStart2 (s : string) : string :=
  match s with
  | EmptyString => "00"
  | String c EmptyString => String "0" s
  | _ => s
  end.

(** [rgbaToHex(\[r, g, b, a\])] on integer components. *)
Definition rgbaToHex (c : rgba) : string :=
  let to2 := fun n => padStart2 (toString16 n) in
  "#" ++ to2 c.(red) ++ to2 c.(green) ++ to2 c.(blue).

(** * Properties *)

(** ** Numbers and clamping *)

Lemma Qltb_lt (x y : Q) : Qltb x y = true <-> (x < y)%Q.
Proof.
  unfold Qltb. rewrite Qlt_alt.
  destruct (x ?= y)%Q; split; congruence.
Qed.

Lemma Qltb_irrefl (x : Q) : Qltb x x = false.
Proof.
  destruct (Qltb x x) eqn:E; [|reflexivity].
  apply Qltb_lt in E. exfalso. exact (Qlt_irrefl _ E).
Qed.

Lemma num_ltb_irrefl (a : num) : num_ltb a a = false.
Proof. destruct a; simpl; auto using Qltb_irrefl. Qed.

Lemma num_ltb_trans (a b c : num) :
  num_ltb a b = true -> num_ltb b c = true -> num_ltb a c = true.
Proof.
  destruct a, b, c; simpl; try congruence.
  rewrite !Qltb_lt. apply Qlt_trans.
Qed.

Lemma num_ltb_asym (a b : num) : num_ltb a b = true -> num_ltb b a = false.
Proof.
  intros H. destruct (num_ltb b a) eqn:E; [|reflexivity].
  pose proof (num_ltb_trans _ _ _ H E) as C.
  rewrite num_ltb_irrefl in C. discriminate.
Qed.

Lemma bound_ltb (x y : Z) : num_ltb (bound x) (bound y) = (x <? y)%Z.
Proof.
  unfold bound; simpl.
  destruct (x <? y)%Z eqn:E.
  - apply Qltb_lt. rewrite <- Zlt_Qlt. lia.
  - destruct (Qltb (inject_Z x) (inject_Z y)) eqn:F; [|reflexivity].
    apply Qltb_lt in F. rewrite <- Zlt_Qlt in F. lia.
Qed.

Lemma clamp_num (n : num) (lo hi : value) :
  clamp (VNum n) lo hi = num_max (ToNumber lo) (num_min (ToNumber hi) n).
Proof. reflexivity. Qed.

(** On a number, [clamp] saturates into a non-empty range. *)
Lemma clamp_range_saturated (r : range) (n : num) :
  (r.(min) <= r.(max))%Z -> saturated r n (clamp_range (VNum n) r).
Proof.
  intros Hr. unfold clamp_range, num_lit. rewrite clamp_num. simpl ToNumber.
  fold (bound r.(min)). fold (bound r.(max)).
  assert (Hb : num_ltb (bound (max r)) (bound (min r)) = false)
    by (rewrite bound_ltb; lia).
  unfold saturated, num_leb, num_min, num_max.
  destruct (num_ltb (bound (max r)) n) eqn:Hhi;
    destruct (num_ltb n (bound (min r))) eqn:Hlo.
  - pose proof (num_ltb_trans _ _ _ Hhi Hlo). congruence.
  - destruct n; try discriminate; simpl num_is_nan; simpl orb; cbv iota;
      rewrite ?Hb; repeat split; intros; try congruence; try discriminate.
    all: simpl in *; try discriminate.
  - destruct n; try discriminate; simpl num_is_nan; simpl orb; cbv iota;
      rewrite ?Hlo; repeat split; intros; try congruence; try discriminate.
  - destruct n; simpl num_is_nan; simpl orb; cbv iota;
      rewrite ?Hlo; repeat split; intros; try congruence; try discriminate.
Qed.

Lemma num_min_max_idem (L U n : num) :
  num_max L (num_min U (num_max L (num_min U n))) = num_max L (num_min U n).
Proof.
  unfold num_max, num_min.
  destruct (num_is_nan L) eqn:EL; [reflexivity|].
  destruct (num_is_nan U) eqn:EU; [reflexivity|].
  destruct (num_is_nan n) eqn:En; [reflexivity|].
  simpl orb.
  pose proof (num_ltb_irrefl L) as IL. pose proof (num_ltb_irrefl U) as IU.
  destruct (num_ltb U n) eqn:HUn; rewrite ?EU, ?En; simpl orb;
    destruct (num_ltb U L) eqn:HUL; rewrite ?EL, ?EU, ?En; simpl orb;
    try destruct (num_ltb n L) eqn:HnL; rewrite ?EL, ?EU, ?En; simpl orb;
    rewrite ?IL, ?IU, ?HUL, ?HUn, ?HnL, ?EL, ?EU, ?En; simpl orb;
    rewrite ?IL, ?IU, ?HUL, ?HUn, ?HnL, ?EL, ?EU, ?En; try reflexivity.
  all: try (pose proof (num_ltb_asym _ _ HUL) as Hx; rewrite ?Hx; reflexivity).
Qed.

(** [clamp] changes nothing on a value it has produced. *)
Lemma clamp_idem (n lo hi : value) :
  clamp (VNum (clamp n lo hi)) lo hi = clamp n lo hi.
Proof. unfold clamp, Math_max, Math_min. simpl ToNumber. apply num_min_max_idem. Qed.

Lemma js_or_idem (a b : value) : js_or (js_or a b) b = js_or a b.
Proof.
  unfold js_or. destruct (truthy a) eqn:E; [now rewrite E|].
  now destruct (truthy b).
Qed.

Lemma js_or_truthy (a b : value) : truthy b = true -> truthy (js_or a b) = true.
Proof. unfold js_or. now destruct (truthy a) eqn:E. Qed.

Lemma js_coalesce_num (n : num) (d : value) : js_coalesce (VNum n) d = VNum n.
Proof. reflexivity. Qed.

Lemma js_coalesce_present (a d : value) :
  nullish d = false -> nullish (js_coalesce a d) = false.
Proof. unfold js_coalesce. now destruct (nullish a) eqn:E. Qed.

Lemma js_coalesce_idem (a d : value) : js_coalesce (js_coalesce a d) d = js_coalesce a d.
Proof.
  unfold js_coalesce. destruct (nullish a) eqn:E; [|now rewrite E].
  now destruct (nullish d).
Qed.

(** ** Traversals *)

Lemma mapM_from_length {A B} (f : nat -> A -> option B) l : forall i out,
  mapM_from f i l = Some out -> List.length out = List.length l.
Proof.
  induction l as [|x r IH]; simpl; intros i out H.
  - now inversion H.
  - destruct (f i x); [|discriminate].
    destruct (mapM_from f (S i) r) eqn:E; [|discriminate].
    inversion H; subst. simpl. f_equal. eauto.
Qed.

Lemma mapM_from_nth {A B} (f : nat -> A -> option B) l : forall i out j x,
  mapM_from f i l = Some out -> nth_error l j = Some x ->
  exists y, nth_error out j = Some y /\ f (i + j) x = Some y.
Proof.
  induction l as [|a r IH]; simpl; intros i out j x H Hj.
  - destruct j; discriminate.
  - destruct (f i a) eqn:Fa; [|discriminate].
    destruct (mapM_from f (S i) r) eqn:E; [|discriminate].
    inversion H; subst. destruct j as [|j]; simpl in *.
    + inversion Hj; subst. exists b. now rewrite Nat.add_0_r.
    + destruct (IH _ _ _ _ E Hj) as (y & Hy & Fy).
      exists y. split; [assumption|]. now rewrite Nat.add_succ_r.
Qed.

Lemma mapM_from_total {A B} (f : nat -> A -> option B) (ok : A -> Prop) l :
  (forall i x, ok x -> exists y, f i x = Some y) ->
  Forall ok l -> forall i, exists out, mapM_from f i l = Some out.
Proof.
  intros Hf. induction 1 as [|x r Hx _ IH]; intros i; simpl.
  - now eexists.
  - destruct (Hf i x Hx) as (y & ->). destruct (IH (S i)) as (ys & ->). now eexists.
Qed.

Lemma mapM_from_fixed {A} (f : nat -> A -> option A) l : forall i out,
  (forall j x y, f j x = Some y -> f j y = Some y) ->
  mapM_from f i l = Some out -> mapM_from f i out = Some out.
Proof.
  induction l as [|a r IH]; simpl; intros i out Hf H.
  - now inversion H.
  - destruct (f i a) eqn:Fa; [|discriminate].
    destruct (mapM_from f (S i) r) eqn:E; [|discriminate].
    inversion H; subst. simpl. rewrite (Hf _ _ _ Fa), (IH _ _ Hf E). reflexivity.
Qed.

Lemma mapM_length {A B} (f : A -> option B) l : forall out,
  mapM f l = Some out -> List.length out = List.length l.
Proof.
  induction l as [|x r IH]; simpl; intros out H.
  - now inversion H.
  - destruct (f x); [|discriminate]. destruct (mapM f r) eqn:E; [|discriminate].
    inversion H; subst. simpl. f_equal. eauto.
Qed.

Lemma mapM_total {A B} (f : A -> option B) (ok : A -> Prop) l :
  (forall x, ok x -> exists y, f x = Some y) ->
  Forall ok l -> exists out, mapM f l = Some out.
Proof.
  intros Hf. induction 1 as [|x r Hx _ IH]; simpl.
  - now eexists.
  - destruct (Hf x Hx) as (y & ->). destruct IH as (ys & ->). now eexists.
Qed.

Lemma mapM_fixed {A} (f : A -> option A) l : forall out,
  (forall x y, f x = Some y -> f y = Some y) ->
  mapM f l = Some out -> mapM f out = Some out.
Proof.
  induction l as [|a r IH]; simpl; intros out Hf H.
  - now inversion H.
  - destruct (f a) eqn:Fa; [|discriminate]. destruct (mapM f r) eqn:E; [|discriminate].
    inversion H; subst. simpl. rewrite (Hf _ _ Fa), (IH _ Hf eq_refl). reflexivity.
Qed.

Lemma foldM_total {S A} (step : S -> A -> option S) (ok : A -> Prop) l :
  (forall s x, ok x -> exists s', step s x = Some s') ->
  Forall ok l -> forall s, exists s', foldM step s l = Some s'.
Proof.
  intros Hf. induction 1 as [|x r Hx _ IH]; intros s; simpl.
  - now eexists.
  - destruct (Hf s x Hx) as (s' & ->). apply IH.
Qed.

(** ** [toScene] *)

Ltac read_fields :=
  cbn [prop lookup String.eqb Ascii.eqb Bool.eqb app fst snd].

Lemma toScene_character_total (W H : value) (i : nat) (c : value) :
  present c -> exists o, toScene_character W H i c = Some o.
Proof.
  unfold present, toScene_character, get. intros ->. now eexists.
Qed.

Lemma flag_lookup (abilities : value) (k k' : string) (rest : fields_of) :
  k <> k' ->
  lookup k ((if String.eqb (typeof (prop abilities k')) "boolean"
             then [(k', VBool (truthy (prop abilities k')))] else []) ++ rest)%list
  = lookup k rest.
Proof.
  intros Hk. destruct (String.eqb (typeof (prop abilities k')) "boolean"); [|reflexivity].
  simpl. destruct (String.eqb_spec k k'); [contradiction|reflexivity].
Qed.

(** What [toScene] writes into a character, field by field. *)
Lemma toScene_character_fields (W H : value) (i : nat) (c o : value) :
  toScene_character W H i c = Some o ->
  prop o "id" = js_or (prop c "id") (VStr ("char-" ++ nat_to_string (i + 1))) /\
  prop o "name" = js_or (prop c "name") (VStr "Hero") /\
  prop o "imageUrl" = prop c "imageUrl" /\
  prop (prop o "abilities") "moveSpeed"
    = VNum (clamp_range (js_coalesce (prop (prop c "abilities") "moveSpeed") (num_lit 180))
              CONSTRAINTS.moveSpeed) /\
  prop (prop o "abilities") "jumpVelocity"
    = VNum (clamp_range (js_coalesce (prop (prop c "abilities") "jumpVelocity") (num_lit 420))
              CONSTRAINTS.jumpVelocity) /\
  (truthy (prop c "collider") = true ->
   prop (prop o "collider") "w" = VNum (clamp_range (prop (prop c "collider") "w") collider_size) /\
   prop (prop o "collider") "h" = VNum (clamp_range (prop (prop c "collider") "h") collider_size)).
Proof.
  unfold toScene_character, get.
  destruct (nullish c); [discriminate|]. intros E; inversion E; subst o; clear E.
  read_fields. rewrite !flag_lookup by discriminate.
  repeat (split; [reflexivity|]).
  intros Hcol. rewrite Hcol. split; reflexivity.
Qed.

Ltac settle_fields :=
  cbn [prop lookup String.eqb Ascii.eqb Bool.eqb app fst snd typeof truthy nullish];
  unfold clamp_range;
  rewrite ?js_coalesce_num, ?clamp_idem, ?js_or_idem.

(** A character [toScene] has produced is left as it is when it is
    processed again at the same position in the same world. *)
Lemma toScene_character_fixed (W H : value) (i : nat) (c o : value) :
  toScene_character W H i c = Some o -> toScene_character W H i o = Some o.
Proof.
  unfold toScene_character at 1, get.
  destruct (nullish c); [discriminate|].
  destruct (String.eqb (typeof (prop (prop c "abilities") "jump")) "boolean");
  destruct (String.eqb (typeof (prop (prop c "abilities") "slide")) "boolean");
  destruct (String.eqb (typeof (prop (prop c "abilities") "punch")) "boolean");
  destruct (truthy (prop (prop c "abilities") "shoot"));
  destruct (truthy (prop c "collider"));
  intros E; inversion E; subst o; clear E;
  unfold toScene_character, get; settle_fields; reflexivity.
Qed.

Lemma toScene_platform_fixed (p o : value) :
  toScene_platform p = Some o -> toScene_platform o = Some o.
Proof.
  unfold toScene_platform, get. destruct (nullish p); [discriminate|].
  intros E; inversion E; subst o. reflexivity.
Qed.

Lemma firstn_short {A} (n : nat) (l : list A) : List.length l <= n -> firstn n l = l.
Proof. apply firstn_all2. Qed.

(** [toScene] returns on every input whose lists hold actual values,
    and this is the Scene it returns. *)
Lemma toScene_returns (cs ps : list value) (bg world controls : value) :
  world <> VNull ->
  Forall present (firstn CONSTRAINTS.maxCharacters cs) ->
  Forall present ps ->
  exists chars plats,
    mapM_from (toScene_character (prop (scene_world world) "width")
                 (prop (scene_world world) "height"))
      0 (firstn CONSTRAINTS.maxCharacters cs) = Some chars /\
    mapM toScene_platform ps = Some plats /\
    toScene (toScene_input (VArr cs) (VArr ps) bg world controls)
    = Some (VObj [ ("world", scene_world world);
                   ("background",
                     VObj [ ("imageUrl", prop bg "imageUrl");
                            ("fit", js_or (prop bg "fit") (VStr "cover")) ]);
                   ("platforms", VArr plats);
                   ("targets", js_or (prop bg "targets") (VArr []));
                   ("characters", VArr chars);
                   ("controls", js_or controls DEFAULTS.controls) ]).
Proof.
  intros Hw Hcs Hps.
  destruct (mapM_from_total
              (toScene_character (prop (scene_world world) "width")
                 (prop (scene_world world) "height"))
              present _ (fun i x => toScene_character_total _ _ i x) Hcs 0)
    as (chars & Ec).
  destruct (mapM_total toScene_platform present ps) as (plats & Ep); [|assumption|].
  { intros x Hx. unfold toScene_platform, get. rewrite Hx. now eexists. }
  exists chars, plats. repeat split; [assumption..|].
  unfold scene_world in *.
  unfold toScene, toScene_input, get, DEFAULTS.world. cbn [nullish]. read_fields.
  destruct world; try congruence; cbn [nullish js_or truthy as_array];
    revert Ec; read_fields; intros Ec; rewrite Ec, Ep; reflexivity.
Qed.

Lemma nth_error_firstn_lt {A} (n i : nat) (l : list A) :
  i < n -> nth_error (firstn n l) i = nth_error l i.
Proof.
  revert i l. induction n as [|n IH]; intros i l Hi; [lia|].
  destruct l as [|x r]; [now destruct i|].
  destruct i as [|i]; [reflexivity|]. simpl. apply IH. lia.
Qed.

(** The character [toScene] builds at a retained position. *)
Lemma toScene_character_at (cs ps : list value) (bg world controls : value)
      (i : nat) (c : value) :
  world <> VNull ->
  Forall present (firstn CONSTRAINTS.maxCharacters cs) ->
  Forall present ps ->
  i < CONSTRAINTS.maxCharacters ->
  nth_error cs i = Some c ->
  exists scene chars o,
    toScene (toScene_input (VArr cs) (VArr ps) bg world controls) = Some scene /\
    prop scene "world" = scene_world world /\
    prop scene "characters" = VArr chars /\
    List.length chars = Nat.min CONSTRAINTS.maxCharacters (List.length cs) /\
    nth_error chars i = Some o /\
    toScene_character (prop (scene_world world) "width")
      (prop (scene_world world) "height") i c = Some o.
Proof.
  intros Hw Hcs Hps Hi Hc.
  destruct (toScene_returns cs ps bg world controls Hw Hcs Hps)
    as (chars & plats & Ec & _ & E).
  rewrite <- (nth_error_firstn_lt _ _ _ Hi) in Hc.
  destruct (mapM_from_nth _ _ _ _ _ _ Ec Hc) as (o & Ho & Fo).
  eexists; exists chars, o. split; [exact E|]. read_fields.
  repeat split; try assumption.
  apply mapM_from_length in Ec. rewrite Ec. apply length_firstn.
Qed.

(** Every number other than NaN is in one of the three cases of
    [saturated]: below the range, above it or inside it. *)
Lemma saturated_cases (r : range) (n : num) :
  n <> NaN ->
  num_ltb n (bound r.(min)) = true \/ num_ltb (bound r.(max)) n = true \/
  (num_leb (bound r.(min)) n = true /\ num_leb n (bound r.(max)) = true).
Proof.
  intros Hn.
  destruct (num_ltb n (bound r.(min))) eqn:E1; [left; reflexivity|].
  destruct (num_ltb (bound r.(max)) n) eqn:E2; [right; left; reflexivity|].
  right; right. unfold num_leb. rewrite E1, E2.
  destruct n; [congruence|split; reflexivity..].
Qed.

(** C3, as amended.  For every number other than NaN given as
    [moveSpeed], [jumpVelocity], collider [w] or [h] of a retained
    character, or as the world's [gravity], the Scene [toScene] returns
    carries that number saturated into its range: the lower bound when
    it lies below [50,800], [100,1500], [8,256] or [100,3000], the upper
    bound when it lies above, the number itself when it lies inside.
    (The three cases of [saturated] are those of a number that compares;
    NaN compares with nothing and is in none of them.) *)
Theorem toScene_clamps_to_nearest_bound
        (cs ps : list value) (bg world controls : value) (i : nat) (c : value) :
  world <> VNull ->
  Forall present (firstn CONSTRAINTS.maxCharacters cs) ->
  Forall present ps ->
  i < CONSTRAINTS.maxCharacters ->
  nth_error cs i = Some c ->
  exists scene chars o,
    toScene (toScene_input (VArr cs) (VArr ps) bg world controls) = Some scene /\
    prop scene "characters" = VArr chars /\
    nth_error chars i = Some o /\
    (forall n, prop (prop c "abilities") "moveSpeed" = VNum n ->
       exists r, prop (prop o "abilities") "moveSpeed" = VNum r /\
                 saturated CONSTRAINTS.moveSpeed n r) /\
    (forall n, prop (prop c "abilities") "jumpVelocity" = VNum n ->
       exists r, prop (prop o "abilities") "jumpVelocity" = VNum r /\
                 saturated CONSTRAINTS.jumpVelocity n r) /\
    (forall n, prop (prop c "collider") "w" = VNum n ->
       exists r, prop (prop o "collider") "w" = VNum r /\ saturated collider_size n r) /\
    (forall n, prop (prop c "collider") "h" = VNum n ->
       exists r, prop (prop o "collider") "h" = VNum r /\ saturated collider_size n r) /\
    (forall n, prop world "gravity" = VNum n ->
       exists r, prop (prop scene "world") "gravity" = VNum r /\
                 saturated CONSTRAINTS.gravity n r).
Proof.
  intros Hw Hcs Hps Hi Hc.
  destruct (toScene_character_at cs ps bg world controls i c Hw Hcs Hps Hi Hc)
    as (scene & chars & o & E & Ew & Echars & _ & Ho & Fo).
  destruct (toScene_character_fields _ _ _ _ _ Fo)
    as (_ & _ & _ & Hms & Hjv & Hcol).
  assert (Hobj : forall k n, prop (prop c "collider") k = VNum n ->
                             truthy (prop c "collider") = true).
  { intros k n. destruct (prop c "collider"); simpl; try discriminate. reflexivity. }
  exists scene, chars, o. repeat split; try assumption.
  - intros n Hn. rewrite Hms, Hn. eexists; split; [reflexivity|].
    apply clamp_range_saturated. simpl. lia.
  - intros n Hn. rewrite Hjv, Hn. eexists; split; [reflexivity|].
    apply clamp_range_saturated. simpl. lia.
  - intros n Hn. destruct (Hcol (Hobj _ _ Hn)) as (-> & _). rewrite Hn.
    eexists; split; [reflexivity|]. apply clamp_range_saturated. simpl. lia.
  - intros n Hn. destruct (Hcol (Hobj _ _ Hn)) as (_ & ->). rewrite Hn.
    eexists; split; [reflexivity|]. apply clamp_range_saturated. simpl. lia.
  - intros n Hn. rewrite Ew.
    assert (world = match world with VUndef => VObj [] | w => w end) as Hsame
      by (destruct world; try reflexivity; discriminate).
    unfold scene_world. rewrite <- Hsame. read_fields. rewrite Hn.
    eexists; split; [reflexivity|]. apply clamp_range_saturated. simpl. lia.
Qed.

(** C4.  Given more than three characters, [toScene] keeps three: the
    first three of the input, each at its own position, with its image
    reference and with its own id and name wherever it has them. *)
Theorem toScene_keeps_first_three
        (cs ps : list value) (bg world controls : value) :
  3 < List.length cs ->
  world <> VNull ->
  Forall present (firstn CONSTRAINTS.maxCharacters cs) ->
  Forall present ps ->
  exists scene chars,
    toScene (toScene_input (VArr cs) (VArr ps) bg world controls) = Some scene /\
    prop scene "characters" = VArr chars /\
    List.length chars = 3 /\
    forall i c, i < 3 -> nth_error cs i = Some c ->
      exists o, nth_error chars i = Some o /\
                prop o "imageUrl" = prop c "imageUrl" /\
                prop o "id" = js_or (prop c "id") (VStr ("char-" ++ nat_to_string (i + 1))) /\
                prop o "name" = js_or (prop c "name") (VStr "Hero").
Proof.
  intros Hlen Hw Hcs Hps.
  destruct (toScene_returns cs ps bg world controls Hw Hcs Hps)
    as (chars & plats & Ec & _ & E).
  eexists; exists chars. split; [exact E|]. read_fields. split; [reflexivity|]. split.
  - apply mapM_from_length in Ec. rewrite Ec, length_firstn.
    unfold CONSTRAINTS.maxCharacters. lia.
  - intros i c Hi Hc.
    rewrite <- (nth_error_firstn_lt CONSTRAINTS.maxCharacters _ _ Hi) in Hc.
    destruct (mapM_from_nth _ _ _ _ _ _ Ec Hc) as (o & Ho & Fo).
    destruct (toScene_character_fields _ _ _ _ _ Fo) as (Hid & Hname & Himg & _).
    exists o. simpl in Hid. auto.
Qed.

(** C10.  A retained character whose abilities give no [moveSpeed] gets
    exactly 180, one whose abilities give no [jumpVelocity] gets exactly
    420; both defaults lie strictly inside their ranges. *)
Theorem toScene_default_speeds
        (cs ps : list value) (bg world controls : value) (i : nat) (c : value) :
  world <> VNull ->
  Forall present (firstn CONSTRAINTS.maxCharacters cs) ->
  Forall present ps ->
  i < CONSTRAINTS.maxCharacters ->
  nth_error cs i = Some c ->
  exists scene chars o,
    toScene (toScene_input (VArr cs) (VArr ps) bg world controls) = Some scene /\
    prop scene "characters" = VArr chars /\
    nth_error chars i = Some o /\
    (nullish (prop (prop c "abilities") "moveSpeed") = true ->
       prop (prop o "abilities") "moveSpeed" = num_lit 180) /\
    (nullish (prop (prop c "abilities") "jumpVelocity") = true ->
       prop (prop o "abilities") "jumpVelocity" = num_lit 420) /\
    (CONSTRAINTS.moveSpeed.(min) < 180 < CONSTRAINTS.moveSpeed.(max))%Z /\
    (CONSTRAINTS.jumpVelocity.(min) < 420 < CONSTRAINTS.jumpVelocity.(max))%Z.
Proof.
  intros Hw Hcs Hps Hi Hc.
  destruct (toScene_character_at cs ps bg world controls i c Hw Hcs Hps Hi Hc)
    as (scene & chars & o & E & _ & Echars & _ & Ho & Fo).
  destruct (toScene_character_fields _ _ _ _ _ Fo) as (_ & _ & _ & Hms & Hjv & _).
  exists scene, chars, o. repeat split; try assumption; try (simpl; lia).
  - intros Hn. rewrite Hms. unfold js_coalesce. rewrite Hn. reflexivity.
  - intros Hn. rewrite Hjv. unfold js_coalesce. rewrite Hn. reflexivity.
Qed.

Lemma set_prop_same (k : string) (v : value) (kvs : fields_of) :
  lookup k kvs = Some v -> set_prop k v kvs = kvs.
Proof.
  induction kvs as [|[k' v'] r IH]; cbn [lookup set_prop]; [discriminate|].
  destruct (String.eqb k k').
  - now intros [= ->].
  - intros Hr. now rewrite IH.
Qed.

Lemma lookup_set_prop (k k' : string) (v : value) (t : fields_of) :
  lookup k (set_prop k' v t) = if String.eqb k k' then Some v else lookup k t.
Proof.
  induction t as [|[k1 v1] r IH]; cbn [set_prop lookup]; [reflexivity|].
  destruct (String.eqb_spec k' k1) as [->|Hne]; cbn [lookup].
  - now destruct (String.eqb k k1).
  - rewrite IH. destruct (String.eqb_spec k k1) as [->|Hk]; [|reflexivity].
    destruct (String.eqb_spec k1 k'); [congruence|reflexivity].
Qed.

(** C8, as amended.  Feeding the characters, platforms, background,
    world and controls of a Scene [toScene] returned back into [toScene]
    returns that Scene with every field unchanged except [targets], which
    is the empty list: [toScene] reads targets from the background it is
    given and writes none into the background it returns.  The Scene
    comes back unchanged whenever its [targets] is the empty list. *)
Theorem toScene_second_pass (arg scene : value) :
  toScene arg = Some scene ->
  exists again,
    toScene (feed_back scene) = Some again /\
    again = with_targets scene (VArr []) /\
    prop again "targets" = VArr [] /\
    (forall k, k <> "targets" -> prop again k = prop scene k) /\
    (prop scene "targets" = VArr [] -> again = scene).
Proof.
  intros E. exists (with_targets scene (VArr [])).
  assert (Hobj : exists kvs, scene = VObj kvs).
  { revert E. unfold toScene.
    repeat match goal with
           | |- context [match ?x with Some _ => _ | None => None end] =>
               destruct x; [|discriminate]
           end.
    intros [= <-]. now eexists. }
  split; [|split; [reflexivity|]].
  { revert E. unfold toScene at 1.
    destruct (get arg "characters") as [characters|]; [|discriminate].
    set (world := match prop arg "world" with VUndef => VObj [] | w => w end).
    destruct (get world "width") as [width|] eqn:Ewidth; [|discriminate].
    destruct (as_array (js_or characters (VArr []))) as [selected|]; [|discriminate].
    set (W := js_coalesce width (prop DEFAULTS.world "width")).
    set (H := js_coalesce (prop world "height") (prop DEFAULTS.world "height")).
    destruct (mapM_from (toScene_character W H) 0
                (firstn CONSTRAINTS.maxCharacters selected)) as [chars|] eqn:Ec;
      [|discriminate].
    destruct (as_array (js_or (prop arg "platforms") (VArr []))) as [authored|];
      [|discriminate].
    destruct (mapM toScene_platform authored) as [plats|] eqn:Ep; [|discriminate].
    intros E; inversion E; subst scene; clear E.
    assert (HW : js_coalesce W (prop DEFAULTS.world "width") = W)
      by apply js_coalesce_idem.
    assert (HH : js_coalesce H (prop DEFAULTS.world "height") = H)
      by apply js_coalesce_idem.
    assert (Hlen : List.length chars <= CONSTRAINTS.maxCharacters).
    { apply mapM_from_length in Ec. rewrite Ec, length_firstn. lia. }
    unfold feed_back, toScene_input, with_targets.
    cbn [prop lookup String.eqb Ascii.eqb Bool.eqb set_prop].
    unfold toScene, get.
    cbn [prop lookup String.eqb Ascii.eqb Bool.eqb nullish js_or truthy as_array].
    rewrite HW, HH, (firstn_short _ _ Hlen).
    rewrite (mapM_from_fixed _ _ _ _ (toScene_character_fixed W H) Ec).
    rewrite (mapM_fixed _ _ _ toScene_platform_fixed Ep).
    unfold clamp_range. rewrite js_coalesce_num, clamp_idem, !js_or_idem.
    reflexivity. }
  destruct Hobj as (kvs & ->). unfold with_targets, prop.
  split; [|split].
  - now rewrite lookup_set_prop, String.eqb_refl.
  - intros k Hk. rewrite lookup_set_prop.
    now destruct (String.eqb_spec k "targets").
  - intros Ht. f_equal. apply set_prop_same.
    destruct (lookup "targets" kvs); [now subst|discriminate].
Qed.

(** ** [ensureScene] *)

Lemma ensureScene_entity_total (scene : scene_lists) (e : value) :
  present e -> exists scene', ensureScene_entity scene e = Some scene'.
Proof.
  unfold present, ensureScene_entity, get. intros ->.
  repeat match goal with
         | |- context [if ?b then _ else _] => destruct b
         end; now eexists.
Qed.

(** C5.  Whatever the canvas and the entities of a design document,
    [ensureScene] returns a Scene with at least one platform and at least
    one character. *)
Theorem ensureScene_has_platform_and_character (design : value) (entities : list value) :
  present design ->
  as_array (js_or (prop design "entities") (VArr [])) = Some entities ->
  Forall present entities ->
  exists scene ps cs,
    ensureScene design = Some scene /\
    prop scene "platforms" = VArr ps /\ 1 <= List.length ps /\
    prop scene "characters" = VArr cs /\ 1 <= List.length cs.
Proof.
  intros Hd He Hes. unfold ensureScene, get. rewrite Hd, He.
  destruct (foldM_total ensureScene_entity present entities
              ensureScene_entity_total Hes
              {| platforms := []; targets := []; characters := [] |})
    as (acc & ->).
  destruct (Nat.eqb_spec (List.length (platforms acc)) 0) as [Ep|Ep];
    cbn [characters push_platform];
    destruct (Nat.eqb_spec (List.length (characters acc)) 0) as [Ec|Ec];
    (eexists; eexists; eexists; split; [reflexivity|]; read_fields;
     cbn [platforms characters push_platform push_character];
     split; [reflexivity|]; split; [|split; [reflexivity|]];
     rewrite ?length_app; cbn [List.length]; lia).
Qed.

(** C6.  On a 1280 by 720 canvas with no entities [ensureScene] returns
    exactly one platform, the ground [{x:0, y:660, w:1280, h:60}], and
    exactly one character, with id ["char-1"] and spawn [{x:120, y:600}]. *)
Theorem ensureScene_empty_design_fallbacks :
  exists scene character,
    ensureScene
      (VObj [ ("canvas", VObj [("width", num_lit 1280); ("height", num_lit 720)]);
              ("entities", VArr []) ])
    = Some scene /\
    prop scene "platforms"
    = VArr [ VObj [ ("x", num_lit 0); ("y", num_lit 660);
                    ("w", num_lit 1280); ("h", num_lit 60) ] ] /\
    prop scene "characters" = VArr [character] /\
    prop character "id" = VStr "char-1" /\
    prop character "spawn" = VObj [("x", num_lit 120); ("y", num_lit 600)].
Proof.
  eexists; eexists. split; [vm_compute; reflexivity|].
  vm_compute. repeat split; reflexivity.
Qed.

(** C1, at the design [{canvas: {width: 1280, height: 720}, entities: []}]:
    the Scene literal of the generated [game.js] names the six top-level
    fields in alphabetical order and nothing below them; every nested
    object is printed empty. *)
Theorem generated_scene_literal_is_hollow :
  exists game,
    generateBuildManifest
      (VObj [ ("canvas", VObj [("width", num_lit 1280); ("height", num_lit 720)]);
              ("entities", VArr []) ])
    = Some {| kind := "web-service"; runtime := "static"; entry := "index.html";
              start := "static";
              files := [ {| path := "index.html"; content := buildIndexHtml |};
                         {| path := "game.js"; content := game |} ] |} /\
    game
    = gameJs_head
        ++ "{" ++ nl
        ++ "  " ++ dq ++ "background" ++ dq ++ ": {}," ++ nl
        ++ "  " ++ dq ++ "characters" ++ dq ++ ": [" ++ nl
        ++ "    {}" ++ nl
        ++ "  ]," ++ nl
        ++ "  " ++ dq ++ "controls" ++ dq ++ ": {}," ++ nl
        ++ "  " ++ dq ++ "platforms" ++ dq ++ ": [" ++ nl
        ++ "    {}" ++ nl
        ++ "  ]," ++ nl
        ++ "  " ++ dq ++ "targets" ++ dq ++ ": []," ++ nl
        ++ "  " ++ dq ++ "world" ++ dq ++ ": {}" ++ nl
        ++ "}"
        ++ gameJs_tail.
Proof.
  eexists. split; vm_compute; reflexivity.
Qed.

(** ** Values that denote the same data *)

Lemma same_value_refl : forall v, same_value v v.
Proof.
  induction v as [| | | | |l IH|kvs IH] using value_nested_ind; try constructor.
  - induction IH; constructor; auto.
  - intros k. induction IH as [|[k' v] r Hv _ IHr]; cbn [lookup]; [constructor|].
    destruct (String.eqb k k'); [constructor; exact Hv|exact IHr].
Qed.

Lemma same_fields_refl (a : fields_of) : same_fields a a.
Proof. induction a; constructor; auto using same_value_refl. Qed.

Lemma same_fields_lookup (a b : fields_of) :
  same_fields a b -> forall k, opt_rel same_value (lookup k a) (lookup k b).
Proof.
  induction 1 as [|[k1 v1] [k2 v2] r r' [Hk Hv] _ IH]; intros k; cbn [lookup].
  - constructor.
  - simpl in Hk, Hv. subst k2. destruct (String.eqb k k1); [now constructor|apply IH].
Qed.

Lemma same_fields_obj (a b : fields_of) : same_fields a b -> same_value (VObj a) (VObj b).
Proof. intros H. constructor. now apply same_fields_lookup. Qed.

Lemma same_VNum (n n' : num) : n = n' -> same_value (VNum n) (VNum n').
Proof. intros ->. constructor. Qed.

Lemma prop_same (a b : value) (k : string) :
  same_value a b -> same_value (prop a k) (prop b k).
Proof.
  intros H. destruct H as [| |c|n|s|l l' Hl|x y Hxy]; cbn [prop]; try constructor.
  destruct (Hxy k); [constructor|assumption].
Qed.

Lemma nullish_same (a b : value) : same_value a b -> nullish a = nullish b.
Proof. intros H. now destruct H as [| |c|n|t|l l' Hl|x y Hxy]. Qed.

Lemma truthy_same (a b : value) : same_value a b -> truthy a = truthy b.
Proof. intros H. now destruct H as [| |c|n|t|l l' Hl|x y Hxy]. Qed.

Lemma typeof_same (a b : value) : same_value a b -> typeof a = typeof b.
Proof. intros H. now destruct H as [| |c|n|t|l l' Hl|x y Hxy]. Qed.

Lemma is_str_same (a b : value) (s : string) : same_value a b -> is_str a s = is_str b s.
Proof. intros H. now destruct H as [| |c|n|t|l l' Hl|x y Hxy]. Qed.

Lemma is_number_same (a b : value) : same_value a b -> is_number a = is_number b.
Proof. unfold is_number. now intros ->%typeof_same. Qed.

Lemma js_or_same (a a' b b' : value) :
  same_value a a' -> same_value b b' -> same_value (js_or a b) (js_or a' b').
Proof.
  intros Ha Hb. unfold js_or. rewrite <- (truthy_same _ _ Ha). now destruct (truthy a).
Qed.

Lemma js_and_same (a a' b b' : value) :
  same_value a a' -> same_value b b' -> same_value (js_and a b) (js_and a' b').
Proof.
  intros Ha Hb. unfold js_and. rewrite <- (truthy_same _ _ Ha). now destruct (truthy a).
Qed.

Lemma ToNumber_same : forall a b, same_value a b -> ToNumber a = ToNumber b.
Proof.
  induction a as [| | | | |l IH|kvs _] using value_nested_ind;
    intros v' Hab; inversion Hab; subst; try reflexivity.
  match goal with H : Forall2 _ _ _ |- _ => destruct H as [|x y r r' Hxy Hr] end;
    [reflexivity|].
  destruct Hr; [|reflexivity].
  inversion IH as [|? ? IHx _]; subst.
  cbn [ToNumber]. destruct Hxy; try reflexivity.
  apply IHx. now constructor.
Qed.

Lemma Math_min_same (a a' b b' : value) :
  same_value a a' -> same_value b b' -> Math_min a b = Math_min a' b'.
Proof. unfold Math_min. now intros ->%ToNumber_same ->%ToNumber_same. Qed.

Lemma Math_max_same (a a' b b' : value) :
  same_value a a' -> same_value b b' -> Math_max a b = Math_max a' b'.
Proof. unfold Math_max. now intros ->%ToNumber_same ->%ToNumber_same. Qed.

Lemma Math_abs_same (a a' : value) : same_value a a' -> Math_abs a = Math_abs a'.
Proof. unfold Math_abs. now intros ->%ToNumber_same. Qed.

Lemma js_sub_same (a a' b b' : value) :
  same_value a a' -> same_value b b' -> js_sub a b = js_sub a' b'.
Proof. unfold js_sub. now intros ->%ToNumber_same ->%ToNumber_same. Qed.

Lemma distinct_keys_prop (v : value) (k : string) :
  distinct_keys v -> distinct_keys (prop v k).
Proof.
  destruct 1 as [| | | | | |kvs _ Hall]; cbn [prop]; try constructor.
  induction Hall as [|[k' x] r Hx _ IH]; cbn [lookup]; [constructor|].
  destruct (String.eqb k k'); [exact Hx|exact IH].
Qed.

Lemma distinct_keys_js_or (a b : value) :
  distinct_keys a -> distinct_keys b -> distinct_keys (js_or a b).
Proof. unfold js_or. now destruct (truthy a). Qed.

Lemma set_prop_same_fields (k : string) (v v' : value) (a b : fields_of) :
  same_fields a b -> same_value v v' -> same_fields (set_prop k v a) (set_prop k v' b).
Proof.
  intros Hab Hv.
  induction Hab as [|[k1 v1] [k2 v2] r r' [Hk Hx] Hr IH]; cbn [set_prop].
  - constructor; [now split|constructor].
  - simpl in Hk, Hx. subst k2. destruct (String.eqb k k1).
    + constructor; [now split|assumption].
    + constructor; [now split|assumption].
Qed.

Lemma assign_same_fields (src src' : fields_of) :
  same_fields src src' -> forall t t', same_fields t t' ->
  same_fields (fold_left (fun acc kv => set_prop (fst kv) (snd kv) acc) src t)
              (fold_left (fun acc kv => set_prop (fst kv) (snd kv) acc) src' t').
Proof.
  induction 1 as [|x y r r' [Hk Hv] _ IH]; intros t t' Ht; cbn [fold_left].
  - assumption.
  - apply IH. rewrite Hk. now apply set_prop_same_fields.
Qed.

Lemma indexed_same (l l' : list value) :
  Forall2 same_value l l' -> forall i, same_fields (indexed i l) (indexed i l').
Proof.
  induction 1 as [|x y r r' Hxy _ IH]; intros i; cbn [indexed]; constructor;
    [now split|apply IH].
Qed.

Lemma lookup_absent (k : string) (kvs : fields_of) :
  ~ In k (map fst kvs) -> lookup k kvs = None.
Proof.
  induction kvs as [|[k1 v1] r IH]; cbn [lookup map fst]; [reflexivity|].
  intros Hn. destruct (String.eqb_spec k k1) as [->|Hk].
  - exfalso. apply Hn. now left.
  - apply IH. intros Hin. apply Hn. now right.
Qed.

(** After [Object.assign], a name reads as in the source if the source
    has it, as in the target otherwise. *)
Lemma lookup_assign (k : string) (src : fields_of) :
  NoDup (map fst src) -> forall t,
  lookup k (fold_left (fun acc kv => set_prop (fst kv) (snd kv) acc) src t)
  = match lookup k src with Some v => Some v | None => lookup k t end.
Proof.
  induction src as [|[k1 v1] r IH]; intros Hnd t; cbn [fold_left lookup fst snd].
  - reflexivity.
  - inversion Hnd as [|? ? Hnotin Hr]; subst.
    rewrite (IH Hr), lookup_set_prop.
    destruct (String.eqb_spec k k1) as [->|Hk]; [|reflexivity].
    now rewrite (lookup_absent _ _ Hnotin).
Qed.

Lemma Object_assign_same (t : fields_of) (src src' : value) :
  same_value src src' -> distinct_keys src -> distinct_keys src' ->
  same_value (VObj (Object_assign t src)) (VObj (Object_assign t src')).
Proof.
  intros Hs Hd Hd'. unfold Object_assign.
  destruct Hs as [| |c|n|s|l l' Hl|x y Hxy]; cbn [own_props];
    try apply same_value_refl.
  - apply same_fields_obj, assign_same_fields;
      [now apply indexed_same|apply same_fields_refl].
  - inversion Hd as [| | | | | |? Hx _]; inversion Hd' as [| | | | | |? Hy _]; subst.
    constructor. intros k. rewrite !lookup_assign by assumption.
    destruct (Hxy k) as [|u u' Hu]; [|now constructor].
    destruct (lookup k t) eqn:E; constructor. apply same_value_refl.
Qed.

(** ** [ensureScene] on designs that denote the same data *)

Lemma Forall2_snoc {A} (R : A -> A -> Prop) (l l' : list A) (x x' : A) :
  Forall2 R l l' -> R x x' -> Forall2 R (l ++ [x]) (l' ++ [x']).
Proof. intros Hl Hx. apply Forall2_app; [assumption|now constructor]. Qed.

Lemma push_platform_same (s s' : scene_lists) (p p' : value) :
  same_lists s s' -> same_value p p' ->
  same_lists (push_platform s p) (push_platform s' p').
Proof.
  intros (Hp & Ht & Hc) Hv. repeat split; cbn; auto using Forall2_snoc.
Qed.

Lemma push_target_same (s s' : scene_lists) (p p' : value) :
  same_lists s s' -> same_value p p' ->
  same_lists (push_target s p) (push_target s' p').
Proof.
  intros (Hp & Ht & Hc) Hv. repeat split; cbn; auto using Forall2_snoc.
Qed.

Lemma push_character_same (s s' : scene_lists) (p p' : value) :
  same_lists s s' -> same_value p p' ->
  same_lists (push_character s p) (push_character s' p').
Proof.
  intros (Hp & Ht & Hc) Hv. repeat split; cbn; auto using Forall2_snoc.
Qed.

Create HintDb same_db.
#[local] Hint Resolve prop_same js_or_same js_and_same same_value_refl same_VNum
  Math_min_same Math_max_same Math_abs_same js_sub_same Object_assign_same
  distinct_keys_prop distinct_keys_js_or : same_db.
#[local] Hint Constructors same_value distinct_keys Forall Forall2 NoDup : same_db.

Ltac same_literal :=
  apply same_fields_obj;
  repeat (apply Forall2_cons; [split; [reflexivity|cbn [snd]]|]);
  try apply Forall2_nil;
  eauto 8 with same_db.

Ltac same_solve :=
  repeat first
    [ assumption
    | apply same_fields_obj
    | apply Forall2_cons; [split; [reflexivity|cbn [snd]]|]
    | apply Forall2_nil
    | apply same_arr
    | apply Forall2_snoc
    | solve [eauto 8 with same_db] ].

Lemma ensureScene_entity_same (s s' : scene_lists) (e e' : value) :
  same_lists s s' -> same_value e e' -> distinct_keys e -> distinct_keys e' ->
  opt_rel same_lists (ensureScene_entity s e) (ensureScene_entity s' e').
Proof.
  intros Hs He De De'. unfold ensureScene_entity, get.
  rewrite <- (nullish_same _ _ He). destruct (nullish e); [constructor|].
  pose proof (fun k => prop_same _ _ k He) as Hp.
  pose proof (fun k lit => is_str_same _ _ lit (Hp k)) as Hstr.
  pose proof (fun k => is_number_same _ _ (Hp k)) as Hnum.
  rewrite <- !Hstr, <- !Hnum.
  repeat match goal with
         | |- context [if ?b then _ else _] => destruct b; cbn [orb andb]
         end;
    constructor; try assumption;
    first [apply push_platform_same | apply push_target_same | apply push_character_same];
    try assumption; same_literal.
  - apply Object_assign_same; auto with same_db;
      apply distinct_keys_js_or; auto with same_db;
      constructor; constructor.
  - same_literal.
Qed.

Lemma foldM_same (l l' : list value) :
  Forall2 same_value l l' -> Forall distinct_keys l -> Forall distinct_keys l' ->
  forall s s', same_lists s s' ->
  opt_rel same_lists (foldM ensureScene_entity s l) (foldM ensureScene_entity s' l').
Proof.
  induction 1 as [|e e' r r' He _ IH]; intros Hd Hd' s s' Hs; cbn [foldM].
  - now constructor.
  - inversion Hd; inversion Hd'; subst.
    destruct (ensureScene_entity_same s s' e e' Hs He) as [|t t' Ht]; try assumption.
    + constructor.
    + now apply IH.
Qed.

Lemma as_array_same (v v' : value) :
  same_value v v' -> opt_rel (Forall2 same_value) (as_array v) (as_array v').
Proof.
  intros H. destruct H as [| |c|n|s|l l' Hl|x y Hxy]; cbn [as_array]; now constructor.
Qed.

Lemma ensureScene_same (d d' : value) :
  same_value d d' -> distinct_keys d -> distinct_keys d' ->
  opt_rel (fun s s' => same_value s s' /\ Object_keys s = Object_keys s')
    (ensureScene d) (ensureScene d').
Proof.
  intros Hd Dd Dd'. unfold ensureScene, get.
  rewrite <- (nullish_same _ _ Hd). destruct (nullish d); [constructor|].
  pose proof (fun k => prop_same _ _ k Hd) as Hp.
  assert (He : same_value (js_or (prop d "entities") (VArr []))
                          (js_or (prop d' "entities") (VArr [])))
    by auto with same_db.
  assert (De : distinct_keys (js_or (prop d "entities") (VArr [])))
    by auto with same_db.
  assert (De' : distinct_keys (js_or (prop d' "entities") (VArr [])))
    by auto with same_db.
  destruct He as [| |c|n|s|l l' Hl|x y Hxy]; cbn [as_array]; try constructor.
  inversion De; inversion De'; subst.
  destruct (foldM_same l l' Hl) with
    (s := {| platforms := []; targets := []; characters := [] |})
    (s' := {| platforms := []; targets := []; characters := [] |})
    as [|acc acc' (Hps & Hts & Hcs)]; try assumption.
  { repeat split; constructor. }
  { constructor. }
  constructor.
  rewrite <- (Forall2_length Hps).
  destruct (Nat.eqb (List.length (platforms acc)) 0);
    cbn [characters platforms targets push_platform push_character];
    rewrite <- (Forall2_length Hcs);
    destruct (Nat.eqb (List.length (characters acc)) 0);
    cbn [characters platforms targets push_platform push_character];
    read_fields;
    (split; [|reflexivity]); same_solve.
Qed.

(** ** [JSON.stringify] reads objects as finite maps *)

Lemma SerializeJSONProperty_object (K : list string) (gap indent : string) (kvs : fields_of) :
  SerializeJSONProperty K gap indent (VObj kvs)
  = Some (wrap "{" "}" indent (indent ++ gap)
            (flat_map
               (fun P =>
                  match lookup P kvs with
                  | Some x =>
                      match SerializeJSONProperty K gap (indent ++ gap) x with
                      | Some strP => [QuoteJSONString P ++ ":" ++ " " ++ strP]
                      | None => []
                      end
                  | None => []
                  end) K)).
Proof.
  cbn [SerializeJSONProperty]. do 2 f_equal.
  apply flat_map_ext. intros P.
  induction kvs as [|[k x] r IH]; cbn [lookup]; [reflexivity|].
  destruct (String.eqb P k); [reflexivity|exact IH].
Qed.

Lemma lookup_In (k : string) (kvs : fields_of) (x : value) :
  lookup k kvs = Some x -> exists kv, In kv kvs /\ snd kv = x.
Proof.
  induction kvs as [|[k1 v1] r IH]; cbn [lookup]; [discriminate|].
  destruct (String.eqb k k1).
  - intros [= ->]. exists (k1, x). split; [now left|reflexivity].
  - intros H. destruct (IH H) as (kv & Hin & Hs). exists kv. split; [now right|assumption].
Qed.

Lemma map_same {A B} (R : A -> A -> Prop) (f : A -> B) (l l' : list A) :
  Forall2 R l l' -> Forall (fun x => forall y, R x y -> f x = f y) l ->
  map f l = map f l'.
Proof.
  induction 1 as [|x y r r' Hxy _ IH]; intros Hall; [reflexivity|].
  inversion Hall as [|? ? Hx Hr]; subst. cbn [map].
  now rewrite (Hx y Hxy), (IH Hr).
Qed.

Lemma SerializeJSONProperty_same (K : list string) (gap : string) :
  forall v v', same_value v v' ->
  forall indent, SerializeJSONProperty K gap indent v = SerializeJSONProperty K gap indent v'.
Proof.
  induction v as [| | | | |l IH|kvs IH] using value_nested_ind;
    intros v' Hv indent; inversion Hv; subst; try reflexivity.
  - cbn [SerializeJSONProperty]. do 2 f_equal.
    apply map_same with (R := same_value); [assumption|].
    apply Forall_impl with (2 := IH). intros x Hx y Hxy. now rewrite (Hx y Hxy).
  - rewrite !SerializeJSONProperty_object. do 2 f_equal.
    apply flat_map_ext. intros P.
    match goal with H : forall k, opt_rel _ _ _ |- _ => pose proof (H P) as HP end.
    destruct (lookup P kvs) as [x|] eqn:Ex; inversion HP as [|x' y Hxy]; subst;
      [|reflexivity].
    destruct (lookup_In _ _ _ Ex) as (kv & Hin & <-).
    rewrite Forall_forall in IH. now rewrite (IH kv Hin _ Hxy).
Qed.

(** C2.  Two designs that denote the same data, whatever the order in
    which their objects list their keys, give the same build manifest:
    the same two files with the same contents, byte for byte.  (The
    generator is a function of its input, so two runs on one design agree
    as well.) *)
Theorem generateBuildManifest_deterministic (design design' : value) :
  distinct_keys design -> distinct_keys design' ->
  same_value design design' ->
  generateBuildManifest design = generateBuildManifest design'.
Proof.
  intros D D' Hd. unfold generateBuildManifest.
  destruct (ensureScene_same design design' Hd D D') as [|s s' (Hs & Hk)];
    [reflexivity|].
  unfold buildGameJs, stableStringify, JSON_stringify.
  rewrite <- (nullish_same _ _ Hs), <- Hk.
  now rewrite (SerializeJSONProperty_same _ _ _ _ Hs).
Qed.

(** ** [validateAssets] *)

Lemma split_no_sep (sep : ascii) (s : string) :
  occurs sep s = false -> split sep s = [s].
Proof.
  induction s as [|c r IH]; cbn [occurs split]; [reflexivity|].
  destruct (Ascii.eqb c sep); [discriminate|]. cbn [orb].
  intros H. now rewrite (IH H).
Qed.

Lemma split_at_first (sep : ascii) (a b : string) :
  occurs sep a = false -> split sep (a ++ String sep b) = a :: split sep b.
Proof.
  induction a as [|c r IH]; cbn [occurs split append].
  - now rewrite Ascii.eqb_refl.
  - destruct (Ascii.eqb c sep); [discriminate|]. cbn [orb].
    intros H. now rewrite (IH H).
Qed.

(** On an inline image the estimate is three quarters of the length of
    the text after the comma, rounded down. *)
Lemma dataUriBytes_inline (meta payload : string) :
  occurs "," meta = false -> occurs "," payload = false ->
  dataUriBytes (VStr ("data:" ++ meta ++ "," ++ payload))
  = (Z.of_nat (String.length payload) * 3 / 4)%Z.
Proof.
  intros Hm Hp. unfold dataUriBytes. cbn [append truthy typeof String.eqb Ascii.eqb Bool.eqb negb orb].
  change (String "d" (String "a" (String "t" (String "a" (String ":" (meta ++ String "," payload))))))
    with (("data:" ++ meta) ++ String "," payload).
  rewrite split_at_first, split_no_sep by (cbn; assumption).
  reflexivity.
Qed.

Lemma startsWith_data (s : string) : startsWith ("data:" ++ s) "data:" = true.
Proof. reflexivity. Qed.

Lemma exceeds_bg (sz : Z) : exceeds sz CONSTRAINTS.bgMaxMB = (bgMaxBytes <? sz)%Z.
Proof.
  unfold exceeds, CONSTRAINTS.bgMaxMB, bgMaxBytes.
  destruct (1572864 <? sz)%Z eqn:E.
  - apply Qltb_lt. apply Z.ltb_lt in E.
    apply Qle_lt_trans with (inject_Z 1572864); [|now rewrite <- Zlt_Qlt].
    unfold Qle; simpl; lia.
  - destruct (Qltb _ _) eqn:F; [|reflexivity].
    apply Qltb_lt in F. apply Z.ltb_ge in E.
    assert (inject_Z sz <= inject_Z 1572864)%Q by now rewrite <- Zle_Qle.
    assert ((15 # 10) * 1024 * 1024 == inject_Z 1572864)%Q by reflexivity.
    exfalso. lra.
Qed.






(** ** [calculateColliderBounds] *)

Lemma scan_as_fold (cv : canvas) (b : bounds) :
  fold_left (scan_row cv) (seq 0 cv.(height)) b
  = fold_left (fun b p => scan_pixel cv (snd p) (fst p) b) (visit_order cv) b.
Proof.
  unfold visit_order. generalize (seq 0 (height cv)) as rows. intros rows. revert b.
  induction rows as [|y r IH]; intros b; cbn [fold_left flat_map]; [reflexivity|].
  rewrite fold_left_app, <- IH. f_equal.
  unfold scan_row. generalize (seq 0 (width cv)) as cols. intros cols. revert b.
  induction cols as [|x c IHc]; intros b; cbn [fold_left map]; [reflexivity|].
  apply IHc.
Qed.

Lemma visit_order_in (cv : canvas) (x y : nat) :
  In (x, y) (visit_order cv) <-> x < cv.(width) /\ y < cv.(height).
Proof.
  unfold visit_order. rewrite in_flat_map. split.
  - intros (y' & Hy & Hin). apply in_map_iff in Hin. destruct Hin as (x' & [= <- <-] & Hx).
    apply in_seq in Hy, Hx. lia.
  - intros (Hx & Hy). exists y. split; [apply in_seq; lia|].
    apply in_map_iff. exists x. split; [reflexivity|apply in_seq; lia].
Qed.

Lemma scan_pixel_opaque (cv : canvas) (x y : nat) (b : bounds) :
  scan_pixel cv y x b
  = if opaque_at cv x y
    then {| minX := Z.min b.(minX) (Z.of_nat x); minY := Z.min b.(minY) (Z.of_nat y);
            maxX := Z.max b.(maxX) (Z.of_nat x); maxY := Z.max b.(maxY) (Z.of_nat y);
            hasContent := true |}
    else b.
Proof.
  unfold scan_pixel, opaque_at. now destruct (nth_error _ _).
Qed.

Ltac seen_before x y :=
  exists x, y; split; [apply in_or_app; now left|split; [assumption|lia]].
Ltac seen_now x y :=
  exists x, y; split; [apply in_or_app; right; apply in_eq|split; [assumption|lia]].

Lemma scanned_step (cv : canvas) (seen : list (nat * nat)) (b : bounds) (x y : nat) :
  x < cv.(width) -> y < cv.(height) ->
  scanned cv seen b -> scanned cv (seen ++ [(x, y)]) (scan_pixel cv y x b).
Proof.
  intros Hx Hy (Hall & Hwit & Hinit). rewrite scan_pixel_opaque.
  destruct (opaque_at cv x y) eqn:Eo.
  - split; [|split]; cbn [minX minY maxX maxY hasContent].
    + intros x' y' Hin Ho. apply in_app_or in Hin. destruct Hin as [Hin|[[= <- <-]|[]]].
      * destruct (Hall _ _ Hin Ho) as (_ & ? & ?). split; [reflexivity|lia].
      * split; [reflexivity|lia].
    + intros _. destruct (hasContent b) eqn:Eh.
      * destruct (Hwit eq_refl)
          as ((xa & ya & Ia & Oa & Ea) & (xb & yb & Ib & Ob & Eb)
              & (xc & yc & Ic & Oc & Ec) & (xd & yd & Id & Od & Ed)).
        split; [|split; [|split]].
        -- destruct (Z.min_spec (minX b) (Z.of_nat x)) as [[? ->]|[? ->]];
             [seen_before xa ya|seen_now x y].
        -- destruct (Z.max_spec (maxX b) (Z.of_nat x)) as [[? ->]|[? ->]];
             [seen_now x y|seen_before xb yb].
        -- destruct (Z.min_spec (minY b) (Z.of_nat y)) as [[? ->]|[? ->]];
             [seen_before xc yc|seen_now x y].
        -- destruct (Z.max_spec (maxY b) (Z.of_nat y)) as [[? ->]|[? ->]];
             [seen_now x y|seen_before xd yd].
      * destruct (Hinit eq_refl) as (-> & -> & -> & ->).
        split; [|split; [|split]]; seen_now x y.
    + discriminate.
  - split; [|split].
    + intros x' y' Hin Ho. apply in_app_or in Hin. destruct Hin as [Hin|[[= <- <-]|[]]].
      * now apply Hall.
      * congruence.
    + intros Hh. destruct (Hwit Hh)
        as ((xa & ya & Ia & Oa & Ea) & (xb & yb & Ib & Ob & Eb)
            & (xc & yc & Ic & Oc & Ec) & (xd & yd & Id & Od & Ed)).
      split; [|split; [|split]];
        [seen_before xa ya|seen_before xb yb|seen_before xc yc|seen_before xd yd].
    + exact Hinit.
Qed.

Lemma scanned_fold (cv : canvas) (rest : list (nat * nat)) :
  (forall x y, In (x, y) rest -> x < cv.(width) /\ y < cv.(height)) ->
  forall seen b, scanned cv seen b ->
  scanned cv (seen ++ rest)
    (fold_left (fun b p => scan_pixel cv (snd p) (fst p) b) rest b).
Proof.
  induction rest as [|[x y] r IH]; intros Hin seen b Hb; cbn [fold_left fst snd].
  - now rewrite app_nil_r.
  - replace (seen ++ (x, y) :: r)%list with ((seen ++ [(x, y)]) ++ r)%list
      by now rewrite <- app_assoc.
    apply IH; [intros; apply Hin; now right|].
    destruct (Hin x y (or_introl eq_refl)). now apply scanned_step.
Qed.

Lemma scan_scanned (cv : canvas) : scanned cv (visit_order cv) (scan cv).
Proof.
  unfold scan. rewrite scan_as_fold.
  apply (scanned_fold cv (visit_order cv)) with (seen := []).
  - intros x y. apply visit_order_in.
  - repeat split; cbn; try discriminate; intros; contradiction.
Qed.

(** C9.  When the raster has a pixel of non-zero alpha, the collider is
    the tight bounding box of those pixels widened by 2 on every side,
    at least 16 wide and 24 high, and its offsets are half of what the
    sprite has left over, rounded down and never negative; on a 64 by 64
    sprite with the one opaque pixel (10,10) that is 16 by 24 at offset
    [(64 - 16) / 2] and [(64 - 24) / 2]. *)
Theorem calculateColliderBounds_tight_box :
  (forall cv : canvas,
     (exists x y, opaque cv x y) ->
     exists x0 y0 x1 y1 c,
       bounding_box cv x0 y0 x1 y1 /\
       calculateColliderBounds cv = Some c /\
       c.(w) = Z.max 16 (Z.of_nat x1 - Z.of_nat x0 + 1 + 2 + 2) /\
       c.(h) = Z.max 24 (Z.of_nat y1 - Z.of_nat y0 + 1 + 2 + 2) /\
       (16 <= c.(w))%Z /\ (24 <= c.(h))%Z /\
       c.(offsetX) = Z.max 0 ((Z.of_nat cv.(width) - c.(w)) / 2) /\
       c.(offsetY) = Z.max 0 ((Z.of_nat cv.(height) - c.(h)) / 2)) /\
  calculateColliderBounds (single_pixel 64 64 10 10)
  = Some {| w := 16; h := 24; offsetX := (64 - 16) / 2; offsetY := (64 - 24) / 2 |}.
Proof.
  split; [|vm_compute; reflexivity].
  intros cv (px & py & Hpx & Hpy & Hpo).
  destruct (scan_scanned cv) as (Hall & Hwit & _).
  assert (Hin : In (px, py) (visit_order cv)) by (apply visit_order_in; lia).
  destruct (Hall _ _ Hin Hpo) as (Hc & _).
  destruct (Hwit Hc)
    as ((xa & ya & Ia & Oa & Ea) & (xb & yb & Ib & Ob & Eb)
        & (xc & yc & Ic & Oc & Ec) & (xd & yd & Id & Od & Ed)).
  apply visit_order_in in Ia, Ib, Ic, Id.
  exists xa, yc, xb, yd. eexists. split; [|split].
  - split; [|repeat split; eauto; try lia].
    + intros x y (Hx & Hy & Ho).
      assert (Hv : In (x, y) (visit_order cv)) by (apply visit_order_in; lia).
      destruct (Hall _ _ Hv Ho) as (_ & ? & ?). lia.
    + exists ya. repeat split; try assumption; lia.
    + exists yb. repeat split; try assumption; lia.
    + exists xc. repeat split; try assumption; lia.
    + exists xd. repeat split; try assumption; lia.
  - unfold calculateColliderBounds.
    destruct (Nat.eqb_spec (width cv) 0); [lia|].
    destruct (Nat.eqb_spec (height cv) 0); [lia|].
    cbn [orb]. rewrite Hc. cbn [negb]. reflexivity.
  - cbn [w h offsetX offsetY]. rewrite Ea, Eb, Ec, Ed.
    repeat split; lia.
Qed.


(** ** More of [toScene] *)

Lemma mapM_from_all {A B} (f : nat -> A -> option B) (ok : A -> Prop) l :
  (forall i x, f i x <> None -> ok x) ->
  forall i out, mapM_from f i l = Some out -> Forall ok l.
Proof.
  intros Hf. induction l as [|x r IH]; intros i out H; [constructor|].
  cbn [mapM_from] in H. destruct (f i x) eqn:Fx; [|discriminate].
  destruct (mapM_from f (S i) r) eqn:E; [|discriminate].
  constructor; [apply (Hf i); congruence|eauto].
Qed.

Lemma mapM_all {A B} (f : A -> option B) (ok : A -> Prop) l :
  (forall x, f x <> None -> ok x) ->
  forall out, mapM f l = Some out -> Forall ok l.
Proof.
  intros Hf. induction l as [|x r IH]; intros out H; [constructor|].
  cbn [mapM] in H. destruct (f x) eqn:Fx; [|discriminate].
  destruct (mapM f r) eqn:E; [|discriminate].
  constructor; [apply Hf; congruence|eauto].
Qed.

Lemma mapM_nth {A B} (f : A -> option B) l : forall out j x,
  mapM f l = Some out -> nth_error l j = Some x ->
  exists y, nth_error out j = Some y /\ f x = Some y.
Proof.
  induction l as [|a r IH]; cbn [mapM]; intros out j x H Hj.
  - destruct j; discriminate.
  - destruct (f a) eqn:Fa; [|discriminate].
    destruct (mapM f r) eqn:E; [|discriminate].
    inversion H; subst. destruct j as [|j]; cbn [nth_error] in *.
    + inversion Hj; subst. now exists b.
    + exact (IH _ _ _ eq_refl Hj).
Qed.

Lemma toScene_character_present (W H : value) (i : nat) (c : value) :
  toScene_character W H i c <> None -> present c.
Proof.
  unfold toScene_character, get, present. now destruct (nullish c).
Qed.

Lemma toScene_platform_present (p : value) : toScene_platform p <> None -> present p.
Proof. unfold toScene_platform, get, present. now destruct (nullish p). Qed.

Lemma as_array_inv (v : value) (l : list value) : as_array v = Some l -> v = VArr l.
Proof. destruct v; cbn; congruence. Qed.

(** X1.  [toScene] returns a Scene exactly on the readable inputs; on
    every other input it throws. *)
Theorem toScene_returns_iff (arg : value) :
  (exists scene, toScene arg = Some scene) <-> toScene_readable arg.
Proof.
  unfold toScene_readable, present. split.
  - intros (scene & E). revert E. unfold toScene, get.
    destruct (nullish arg); [discriminate|].
    set (world := match prop arg "world" with VUndef => VObj [] | w => w end).
    destruct (nullish world) eqn:Ew; [discriminate|].
    destruct (as_array (js_or (prop arg "characters") (VArr []))) as [cs|] eqn:Ecs;
      [|discriminate].
    match goal with
    | |- context [mapM_from ?f 0 ?l] => destruct (mapM_from f 0 l) as [chars|] eqn:Ec
    end; [|discriminate].
    destruct (as_array (js_or (prop arg "platforms") (VArr []))) as [ps|] eqn:Eps;
      [|discriminate].
    destruct (mapM toScene_platform ps) as [plats|] eqn:Ep; [|discriminate].
    intros _. split; [reflexivity|]. split; [|split].
    + subst world. intros Hn. rewrite Hn in Ew. discriminate.
    + exists cs. split; [now apply as_array_inv|].
      eapply mapM_from_all; [|exact Ec]. intros i x. apply toScene_character_present.
    + exists ps. split; [now apply as_array_inv|].
      eapply mapM_all; [|exact Ep]. exact toScene_platform_present.
  - intros (Ha & Hw & (cs & Ecs & Hcs) & (ps & Eps & Hps)).
    unfold toScene, get. rewrite Ha, Ecs, Eps.
    set (world := match prop arg "world" with VUndef => VObj [] | w => w end).
    assert (Ew : nullish world = false)
      by (subst world; destruct (prop arg "world"); try reflexivity; congruence).
    rewrite Ew. cbn [as_array].
    match goal with
    | |- context [mapM_from ?f 0 ?l] =>
        destruct (mapM_from_total f present l
                    (fun i x => toScene_character_total _ _ i x) Hcs 0) as (chars & ->)
    end.
    destruct (mapM_total toScene_platform present ps) as (plats & ->); [|assumption|].
    { intros x Hx. unfold toScene_platform, get. rewrite Hx. now eexists. }
    now eexists.
Qed.

Lemma Qltb_ge (x y : Q) : Qltb x y = false <-> (y <= x)%Q.
Proof.
  split.
  - intros H. apply Qnot_lt_le. intros L. apply Qltb_lt in L. congruence.
  - intros H. destruct (Qltb x y) eqn:E; [|reflexivity].
    apply Qltb_lt in E. exfalso. exact (Qlt_not_le _ _ E H).
Qed.

(** Between numeric bounds, [clamp] gives NaN or a number in the range,
    whatever it is given. *)
Lemma clamp_within (v : value) (lo hi : Q) :
  (lo <= hi)%Q -> within lo hi (clamp v (VNum (Fin lo)) (VNum (Fin hi))).
Proof.
  intros Hr. unfold clamp, Math_max, Math_min, within. cbn [ToNumber].
  destruct (ToNumber v) as [| |q|]; unfold num_min, num_max; cbn [num_is_nan orb num_ltb].
  - now left.
  - right. exists lo. split; [reflexivity|]. split; [apply Qle_refl|assumption].
  - right. destruct (Qltb hi q) eqn:E1; cbn [num_is_nan orb num_ltb].
    + destruct (Qltb hi lo) eqn:E2.
      * apply Qltb_lt in E2. exfalso. exact (Qlt_not_le _ _ E2 Hr).
      * exists hi. split; [reflexivity|]. split; [assumption|apply Qle_refl].
    + destruct (Qltb q lo) eqn:E2.
      * exists lo. split; [reflexivity|]. split; [apply Qle_refl|assumption].
      * exists q. split; [reflexivity|]. split; now apply Qltb_ge.
  - right. destruct (Qltb hi lo) eqn:E2.
    + apply Qltb_lt in E2. exfalso. exact (Qlt_not_le _ _ E2 Hr).
    + exists hi. split; [reflexivity|]. split; [assumption|apply Qle_refl].
Qed.

Lemma clamp_range_within (v : value) (r : range) :
  (r.(min) <= r.(max))%Z -> within_range r (clamp_range v r).
Proof.
  intros Hr. apply clamp_within. now rewrite <- Zle_Qle.
Qed.

(** The rest of what [toScene] writes into a character. *)
Lemma toScene_character_more_fields (W H : value) (i : nat) (c o : value) :
  toScene_character W H i c = Some o ->
  let abilities := prop c "abilities" in
  let shoot := prop abilities "shoot" in
  prop (prop o "spawn") "x"
    = VNum (clamp (js_coalesce (prop (prop c "spawn") "x") (num_lit 100)) (num_lit 0) W) /\
  prop (prop o "spawn") "y"
    = VNum (clamp (js_coalesce (prop (prop c "spawn") "y") (VNum (js_sub H (num_lit 200))))
              (num_lit 0) H) /\
  (truthy shoot = true ->
   prop (prop (prop o "abilities") "shoot") "projectileSpeed"
     = VNum (clamp_range (prop shoot "projectileSpeed") CONSTRAINTS.projectileSpeed) /\
   prop (prop (prop o "abilities") "shoot") "cooldownMs"
     = VNum (clamp_range (prop shoot "cooldownMs") CONSTRAINTS.cooldownMs)) /\
  (truthy shoot = false -> prop (prop o "abilities") "shoot" = VUndef) /\
  (forall k, In k ["jump"; "slide"; "punch"] ->
     prop (prop o "abilities") k
     = if String.eqb (typeof (prop abilities k)) "boolean" then prop abilities k else VUndef) /\
  (forall k, ~ In k ["jump"; "slide"; "punch"; "moveSpeed"; "jumpVelocity"; "shoot"] ->
     prop (prop o "abilities") k = VUndef) /\
  (truthy (prop c "collider") = false -> prop o "collider" = VUndef) /\
  (truthy (prop c "collider") = true ->
   prop (prop o "collider") "offsetX" = js_or (prop (prop c "collider") "offsetX") (num_lit 0) /\
   prop (prop o "collider") "offsetY" = js_or (prop (prop c "collider") "offsetY") (num_lit 0)).
Proof.
  unfold toScene_character, get.
  destruct (nullish c); [discriminate|]. intros E; inversion E; subst o; clear E.
  cbv zeta. read_fields.
  split; [reflexivity|]. split; [reflexivity|].
  split; [|split; [|split; [|split; [|split]]]].
  - intros Hs. rewrite !flag_lookup by discriminate. read_fields. rewrite Hs.
    read_fields. split; reflexivity.
  - intros Hs. rewrite !flag_lookup by discriminate. read_fields. now rewrite Hs.
  - intros k Hk.
    assert (Hb : forall v, typeof v = "boolean" -> VBool (truthy v) = v)
      by (intros [] Hv; try discriminate; reflexivity).
    destruct Hk as [<-|[<-|[<-|[]]]];
      repeat match goal with
             | |- context [if String.eqb (typeof ?v) "boolean" then _ else _] =>
                 let E := fresh "E" in
                 destruct (String.eqb_spec (typeof v) "boolean") as [E|E];
                 [try rewrite (Hb _ E)|]
             end;
      destruct (truthy (prop (prop c "abilities") "shoot")); reflexivity.
  - intros k Hk.
    assert (Hne : forall s, In s ["jump"; "slide"; "punch"; "moveSpeed"; "jumpVelocity"; "shoot"]
                            -> String.eqb k s = false).
    { intros s Hs. destruct (String.eqb_spec k s); [subst; contradiction|reflexivity]. }
    repeat match goal with
           | |- context [if String.eqb (typeof ?v) "boolean" then _ else _] =>
               destruct (String.eqb (typeof v) "boolean")
           end;
      destruct (truthy (prop (prop c "abilities") "shoot"));
      cbn [app lookup]; rewrite ?Hne by (cbn; tauto); reflexivity.
  - now intros ->.
  - intros ->. read_fields. split; reflexivity.
Qed.

(** X2.  Whatever a retained character and the world give, the numbers
    [toScene] writes as [moveSpeed], [jumpVelocity], collider [w] and
    [h], [shoot.projectileSpeed], [shoot.cooldownMs] and [gravity] are
    NaN or lie within [50,800], [100,1500], [8,256], [100,2000],
    [80,2000] and [100,3000]: no finite value outside its range is ever
    written. *)
Theorem toScene_numbers_within_range
        (cs ps : list value) (bg world controls : value) (i : nat) (c : value) :
  world <> VNull ->
  Forall present (firstn CONSTRAINTS.maxCharacters cs) ->
  Forall present ps ->
  i < CONSTRAINTS.maxCharacters ->
  nth_error cs i = Some c ->
  exists scene chars o,
    toScene (toScene_input (VArr cs) (VArr ps) bg world controls) = Some scene /\
    prop scene "characters" = VArr chars /\
    nth_error chars i = Some o /\
    (exists n, prop (prop o "abilities") "moveSpeed" = VNum n /\
               within_range CONSTRAINTS.moveSpeed n) /\
    (exists n, prop (prop o "abilities") "jumpVelocity" = VNum n /\
               within_range CONSTRAINTS.jumpVelocity n) /\
    (truthy (prop c "collider") = true ->
     exists nw nh,
       prop (prop o "collider") "w" = VNum nw /\ within_range collider_size nw /\
       prop (prop o "collider") "h" = VNum nh /\ within_range collider_size nh) /\
    (truthy (prop (prop c "abilities") "shoot") = true ->
     exists np nc,
       prop (prop (prop o "abilities") "shoot") "projectileSpeed" = VNum np /\
       within_range CONSTRAINTS.projectileSpeed np /\
       prop (prop (prop o "abilities") "shoot") "cooldownMs" = VNum nc /\
       within_range CONSTRAINTS.cooldownMs nc) /\
    (exists g, prop (prop scene "world") "gravity" = VNum g /\
               within_range CONSTRAINTS.gravity g).
Proof.
  intros Hw Hcs Hps Hi Hc.
  destruct (toScene_character_at cs ps bg world controls i c Hw Hcs Hps Hi Hc)
    as (scene & chars & o & E & Ew & Echars & _ & Ho & Fo).
  destruct (toScene_character_fields _ _ _ _ _ Fo) as (_ & _ & _ & Hms & Hjv & Hcol).
  destruct (toScene_character_more_fields _ _ _ _ _ Fo) as (_ & _ & Hshoot & _).
  exists scene, chars, o.
  split; [exact E|]. split; [exact Echars|]. split; [exact Ho|].
  split; [|split; [|split; [|split]]].
  - eexists. split; [exact Hms|]. apply clamp_range_within. cbn. lia.
  - eexists. split; [exact Hjv|]. apply clamp_range_within. cbn. lia.
  - intros Ht. destruct (Hcol Ht) as (Hcw & Hch). eexists. eexists.
    split; [exact Hcw|]. split; [apply clamp_range_within; cbn; lia|].
    split; [exact Hch|]. apply clamp_range_within. cbn. lia.
  - intros Ht. destruct (Hshoot Ht) as (Hp & Hcd). eexists. eexists.
    split; [exact Hp|]. split; [apply clamp_range_within; cbn; lia|].
    split; [exact Hcd|]. apply clamp_range_within. cbn. lia.
  - rewrite Ew. unfold scene_world. read_fields.
    eexists. split; [reflexivity|]. apply clamp_range_within. cbn. lia.
Qed.

(** Integers are read as numbers by [inject_Z]; on them the order and
    the difference of the model are those of [Z]. *)
Lemma inject_Z_sub (a b : Z) : (inject_Z a - inject_Z b)%Q = inject_Z (a - b).
Proof.
  unfold Qminus, Qplus, Qopp, inject_Z. cbn [Qnum Qden Pos.mul].
  f_equal. lia.
Qed.

Lemma Qltb_inject_Z (a b : Z) : Qltb (inject_Z a) (inject_Z b) = (a <? b)%Z.
Proof.
  unfold Qltb, Z.ltb, Qcompare, inject_Z. cbn [Qnum Qden].
  rewrite !Z.mul_1_r. reflexivity.
Qed.

(** X3.  In a world whose width and height are finite and not negative,
    the spawn [toScene] writes for a retained character is NaN or lies
    inside the world, in both coordinates, whatever spawn the character
    gives; a character that gives no [x] spawns at 100 when the world is
    at least 100 wide, one that gives no [y] spawns at height minus 200
    when the height is a whole number from 200 to 2^53, the heights at
    which the program's [world.height - 200] is the exact difference. *)
Theorem toScene_spawn_inside_world
        (cs ps : list value) (bg world controls : value) (i : nat) (c : value)
        (ww hh : Q) :
  world <> VNull ->
  Forall present (firstn CONSTRAINTS.maxCharacters cs) ->
  Forall present ps ->
  i < CONSTRAINTS.maxCharacters ->
  nth_error cs i = Some c ->
  prop (scene_world world) "width" = VNum (Fin ww) -> (0 <= ww)%Q ->
  prop (scene_world world) "height" = VNum (Fin hh) -> (0 <= hh)%Q ->
  exists scene chars o x y,
    toScene (toScene_input (VArr cs) (VArr ps) bg world controls) = Some scene /\
    prop scene "characters" = VArr chars /\
    nth_error chars i = Some o /\
    prop (prop o "spawn") "x" = VNum x /\ within 0 ww x /\
    prop (prop o "spawn") "y" = VNum y /\ within 0 hh y /\
    (nullish (prop (prop c "spawn") "x") = true -> (100 <= ww)%Q -> x = Fin 100) /\
    (nullish (prop (prop c "spawn") "y") = true ->
     forall zh : Z, hh = inject_Z zh -> (200 <= zh <= 2 ^ 53)%Z ->
     y = Fin (inject_Z (zh - 200))).
Proof.
  intros Hw Hcs Hps Hi Hc HW Hww HH Hhh.
  destruct (toScene_character_at cs ps bg world controls i c Hw Hcs Hps Hi Hc)
    as (scene & chars & o & E & Ew & Echars & _ & Ho & Fo).
  rewrite HW, HH in Fo.
  destruct (toScene_character_more_fields _ _ _ _ _ Fo) as (Hx & Hy & _).
  exists scene, chars, o. eexists. eexists.
  split; [exact E|]. split; [exact Echars|]. split; [exact Ho|].
  split; [exact Hx|]. split; [apply (clamp_within _ 0 ww Hww)|].
  split; [exact Hy|]. split; [apply (clamp_within _ 0 hh Hhh)|].
  split.
  - intros Hn Hbig. unfold js_coalesce. rewrite Hn.
    unfold clamp, Math_max, Math_min, num_lit. cbn [ToNumber].
    unfold num_min, num_max. cbn [num_is_nan orb num_ltb].
    assert (E1 : Qltb ww (inject_Z 100) = false) by now apply Qltb_ge.
    rewrite E1. cbn [num_is_nan orb num_ltb]. reflexivity.
  - intros Hn zh Ez Hbig. unfold js_coalesce. rewrite Hn, Ez.
    unfold clamp, Math_max, Math_min, js_sub, num_lit. cbn [ToNumber num_sub].
    rewrite inject_Z_sub.
    unfold num_min, num_max. cbn [num_is_nan orb num_ltb].
    assert (E1 : Qltb (inject_Z zh) (inject_Z (zh - 200)) = false).
    { rewrite Qltb_inject_Z. apply Z.ltb_ge. lia. }
    rewrite E1. cbn [num_is_nan orb num_ltb].
    assert (E2 : Qltb (inject_Z (zh - 200)) (inject_Z 0) = false).
    { rewrite Qltb_inject_Z. apply Z.ltb_ge. lia. }
    rewrite E2. reflexivity.
Qed.

(** X4.  [toScene] returns as many platforms as it is given, in the same
    order, each reduced to its [x], [y], [w] and [h] with the values it
    had: nothing is clamped and every other field is dropped. *)
Theorem toScene_platforms_pass_through
        (cs ps : list value) (bg world controls : value) :
  world <> VNull ->
  Forall present (firstn CONSTRAINTS.maxCharacters cs) ->
  Forall present ps ->
  exists scene plats,
    toScene (toScene_input (VArr cs) (VArr ps) bg world controls) = Some scene /\
    prop scene "platforms" = VArr plats /\
    List.length plats = List.length ps /\
    forall i p, nth_error ps i = Some p ->
      exists o, nth_error plats i = Some o /\
                Object_keys o = ["x"; "y"; "w"; "h"] /\
                prop o "x" = prop p "x" /\ prop o "y" = prop p "y" /\
                prop o "w" = prop p "w" /\ prop o "h" = prop p "h".
Proof.
  intros Hw Hcs Hps.
  destruct (toScene_returns cs ps bg world controls Hw Hcs Hps)
    as (chars & plats & _ & Ep & E).
  eexists. exists plats. split; [exact E|]. read_fields. split; [reflexivity|].
  split; [exact (mapM_length _ _ _ Ep)|].
  intros i p Hp. destruct (mapM_nth _ _ _ _ _ Ep Hp) as (o & Ho & Fo).
  exists o. split; [exact Ho|].
  unfold toScene_platform, get in Fo. destruct (nullish p); [discriminate|].
  inversion Fo; subst o. repeat split; reflexivity.
Qed.

(** X5.  [toScene] returns as many characters as it is given, up to
    three, and makes up none: with no character list, or an empty one,
    the Scene has no character. *)
Theorem toScene_character_count :
  (forall (cs ps : list value) (bg world controls : value),
     world <> VNull ->
     Forall present (firstn CONSTRAINTS.maxCharacters cs) ->
     Forall present ps ->
     exists scene chars,
       toScene (toScene_input (VArr cs) (VArr ps) bg world controls) = Some scene /\
       prop scene "characters" = VArr chars /\
       List.length chars = Nat.min 3 (List.length cs)) /\
  (forall (characters : value) (ps : list value) (bg world controls : value),
     world <> VNull ->
     truthy characters = false ->
     Forall present ps ->
     exists scene,
       toScene (toScene_input characters (VArr ps) bg world controls) = Some scene /\
       prop scene "characters" = VArr []).
Proof.
  split.
  - intros cs ps bg world controls Hw Hcs Hps.
    destruct (toScene_returns cs ps bg world controls Hw Hcs Hps)
      as (chars & plats & Ec & _ & E).
    eexists. exists chars. split; [exact E|]. read_fields. split; [reflexivity|].
    apply mapM_from_length in Ec. rewrite Ec. apply length_firstn.
  - intros characters ps bg world controls Hw Hc Hps.
    destruct (mapM_total toScene_platform present ps) as (plats & Ep); [|assumption|].
    { intros x Hx. unfold toScene_platform, get. rewrite Hx. now eexists. }
    unfold toScene, toScene_input, get. cbn [nullish]. read_fields.
    unfold js_or at 1. rewrite Hc. cbn [as_array firstn mapM_from js_or truthy].
    destruct world; try congruence; cbn [nullish]; rewrite Ep;
      (eexists; split; [reflexivity|]; reflexivity).
Qed.

(** X6.  When a retained character's abilities carry a [shoot] block,
    its [projectileSpeed] and [cooldownMs], given as numbers, are
    written saturated into [100,2000] and [80,2000]; when they carry
    none, or a falsy one, the character [toScene] returns has no
    [shoot]. *)
Theorem toScene_shoot
        (cs ps : list value) (bg world controls : value) (i : nat) (c : value) :
  world <> VNull ->
  Forall present (firstn CONSTRAINTS.maxCharacters cs) ->
  Forall present ps ->
  i < CONSTRAINTS.maxCharacters ->
  nth_error cs i = Some c ->
  exists scene chars o,
    toScene (toScene_input (VArr cs) (VArr ps) bg world controls) = Some scene /\
    prop scene "characters" = VArr chars /\
    nth_error chars i = Some o /\
    (truthy (prop (prop c "abilities") "shoot") = false ->
     prop (prop o "abilities") "shoot" = VUndef) /\
    (truthy (prop (prop c "abilities") "shoot") = true ->
     (forall n, prop (prop (prop c "abilities") "shoot") "projectileSpeed" = VNum n ->
        exists r, prop (prop (prop o "abilities") "shoot") "projectileSpeed" = VNum r /\
                  saturated CONSTRAINTS.projectileSpeed n r) /\
     (forall n, prop (prop (prop c "abilities") "shoot") "cooldownMs" = VNum n ->
        exists r, prop (prop (prop o "abilities") "shoot") "cooldownMs" = VNum r /\
                  saturated CONSTRAINTS.cooldownMs n r)).
Proof.
  intros Hw Hcs Hps Hi Hc.
  destruct (toScene_character_at cs ps bg world controls i c Hw Hcs Hps Hi Hc)
    as (scene & chars & o & E & _ & Echars & _ & Ho & Fo).
  destruct (toScene_character_more_fields _ _ _ _ _ Fo) as (_ & _ & Hshoot & Hnone & _).
  exists scene, chars, o.
  split; [exact E|]. split; [exact Echars|]. split; [exact Ho|].
  split; [exact Hnone|].
  intros Ht. destruct (Hshoot Ht) as (Hp & Hcd). split.
  - intros n Hn. rewrite Hp, Hn. eexists. split; [reflexivity|].
    apply clamp_range_saturated. cbn. lia.
  - intros n Hn. rewrite Hcd, Hn. eexists. split; [reflexivity|].
    apply clamp_range_saturated. cbn. lia.
Qed.

(** X7.  Of a retained character's abilities [toScene] keeps [jump],
    [slide] and [punch] exactly when they are booleans, with their
    values, and apart from [moveSpeed], [jumpVelocity] and [shoot] it
    keeps nothing else: every other ability is dropped. *)
Theorem toScene_abilities_kept
        (cs ps : list value) (bg world controls : value) (i : nat) (c : value) :
  world <> VNull ->
  Forall present (firstn CONSTRAINTS.maxCharacters cs) ->
  Forall present ps ->
  i < CONSTRAINTS.maxCharacters ->
  nth_error cs i = Some c ->
  exists scene chars o,
    toScene (toScene_input (VArr cs) (VArr ps) bg world controls) = Some scene /\
    prop scene "characters" = VArr chars /\
    nth_error chars i = Some o /\
    (forall k b, In k ["jump"; "slide"; "punch"] ->
       prop (prop c "abilities") k = VBool b ->
       prop (prop o "abilities") k = VBool b) /\
    (forall k, In k ["jump"; "slide"; "punch"] ->
       typeof (prop (prop c "abilities") k) <> "boolean" ->
       prop (prop o "abilities") k = VUndef) /\
    (forall k, ~ In k ["jump"; "slide"; "punch"; "moveSpeed"; "jumpVelocity"; "shoot"] ->
       prop (prop o "abilities") k = VUndef).
Proof.
  intros Hw Hcs Hps Hi Hc.
  destruct (toScene_character_at cs ps bg world controls i c Hw Hcs Hps Hi Hc)
    as (scene & chars & o & E & _ & Echars & _ & Ho & Fo).
  destruct (toScene_character_more_fields _ _ _ _ _ Fo)
    as (_ & _ & _ & _ & Hflag & Hother & _).
  exists scene, chars, o.
  split; [exact E|]. split; [exact Echars|]. split; [exact Ho|].
  split; [|split; [|exact Hother]].
  - intros k b Hk Hb. rewrite (Hflag k Hk), Hb. reflexivity.
  - intros k Hk Hb. rewrite (Hflag k Hk).
    destruct (String.eqb_spec (typeof (prop (prop c "abilities") k)) "boolean");
      [contradiction|reflexivity].
Qed.

(** ** More of [validateAssets] and [dataUriBytes] *)

Lemma exceeds_sprite (sz : Z) : exceeds sz CONSTRAINTS.spriteMaxMB = (spriteMaxBytes <? sz)%Z.
Proof.
  unfold exceeds, CONSTRAINTS.spriteMaxMB, spriteMaxBytes.
  assert (Hq : ((10 # 10) * 1024 * 1024 == inject_Z 1048576)%Q) by reflexivity.
  destruct (1048576 <? sz)%Z eqn:E.
  - apply Qltb_lt. apply Z.ltb_lt in E.
    assert (inject_Z 1048576 < inject_Z sz)%Q by now rewrite <- Zlt_Qlt.
    lra.
  - apply Qltb_ge. apply Z.ltb_ge in E.
    assert (inject_Z sz <= inject_Z 1048576)%Q by now rewrite <- Zle_Qle.
    lra.
Qed.

Lemma validateAssets_character_not_inline (i : nat) (c : value) :
  not_inline c -> validateAssets_character i c = Some [].
Proof.
  intros (Hc & Hu). unfold validateAssets_character, get. rewrite Hc, Hu. reflexivity.
Qed.

Lemma mapM_from_app {A B} (f : nat -> A -> option B) (l1 l2 : list A) :
  forall i o1 o2,
    mapM_from f i l1 = Some o1 ->
    mapM_from f (i + List.length l1) l2 = Some o2 ->
    mapM_from f i (l1 ++ l2) = Some (o1 ++ o2)%list.
Proof.
  induction l1 as [|x r IH]; intros i o1 o2 H1 H2; cbn [mapM_from app List.length] in *.
  - inversion H1; subst. now rewrite Nat.add_0_r in H2.
  - destruct (f i x); [|discriminate].
    destruct (mapM_from f (S i) r) eqn:E; [|discriminate].
    inversion H1; subst.
    rewrite (IH (S i) l o2 E); [reflexivity|].
    now replace (S i + List.length r) with (i + S (List.length r)) by lia.
Qed.

Lemma validateAssets_characters_not_inline (cs : list value) :
  Forall not_inline cs -> forall i,
  mapM_from validateAssets_character i cs = Some (map (fun _ => []) cs).
Proof.
  induction 1 as [|c r Hc _ IH]; intros i; cbn [mapM_from map]; [reflexivity|].
  now rewrite (validateAssets_character_not_inline i c Hc), IH.
Qed.

Lemma concat_nils {A B} (l : list A) : List.concat (map (fun _ => @nil B) l) = [].
Proof. induction l; cbn; auto. Qed.

(** X8.  Among characters whose images are not inline data, one
    character with an inline image is reported exactly when the estimate
    of its payload, three quarters of its length rounded down, is above
    1024 * 1024 bytes; the message names its position counted from one,
    the size in MB with two decimals, and the limit as [1 MB]. *)
Theorem validateAssets_sprite_limit
        (before after : list value) (c : value) (meta payload : string) :
  Forall not_inline before -> Forall not_inline after ->
  List.length before + 1 + List.length after <= CONSTRAINTS.maxCharacters ->
  prop c "imageUrl" = VStr ("data:" ++ meta ++ "," ++ payload) ->
  occurs "," meta = false -> occurs "," payload = false ->
  let size := (Z.of_nat (String.length payload) * 3 / 4)%Z in
  validateAssets (validateAssets_input VUndef (VArr (before ++ [c] ++ after)))
  = Some (if (spriteMaxBytes <? size)%Z
          then ["Character #" ++ nat_to_string (List.length before + 1) ++ " "
                  ++ MB size ++ " MB exceeds limit 1 MB"]
          else []).
Proof.
  intros Hb Ha Hlen Hurl Hm Hp size.
  assert (Hc : present c).
  { unfold present. destruct c; try reflexivity; discriminate. }
  assert (Ec : validateAssets_character (List.length before) c
               = Some (if (spriteMaxBytes <? size)%Z
                       then ["Character #" ++ nat_to_string (List.length before + 1) ++ " "
                               ++ MB size ++ " MB exceeds limit 1 MB"]
                       else [])).
  { unfold validateAssets_character, get. rewrite Hc, Hurl.
    cbn [is_data_uri]. rewrite startsWith_data.
    rewrite (dataUriBytes_inline meta payload Hm Hp), exceeds_sprite.
    change (NumberToString (Fin CONSTRAINTS.spriteMaxMB)) with "1".
    fold size. destruct (spriteMaxBytes <? size)%Z; reflexivity. }
  unfold validateAssets, validateAssets_input, validateAssets_background, get.
  cbn [nullish]. read_fields. cbn [is_data_uri js_or truthy as_array].
  erewrite mapM_from_app;
    [| apply validateAssets_characters_not_inline; exact Hb
     | cbn [app mapM_from]; rewrite Nat.add_0_l, Ec,
         (validateAssets_characters_not_inline after Ha); reflexivity ].
  rewrite concat_app, concat_nils. cbn [List.concat app].
  rewrite concat_nils, app_nil_r.
  rewrite !length_app. cbn [List.length].
  assert (Hle : Nat.ltb CONSTRAINTS.maxCharacters
                  (List.length before + S (List.length after)) = false)
    by (apply Nat.ltb_ge; lia).
  rewrite Hle. now rewrite app_nil_r.
Qed.

Lemma validateAssets_background_result (bg : value) :
  validateAssets_background bg <> None <-> inspectable (prop bg "imageUrl").
Proof.
  unfold validateAssets_background, inspectable.
  destruct (is_data_uri (prop bg "imageUrl")) as [[|]|]; split.
  - intros _. now exists true.
  - intros _. destruct (exceeds _ _); discriminate.
  - intros _. now exists false.
  - discriminate.
  - congruence.
  - intros (x & Hx). discriminate.
Qed.

Lemma validateAssets_background_oversize (bg : value) :
  inspectable (prop bg "imageUrl") ->
  exists m, validateAssets_background bg
            = Some (if oversize bgMaxBytes (prop bg "imageUrl") then [m] else []).
Proof.
  intros (inline & Hi). unfold validateAssets_background, oversize. rewrite Hi.
  destruct inline; [|now exists ""].
  rewrite exceeds_bg. eexists. destruct (bgMaxBytes <? _)%Z; reflexivity.
Qed.

Lemma validateAssets_character_result (i : nat) (c : value) :
  validateAssets_character i c <> None <-> inspectable_character c.
Proof.
  unfold validateAssets_character, inspectable_character, inspectable, present, get.
  destruct (nullish c); [split; [congruence|intros (? & _); discriminate]|].
  destruct (is_data_uri (prop c "imageUrl")) as [[|]|]; split.
  - intros _. split; [reflexivity|now exists true].
  - intros _. destruct (exceeds _ _); discriminate.
  - intros _. split; [reflexivity|now exists false].
  - discriminate.
  - congruence.
  - intros (_ & x & Hx). discriminate.
Qed.

Lemma validateAssets_character_oversize (i : nat) (c : value) :
  inspectable_character c ->
  exists m, validateAssets_character i c
            = Some (if oversize spriteMaxBytes (prop c "imageUrl") then [m] else []).
Proof.
  intros (Hc & inline & Hi). unfold validateAssets_character, oversize, get.
  rewrite Hc, Hi. destruct inline; [|now exists ""].
  rewrite exceeds_sprite. eexists. destruct (spriteMaxBytes <? _)%Z; reflexivity.
Qed.

Lemma validateAssets_characters_oversize (cs : list value) :
  Forall inspectable_character cs -> forall i,
  exists out, mapM_from validateAssets_character i cs = Some out /\
              (List.concat out = [] <->
               Forall (fun c => oversize spriteMaxBytes (prop c "imageUrl") = false) cs).
Proof.
  induction 1 as [|c r Hc _ IH]; intros i; cbn [mapM_from].
  - exists []. split; [reflexivity|]. split; [constructor|reflexivity].
  - destruct (validateAssets_character_oversize i c Hc) as (m & ->).
    destruct (IH (S i)) as (out & -> & Hout). eexists. split; [reflexivity|].
    cbn [List.concat]. destruct (oversize spriteMaxBytes (prop c "imageUrl")) eqn:Eo.
    + split; [discriminate|]. intros Hall. inversion Hall; congruence.
    + cbn [app]. rewrite Hout. split; [now constructor|].
      intros Hall. now inversion Hall.
Qed.

(** X9.  [validateAssets] returns a list exactly when the background's
    image reference is missing or a text and the characters are nothing,
    or a list of readable entries whose image references are missing or
    texts; on any other input (an image reference that is a number, an
    object, ...) it throws. *)
Theorem validateAssets_returns_iff (bg characters : value) :
  (exists errs, validateAssets (validateAssets_input bg characters) = Some errs)
  <-> inspectable (prop bg "imageUrl") /\
      exists cs, js_or characters (VArr []) = VArr cs /\
                 Forall inspectable_character cs.
Proof.
  unfold validateAssets, validateAssets_input, get. cbn [nullish]. read_fields.
  split.
  - intros (errs & E). revert E.
    destruct (validateAssets_background bg) as [eb|] eqn:Eb; [|discriminate].
    destruct (as_array (js_or characters (VArr []))) as [cs|] eqn:Ecs; [|discriminate].
    destruct (mapM_from validateAssets_character 0 cs) as [ec|] eqn:Ec; [|discriminate].
    intros _. split.
    + apply validateAssets_background_result. congruence.
    + exists cs. split; [now apply as_array_inv|].
      eapply mapM_from_all; [|exact Ec].
      intros i x. apply validateAssets_character_result.
  - intros (Hbg & cs & Ecs & Hcs).
    destruct (validateAssets_background_oversize bg Hbg) as (m & ->).
    rewrite Ecs. cbn [as_array].
    destruct (validateAssets_characters_oversize cs Hcs 0) as (out & -> & _).
    now eexists.
Qed.

(** X10.  On a background and characters it can inspect,
    [validateAssets] returns no violation exactly when the background is
    not above 1.5 MB, no character is above 1 MB, and there are at most
    three characters. *)
Theorem validateAssets_valid_iff (bg : value) (cs : list value) :
  inspectable (prop bg "imageUrl") ->
  Forall inspectable_character cs ->
  exists errs,
    validateAssets (validateAssets_input bg (VArr cs)) = Some errs /\
    (errs = [] <->
     oversize bgMaxBytes (prop bg "imageUrl") = false /\
     Forall (fun c => oversize spriteMaxBytes (prop c "imageUrl") = false) cs /\
     List.length cs <= CONSTRAINTS.maxCharacters).
Proof.
  intros Hbg Hcs.
  unfold validateAssets, validateAssets_input, get. cbn [nullish]. read_fields.
  destruct (validateAssets_background_oversize bg Hbg) as (m & ->).
  cbn [js_or truthy as_array].
  destruct (validateAssets_characters_oversize cs Hcs 0) as (out & -> & Hout).
  eexists. split; [reflexivity|].
  destruct (oversize bgMaxBytes (prop bg "imageUrl")).
  - split; [discriminate|]. intros (? & _). discriminate.
  - cbn [app]. destruct (Nat.ltb_spec CONSTRAINTS.maxCharacters (List.length cs)).
    + split.
      * intros E. apply app_eq_nil in E. destruct E as (_ & E). discriminate.
      * intros (_ & _ & ?). lia.
    + rewrite app_nil_r, Hout. split; [intros ?; repeat split; auto|now intros (_ & ? & _)].
Qed.

(** X11.  When [validateAssets] finds nothing to report, [toScene] on
    the same background and characters returns a Scene that keeps every
    one of the characters: validation that passes means nothing is cut. *)
Theorem validateAssets_then_toScene
        (bg world controls : value) (cs ps : list value) :
  validateAssets (validateAssets_input bg (VArr cs)) = Some [] ->
  world <> VNull ->
  Forall present ps ->
  exists scene chars,
    toScene (toScene_input (VArr cs) (VArr ps) bg world controls) = Some scene /\
    prop scene "characters" = VArr chars /\
    List.length chars = List.length cs.
Proof.
  intros Hv Hw Hps.
  assert (Hcs : Forall inspectable_character cs /\
                List.length cs <= CONSTRAINTS.maxCharacters).
  { revert Hv. unfold validateAssets, validateAssets_input, get. cbn [nullish]. read_fields.
    destruct (validateAssets_background bg) as [eb|]; [|discriminate].
    cbn [js_or truthy as_array].
    destruct (mapM_from validateAssets_character 0 cs) as [ec|] eqn:Ec; [|discriminate].
    intros [= E]. split.
    - eapply mapM_from_all; [|exact Ec].
      intros i x. apply validateAssets_character_result.
    - apply app_eq_nil in E. destruct E as (_ & E).
      apply app_eq_nil in E. destruct E as (_ & E).
      destruct (Nat.ltb_spec CONSTRAINTS.maxCharacters (List.length cs));
        [discriminate|assumption]. }
  destruct Hcs as (Hcs & Hlen).
  assert (Hp : Forall present (firstn CONSTRAINTS.maxCharacters cs)).
  { rewrite firstn_all2 by exact Hlen.
    apply Forall_impl with (2 := Hcs). now intros c (Hc & _). }
  destruct (toScene_returns cs ps bg world controls Hw Hp Hps)
    as (chars & plats & Ec & _ & Es).
  eexists. exists chars. split; [exact Es|]. read_fields. split; [reflexivity|].
  apply mapM_from_length in Ec. rewrite Ec. now rewrite firstn_all2.
Qed.

(** X12.  [dataUriBytes] measures nothing but texts: every other value
    counts zero bytes.  On an inline image whose payload is the padded
    base64 text of [n] bytes, four characters for every three bytes
    begun, the estimate is never below [n] and at most two above it. *)
Theorem dataUriBytes_estimate :
  (forall v : value, typeof v <> "string" -> dataUriBytes v = 0%Z) /\
  (forall (n : nat) (meta payload : string),
     occurs "," meta = false -> occurs "," payload = false ->
     String.length payload = 4 * ((n + 2) / 3) ->
     (Z.of_nat n <= dataUriBytes (VStr ("data:" ++ meta ++ "," ++ payload))
      <= Z.of_nat n + 2)%Z).
Proof.
  split.
  - intros v Hv. unfold dataUriBytes.
    destruct (String.eqb_spec (typeof v) "string") as [E|E]; [contradiction|].
    cbn [negb]. now rewrite orb_true_r.
  - intros n meta payload Hm Hp Hlen.
    rewrite (dataUriBytes_inline meta payload Hm Hp), Hlen.
    rewrite Nat2Z.inj_mul, Nat2Z.inj_div, Nat2Z.inj_add.
    change (Z.of_nat 4) with 4%Z. change (Z.of_nat 3) with 3%Z.
    change (Z.of_nat 2) with 2%Z.
    set (m := ((Z.of_nat n + 2) / 3)%Z).
    replace (4 * m * 3)%Z with (3 * m * 4)%Z by lia.
    rewrite Z.div_mul by lia.
    pose proof (Z.div_mod (Z.of_nat n + 2) 3 ltac:(lia)).
    pose proof (Z.mod_pos_bound (Z.of_nat n + 2) 3 ltac:(lia)).
    subst m. lia.
Qed.

(** ** More of [ensureScene] *)

Lemma foldM_app {S A} (step : S -> A -> option S) (l1 l2 : list A) (s : S) :
  foldM step s (l1 ++ l2)
  = match foldM step s l1 with Some s1 => foldM step s1 l2 | None => None end.
Proof.
  revert s. induction l1 as [|x r IH]; intros s; cbn [foldM app]; [reflexivity|].
  destruct (step s x); [apply IH|reflexivity].
Qed.

Lemma ensureScene_entity_unknown (scene : scene_lists) (e : value) :
  present e -> known_type e = false -> ensureScene_entity scene e = Some scene.
Proof.
  unfold present, known_type, is_target_entity, is_spawn_entity, entity_type.
  intros He Hk. unfold ensureScene_entity, get. rewrite He.
  destruct (is_str (prop e "type") "platform"); [discriminate|].
  destruct (is_str (prop e "type") "coin"); [discriminate|].
  destruct (is_str (prop e "type") "goal"); [discriminate|].
  destruct (is_str (prop e "type") "hazard"); [discriminate|].
  destruct (is_str (prop e "type") "enemy"); [cbn in Hk; discriminate|].
  destruct (is_str (prop e "type") "playerSpawn"); [discriminate|].
  reflexivity.
Qed.

Lemma foldM_entities_filter (es : list value) :
  Forall present es -> forall scene,
  foldM ensureScene_entity scene es
  = foldM ensureScene_entity scene (filter known_type es).
Proof.
  induction 1 as [|e r He _ IH]; intros scene; cbn [foldM filter]; [reflexivity|].
  destruct (known_type e) eqn:Ek; cbn [foldM].
  - destruct (ensureScene_entity scene e); [apply IH|reflexivity].
  - rewrite (ensureScene_entity_unknown scene e He Ek). apply IH.
Qed.

(** X13.  Entities whose type is none of [platform], [coin], [goal],
    [hazard], [playerSpawn] and [enemy] leave no trace: a design and the
    same design without them give the same Scene. *)
Theorem ensureScene_ignores_unknown_types (canvas : value) (entities : list value) :
  Forall present entities ->
  ensureScene (design_of canvas entities)
  = ensureScene (design_of canvas (filter known_type entities)).
Proof.
  intros Hes. unfold ensureScene, design_of, get. cbn [nullish]. read_fields.
  cbn [js_or truthy as_array].
  now rewrite (foldM_entities_filter entities Hes).
Qed.

(** The Scene [ensureScene] assembles from the lists the entity loop
    leaves: the fallbacks are added to an empty list only. *)
Lemma ensureScene_assembled (canvas : value) (es : list value) :
  Forall present es ->
  exists acc scene ps cs,
    foldM ensureScene_entity no_lists es = Some acc /\
    ensureScene (design_of canvas es) = Some scene /\
    prop scene "world" = design_world canvas /\
    prop scene "platforms" = VArr ps /\
    prop scene "targets" = VArr acc.(targets) /\
    prop scene "characters" = VArr cs /\
    (acc.(platforms) <> [] -> ps = acc.(platforms)) /\
    (acc.(platforms) = [] -> List.length ps = 1) /\
    (acc.(characters) <> [] -> cs = acc.(characters)) /\
    (acc.(characters) = [] -> List.length cs = 1).
Proof.
  intros Hes.
  destruct (foldM_total ensureScene_entity present es ensureScene_entity_total Hes no_lists)
    as (acc & Eacc).
  unfold ensureScene, design_of, get. cbn [nullish]. read_fields.
  cbn [js_or truthy as_array]. fold no_lists. rewrite Eacc.
  exists acc.
  destruct (platforms acc) as [|p0 pr] eqn:Ep; cbn [List.length Nat.eqb];
    cbn [characters push_platform];
    destruct (characters acc) as [|c0 cr] eqn:Ec; cbn [List.length Nat.eqb];
    (eexists; eexists; eexists; split; [reflexivity|]; split; [reflexivity|];
     read_fields; cbn [platforms targets characters push_platform push_character];
     rewrite ?Ep, ?Ec;
     split; [reflexivity|]; split; [reflexivity|]; split; [reflexivity|];
     split; [reflexivity|];
     repeat split; try reflexivity; try congruence).
Qed.

Lemma ensureScene_entity_counts (s : scene_lists) (e : value) :
  present e ->
  exists s',
    ensureScene_entity s e = Some s' /\
    List.length s'.(platforms)
      = List.length s.(platforms) + (if is_platform_entity e then 1 else 0) /\
    List.length s'.(targets)
      = List.length s.(targets) + (if is_target_entity e then 1 else 0) /\
    List.length s'.(characters)
      = List.length s.(characters) + (if is_spawn_entity e then 1 else 0).
Proof.
  unfold present. intros He.
  unfold ensureScene_entity, get, is_platform_entity, is_target_entity, is_spawn_entity,
    entity_type.
  rewrite He.
  destruct (prop e "type") as [| | | |t| |];
    cbn [is_str orb andb];
    try (eexists; split; [reflexivity|]; cbn; lia).
  destruct (String.eqb_spec t "platform") as [->|Hp];
    cbn [String.eqb Ascii.eqb Bool.eqb orb andb].
  { destruct (is_str (prop e "shape") "rect" && is_number (prop e "w")
              && is_number (prop e "h")); cbn [orb].
    - eexists; split; [reflexivity|].
      cbn [platforms targets characters push_platform]. rewrite length_app. cbn. lia.
    - destruct (is_str (prop e "shape") "line" && is_number (prop e "x2")
                && is_number (prop e "y2"));
        (eexists; split; [reflexivity|]);
        cbn [platforms targets characters push_platform];
        rewrite ?length_app; cbn; lia. }
  destruct (String.eqb_spec t "coin") as [->|Hc];
    cbn [String.eqb Ascii.eqb Bool.eqb orb andb].
  { eexists; split; [reflexivity|].
    cbn [platforms targets characters push_target]. rewrite length_app. cbn. lia. }
  destruct (String.eqb_spec t "goal") as [->|Hg];
    cbn [String.eqb Ascii.eqb Bool.eqb orb andb].
  { eexists; split; [reflexivity|].
    cbn [platforms targets characters push_target]. rewrite length_app. cbn. lia. }
  destruct (String.eqb_spec t "hazard") as [->|Hh];
    cbn [String.eqb Ascii.eqb Bool.eqb orb andb].
  { eexists; split; [reflexivity|].
    cbn [platforms targets characters push_target]. rewrite length_app. cbn. lia. }
  destruct (String.eqb_spec t "playerSpawn") as [->|Hs];
    cbn [String.eqb Ascii.eqb Bool.eqb orb andb].
  { eexists; split; [reflexivity|].
    cbn [platforms targets characters push_character]. rewrite length_app. cbn. lia. }
  destruct (String.eqb_spec t "enemy") as [->|Hn];
    cbn [String.eqb Ascii.eqb Bool.eqb orb andb].
  { eexists; split; [reflexivity|].
    cbn [platforms targets characters push_target]. rewrite length_app. cbn. lia. }
  eexists; split; [reflexivity|]. cbn. lia.
Qed.

Lemma foldM_entities_counts (es : list value) :
  Forall present es -> forall s,
  exists s',
    foldM ensureScene_entity s es = Some s' /\
    List.length s'.(platforms)
      = List.length s.(platforms) + List.length (filter is_platform_entity es) /\
    List.length s'.(targets)
      = List.length s.(targets) + List.length (filter is_target_entity es) /\
    List.length s'.(characters)
      = List.length s.(characters) + List.length (filter is_spawn_entity es).
Proof.
  induction 1 as [|e r He _ IH]; intros s; cbn [foldM filter].
  - exists s. cbn. repeat split; lia.
  - destruct (ensureScene_entity_counts s e He) as (s1 & -> & Hp & Ht & Hc).
    destruct (IH s1) as (s' & -> & Hp' & Ht' & Hc').
    exists s'. split; [reflexivity|].
    rewrite Hp', Ht', Hc', Hp, Ht, Hc.
    destruct (is_platform_entity e), (is_target_entity e), (is_spawn_entity e);
      cbn [List.length]; repeat split; lia.
Qed.

(** X14.  [ensureScene] drops and invents nothing but its two fallbacks:
    the Scene has one platform for every rectangle or line platform
    entity (one ground platform when there is none), one target for
    every coin, goal, hazard and enemy, and one character for every
    playerSpawn (one default character when there is none). *)
Theorem ensureScene_counts (canvas : value) (entities : list value) :
  Forall present entities ->
  exists scene ps ts cs,
    ensureScene (design_of canvas entities) = Some scene /\
    prop scene "platforms" = VArr ps /\
    prop scene "targets" = VArr ts /\
    prop scene "characters" = VArr cs /\
    List.length ps = Nat.max 1 (List.length (filter is_platform_entity entities)) /\
    List.length ts = List.length (filter is_target_entity entities) /\
    List.length cs = Nat.max 1 (List.length (filter is_spawn_entity entities)).
Proof.
  intros Hes.
  destruct (ensureScene_assembled canvas entities Hes)
    as (acc & scene & ps & cs & Eacc & E & _ & Hps & Hts & Hcs & Hp1 & Hp0 & Hc1 & Hc0).
  destruct (foldM_entities_counts entities Hes no_lists) as (acc' & Eacc' & Lp & Lt & Lc).
  rewrite Eacc in Eacc'. inversion Eacc'; subst acc'. cbn [no_lists platforms targets characters List.length] in *.
  exists scene, ps, (targets acc), cs.
  split; [exact E|]. split; [exact Hps|]. split; [exact Hts|]. split; [exact Hcs|].
  split; [|split; [lia|]].
  - destruct (platforms acc) as [|p0 pr] eqn:Ep.
    + rewrite (Hp0 eq_refl). cbn [List.length] in Lp. lia.
    + rewrite (Hp1 ltac:(discriminate)). cbn [List.length] in *. lia.
  - destruct (characters acc) as [|c0 cr] eqn:Ec.
    + rewrite (Hc0 eq_refl). cbn [List.length] in Lc. lia.
    + rewrite (Hc1 ltac:(discriminate)). cbn [List.length] in *. lia.
Qed.

Lemma ensureScene_entity_grows (s s' : scene_lists) (e : value) :
  ensureScene_entity s e = Some s' ->
  exists p t c,
    s'.(platforms) = (s.(platforms) ++ p)%list /\
    s'.(targets) = (s.(targets) ++ t)%list /\
    s'.(characters) = (s.(characters) ++ c)%list.
Proof.
  unfold ensureScene_entity, get. destruct (nullish e); [discriminate|].
  cbv beta iota zeta.
  repeat match goal with
         | |- context [if ?b then _ else _] => destruct b
         end;
    intros [= <-]; cbn [platforms targets characters push_platform push_target push_character].
  all: do 3 eexists; split; [|split]; first [reflexivity | symmetry; apply app_nil_r].
Qed.

Lemma foldM_entities_grow (es : list value) : forall s s',
  foldM ensureScene_entity s es = Some s' ->
  exists p t c,
    s'.(platforms) = (s.(platforms) ++ p)%list /\
    s'.(targets) = (s.(targets) ++ t)%list /\
    s'.(characters) = (s.(characters) ++ c)%list.
Proof.
  induction es as [|e r IH]; intros s s' H; cbn [foldM] in H.
  - inversion H; subst. exists [], [], []. now rewrite !app_nil_r.
  - destruct (ensureScene_entity s e) as [s1|] eqn:E1; [|discriminate].
    destruct (ensureScene_entity_grows _ _ _ E1) as (p1 & t1 & c1 & Hp1 & Ht1 & Hc1).
    destruct (IH _ _ H) as (p2 & t2 & c2 & Hp2 & Ht2 & Hc2).
    exists (p1 ++ p2)%list, (t1 ++ t2)%list, (c1 ++ c2)%list.
    rewrite Hp2, Ht2, Hc2, Hp1, Ht1, Hc1, !app_assoc. auto.
Qed.

(** What one entity pushes is in the Scene [ensureScene] returns. *)
Lemma ensureScene_keeps_platform (canvas : value) (es : list value) (e p : value) :
  Forall present es -> In e es ->
  (forall s, ensureScene_entity s e = Some (push_platform s p)) ->
  exists scene ps,
    ensureScene (design_of canvas es) = Some scene /\
    prop scene "platforms" = VArr ps /\ In p ps.
Proof.
  intros Hes Hin Hstep.
  destruct (ensureScene_assembled canvas es Hes)
    as (acc & scene & ps & cs & Eacc & E & _ & Hps & _ & _ & Hp1 & _).
  destruct (in_split _ _ Hin) as (l1 & l2 & ->).
  rewrite foldM_app in Eacc.
  destruct (foldM ensureScene_entity no_lists l1) as [s1|]; [|discriminate].
  cbn [foldM] in Eacc. rewrite Hstep in Eacc.
  destruct (foldM_entities_grow _ _ _ Eacc) as (p2 & _ & _ & Hp & _).
  cbn [platforms push_platform] in Hp.
  assert (Hin' : In p (platforms acc)).
  { rewrite Hp. apply in_or_app. left. apply in_or_app. right. now left. }
  exists scene, ps. split; [exact E|]. split; [exact Hps|].
  rewrite Hp1; [exact Hin'|]. intros Hnil. rewrite Hnil in Hin'. exact Hin'.
Qed.


Lemma Qeq_bool_false (x y : Q) : Qeq_bool x y = false <-> ~ (x == y)%Q.
Proof.
  split.
  - intros H E. apply Qeq_bool_iff in E. congruence.
  - intros H. destruct (Qeq_bool x y) eqn:E; [|reflexivity].
    apply Qeq_bool_iff in E. contradiction.
Qed.

Lemma Qabs_inject_Z (a : Z) : Qabs (inject_Z a) = inject_Z (Z.abs a).
Proof. reflexivity. Qed.

Lemma Qeq_bool_inject_Z (a b : Z) : Qeq_bool (inject_Z a) (inject_Z b) = (a =? b)%Z.
Proof.
  destruct (a =? b)%Z eqn:E.
  - apply Z.eqb_eq in E. subst b. apply Qeq_bool_iff. reflexivity.
  - apply Z.eqb_neq in E. apply Qeq_bool_false. intros H. apply E.
    unfold Qeq, inject_Z in H. cbn [Qnum Qden] in H. lia.
Qed.

(** X15.  A line platform entity whose endpoints [(x, y)] and [(x2, y2)]
    are whole numbers of magnitude up to 2^52 becomes a platform of the
    Scene whose corner is the smaller of the two in each coordinate,
    whose width is the distance between [x] and [x2], or 24 when that is
    zero, and whose height is the distance between [y] and [y2] but at
    least 4.  On these endpoints the program's [x2 - x] and [y2 - y] are
    the exact differences, so the values are the ones it computes. *)
Theorem ensureScene_line_platform
        (canvas : value) (entities : list value) (e : value) (x y x2 y2 : Z) :
  Forall present entities -> In e entities ->
  prop e "type" = VStr "platform" -> prop e "shape" = VStr "line" ->
  prop e "x" = num_lit x -> prop e "y" = num_lit y ->
  prop e "x2" = num_lit x2 -> prop e "y2" = num_lit y2 ->
  (Z.abs x <= 2 ^ 52)%Z -> (Z.abs y <= 2 ^ 52)%Z ->
  (Z.abs x2 <= 2 ^ 52)%Z -> (Z.abs y2 <= 2 ^ 52)%Z ->
  exists scene ps p,
    ensureScene (design_of canvas entities) = Some scene /\
    prop scene "platforms" = VArr ps /\ In p ps /\
    Object_keys p = ["x"; "y"; "w"; "h"] /\
    prop p "x" = num_lit (Z.min x x2) /\
    prop p "y" = num_lit (Z.min y y2) /\
    prop p "w" = num_lit (if (x2 =? x)%Z then 24 else Z.abs (x2 - x)) /\
    prop p "h" = num_lit (Z.max 4 (Z.abs (y2 - y))).
Proof.
  clear FormatDouble.
  intros Hes Hin Ht Hs Hx Hy Hx2 Hy2 _ _ _ _.
  assert (Hstep : exists p,
    (forall s, ensureScene_entity s e = Some (push_platform s p)) /\
    Object_keys p = ["x"; "y"; "w"; "h"] /\
    prop p "x" = num_lit (Z.min x x2) /\
    prop p "y" = num_lit (Z.min y y2) /\
    prop p "w" = num_lit (if (x2 =? x)%Z then 24 else Z.abs (x2 - x)) /\
    prop p "h" = num_lit (Z.max 4 (Z.abs (y2 - y)))).
  { assert (He : nullish e = false) by (destruct e; try reflexivity; discriminate).
    unfold ensureScene_entity, get. rewrite He, Ht, Hs, Hx, Hy, Hx2, Hy2.
    unfold num_lit.
    cbn [is_str String.eqb Ascii.eqb Bool.eqb andb is_number typeof].
    unfold Math_abs, Math_min, Math_max, js_sub.
    cbn [ToNumber num_sub num_abs].
    rewrite !inject_Z_sub, !Qabs_inject_Z.
    unfold num_min. cbn [num_is_nan orb num_ltb]. rewrite !Qltb_inject_Z.
    unfold js_or. cbn [truthy num_is_nan num_is_zero orb].
    change 0%Q with (inject_Z 0). rewrite !Qeq_bool_inject_Z.
    assert (Emx : (if (x <? x2)%Z then Fin (inject_Z x) else Fin (inject_Z x2))
                  = Fin (inject_Z (Z.min x x2))).
    { destruct (x <? x2)%Z eqn:E; f_equal; f_equal;
        [apply Z.ltb_lt in E | apply Z.ltb_ge in E]; lia. }
    assert (Emy : (if (y <? y2)%Z then Fin (inject_Z y) else Fin (inject_Z y2))
                  = Fin (inject_Z (Z.min y y2))).
    { destruct (y <? y2)%Z eqn:E; f_equal; f_equal;
        [apply Z.ltb_lt in E | apply Z.ltb_ge in E]; lia. }
    rewrite Emx, Emy.
    assert (Ew : (if negb (Z.abs (x2 - x) =? 0)%Z
                  then VNum (Fin (inject_Z (Z.abs (x2 - x))))
                  else VNum (Fin (inject_Z 24)))
                 = VNum (Fin (inject_Z (if (x2 =? x)%Z then 24 else Z.abs (x2 - x))))).
    { destruct (Z.abs (x2 - x) =? 0)%Z eqn:E; destruct (x2 =? x)%Z eqn:E';
        cbn [negb]; try reflexivity; exfalso;
        [apply Z.eqb_eq in E; apply Z.eqb_neq in E'
        |apply Z.eqb_neq in E; apply Z.eqb_eq in E']; lia. }
    rewrite Ew.
    assert (Eh : num_max (Fin (inject_Z 4))
                   (ToNumber (if negb (Z.abs (y2 - y) =? 0)%Z
                              then VNum (Fin (inject_Z (Z.abs (y2 - y))))
                              else VNum (Fin (inject_Z 4))))
                 = Fin (inject_Z (Z.max 4 (Z.abs (y2 - y))))).
    { unfold num_max.
      destruct (Z.abs (y2 - y) =? 0)%Z eqn:E; cbn [negb ToNumber num_is_nan orb num_ltb];
        rewrite Qltb_inject_Z.
      - apply Z.eqb_eq in E. rewrite E. reflexivity.
      - destruct (Z.abs (y2 - y) <? 4)%Z eqn:E4; f_equal; f_equal;
          [apply Z.ltb_lt in E4 | apply Z.ltb_ge in E4]; lia. }
    rewrite Eh.
    eexists. split; [intros s; reflexivity|].
    read_fields. repeat split; reflexivity. }
  destruct Hstep as (p & Hstep & Hrest).
  destruct (ensureScene_keeps_platform canvas entities e p Hes Hin Hstep)
    as (scene & ps & E & Hps & Hp).
  exists scene, ps, p. tauto.
Qed.


(** ** The Scene literal of any design *)

Lemma append_assoc (s1 s2 s3 : string) : s1 ++ s2 ++ s3 = (s1 ++ s2) ++ s3.
Proof.
  induction s1 as [|c r IH]; cbn [append]; [reflexivity|now rewrite IH].
Qed.

Lemma scene_property_list :
  nodup String.string_dec
    (sort_strings ["world"; "background"; "platforms"; "targets"; "characters"; "controls"])
  = scene_names.
Proof. vm_compute. reflexivity. Qed.

Lemma ensureScene_entity_prints_empty (s s' : scene_lists) (e : value) :
  ensureScene_entity s e = Some s' ->
  Forall prints_empty s.(platforms) -> Forall prints_empty s.(targets) ->
  Forall prints_empty s.(characters) ->
  Forall prints_empty s'.(platforms) /\ Forall prints_empty s'.(targets) /\
  Forall prints_empty s'.(characters).
Proof.
  unfold ensureScene_entity, get. destruct (nullish e); [discriminate|].
  cbv beta iota zeta.
  repeat match goal with
         | |- context [if ?b then _ else _] => destruct b
         end;
    intros [= <-] Hp Ht Hc;
    cbn [platforms targets characters push_platform push_target push_character];
    (split; [|split]);
    first [ assumption
          | apply Forall_app; split; [assumption|];
            apply Forall_cons; [intros indent; reflexivity|apply Forall_nil] ].
Qed.

Lemma foldM_entities_print_empty (es : list value) : forall s s',
  foldM ensureScene_entity s es = Some s' ->
  Forall prints_empty s.(platforms) -> Forall prints_empty s.(targets) ->
  Forall prints_empty s.(characters) ->
  Forall prints_empty s'.(platforms) /\ Forall prints_empty s'.(targets) /\
  Forall prints_empty s'.(characters).
Proof.
  induction es as [|e r IH]; intros s s' H Hp Ht Hc; cbn [foldM] in H.
  - inversion H; subst. auto.
  - destruct (ensureScene_entity s e) as [s1|] eqn:E1; [|discriminate].
    destruct (ensureScene_entity_prints_empty _ _ _ E1 Hp Ht Hc) as (Hp1 & Ht1 & Hc1).
    exact (IH _ _ H Hp1 Ht1 Hc1).
Qed.

Lemma array_of_empty_objects (l : list value) :
  Forall prints_empty l ->
  SerializeJSONProperty scene_names "  " "  " (VArr l)
  = Some (empty_objects (List.length l)).
Proof.
  intros Hl. cbn [SerializeJSONProperty]. f_equal.
  assert (Hm : map (fun e => match SerializeJSONProperty scene_names "  " ("  " ++ "  ") e with
                             | Some s => s
                             | None => "null"
                             end) l
               = List.repeat "{}" (List.length l)).
  { induction Hl as [|x r Hx _ IH]; cbn [map List.length List.repeat]; [reflexivity|].
    now rewrite Hx, IH. }
  rewrite Hm. destruct l; reflexivity.
Qed.

(** The Scene [ensureScene] returns, field by field. *)
Lemma ensureScene_layout (canvas : value) (es : list value) :
  Forall present es ->
  exists ps ts cs,
    ensureScene (design_of canvas es)
    = Some (VObj [ ("world", design_world canvas);
                   ("background", VObj [("imageUrl", VStr ""); ("fit", VStr "cover")]);
                   ("platforms", VArr ps);
                   ("targets", VArr ts);
                   ("characters", VArr cs);
                   ("controls", VObj [ ("arrows", VBool true); ("spaceJump", VBool true);
                                       ("resetKey", VStr "R"); ("shootKey", VStr "X") ]) ]) /\
    Forall prints_empty ps /\ Forall prints_empty ts /\ Forall prints_empty cs /\
    List.length ps = Nat.max 1 (List.length (filter is_platform_entity es)) /\
    List.length ts = List.length (filter is_target_entity es) /\
    List.length cs = Nat.max 1 (List.length (filter is_spawn_entity es)).
Proof.
  intros Hes.
  destruct (foldM_entities_counts es Hes no_lists) as (acc & Eacc & Lp & Lt & Lc).
  destruct (foldM_entities_print_empty es _ _ Eacc) as (Pp & Pt & Pc);
    try apply Forall_nil.
  cbn [no_lists platforms targets characters List.length Nat.add] in Lp, Lt, Lc.
  unfold ensureScene, design_of, get. cbn [nullish]. read_fields.
  cbn [js_or truthy as_array]. fold no_lists. rewrite Eacc.
  cbv beta iota zeta. fold (design_world canvas).
  destruct (platforms acc) as [|p0 pr] eqn:Ep; cbn [List.length Nat.eqb];
    cbn [characters push_platform];
    destruct (characters acc) as [|c0 cr] eqn:Ec; cbn [List.length Nat.eqb];
    cbn [platforms targets characters push_platform push_character];
    rewrite ?Ep, ?Ec; cbn [app];
    (eexists; eexists; eexists; split; [reflexivity|]);
    (split; [|split; [exact Pt|split; [|split; [|split; [exact Lt|]]]]]);
    cbn [List.length] in *;
    first [ assumption
          | apply Forall_cons; [intros indent; reflexivity|apply Forall_nil]
          | lia ].
Qed.

(** X17.  Whatever the design, the Scene literal of the generated
    [game.js] is the hollow one: the six top-level names, and below them
    empty objects only, as many in each list as the Scene has platforms,
    targets and characters.  No coordinate, size, id, ability or world
    dimension of the design reaches the generated program. *)
Theorem generateBuildManifest_scene_literal (canvas : value) (entities : list value) :
  Forall present entities ->
  generateBuildManifest (design_of canvas entities)
  = Some {| kind := "web-service"; runtime := "static"; entry := "index.html";
            start := "static";
            files :=
              [ {| path := "index.html"; content := buildIndexHtml |};
                {| path := "game.js";
                   content :=
                     gameJs_head
                       ++ hollow_scene
                            (Nat.max 1 (List.length (filter is_platform_entity entities)))
                            (List.length (filter is_target_entity entities))
                            (Nat.max 1 (List.length (filter is_spawn_entity entities)))
                       ++ gameJs_tail |} ] |}.
Proof.
  intros Hes.
  destruct (ensureScene_layout canvas entities Hes)
    as (ps & ts & cs & E & Pp & Pt & Pc & Lp & Lt & Lc).
  unfold generateBuildManifest. rewrite E. cbv beta iota.
  unfold buildGameJs, stableStringify. cbn [nullish].
  unfold JSON_stringify, Object_keys. cbn [own_props map fst].
  rewrite scene_property_list.
  change (substring 0 2 "          ") with "  ".
  rewrite SerializeJSONProperty_object.
  unfold scene_names at 2.
  cbn [flat_map lookup String.eqb Ascii.eqb Bool.eqb app].
  change ("" ++ "  ") with "  ".
  rewrite !array_of_empty_objects by assumption.
  change (SerializeJSONProperty scene_names "  " "  " (design_world canvas))
    with (Some "{}").
  repeat match goal with
         | |- context [SerializeJSONProperty ?K ?g ?i (VObj ?l)] =>
             change (SerializeJSONProperty K g i (VObj l)) with (Some "{}")
         end.
  rewrite <- Lp, <- Lt, <- Lc.
  generalize (List.length ps), (List.length ts), (List.length cs).
  clear. intros np nt nc.
  do 7 f_equal. unfold hollow_scene. generalize (empty_objects np), (empty_objects nt), (empty_objects nc). intros a b c.
  cbn [wrap String.concat app].
  rewrite <- !append_assoc. reflexivity.
Qed.

(** ** More on the collider *)

Lemma scan_no_content (cv : canvas) :
  (forall x y, ~ opaque cv x y) -> (scan cv).(hasContent) = false.
Proof.
  intros Hnone. destruct (scan_scanned cv) as (_ & Hwit & _).
  destruct (hasContent (scan cv)) eqn:Hc; [|reflexivity].
  destruct (Hwit eq_refl) as ((x & y & Hin & Ho & _) & _).
  apply visit_order_in in Hin. exfalso. apply (Hnone x y).
  unfold opaque. repeat split; try assumption; lia.
Qed.

Lemma scan_box (cv : canvas) :
  (scan cv).(hasContent) = true ->
  (0 <= (scan cv).(minX) <= (scan cv).(maxX))%Z /\
  ((scan cv).(maxX) < Z.of_nat cv.(width))%Z /\
  (0 <= (scan cv).(minY) <= (scan cv).(maxY))%Z /\
  ((scan cv).(maxY) < Z.of_nat cv.(height))%Z.
Proof.
  intros Hc. destruct (scan_scanned cv) as (Hall & Hwit & _).
  destruct (Hwit Hc)
    as ((xa & ya & Ia & Oa & Ea) & (xb & yb & Ib & Ob & Eb)
        & (xc & yc & Ic & Oc & Ec) & (xd & yd & Id & Od & Ed)).
  destruct (Hall _ _ Ia Oa) as (_ & Hax & Hay).
  destruct (Hall _ _ Ic Oc) as (_ & Hcx & Hcy).
  apply visit_order_in in Ia, Ib, Ic, Id. lia.
Qed.

(** X18.  On a raster without a pixel of non-zero alpha the collider is
    the whole sprite, at least 24 wide and 32 high, at offset zero. *)
Theorem calculateColliderBounds_transparent (cv : canvas) :
  0 < cv.(width) -> 0 < cv.(height) ->
  (forall x y, ~ opaque cv x y) ->
  calculateColliderBounds cv
  = Some {| w := Z.max 24 (Z.of_nat cv.(width));
            h := Z.max 32 (Z.of_nat cv.(height));
            offsetX := 0; offsetY := 0 |}.
Proof.
  intros Hw Hh Hnone. unfold calculateColliderBounds.
  destruct (Nat.eqb_spec (width cv) 0); [lia|].
  destruct (Nat.eqb_spec (height cv) 0); [lia|].
  cbn [orb]. now rewrite (scan_no_content cv Hnone).
Qed.

(** X19.  [calculateColliderBounds] fails on an empty raster and on no
    other.  Every collider it returns is at least 16 wide and 24 high,
    at most 4 larger than the sprite unless a minimum applies, and has
    offsets that are never negative; a collider that is no wider
    (higher) than the sprite lies inside it and is centred to within one
    pixel. *)
Theorem calculateColliderBounds_size (cv : canvas) :
  (calculateColliderBounds cv = None <-> cv.(width) = 0 \/ cv.(height) = 0) /\
  (forall c, calculateColliderBounds cv = Some c ->
     (16 <= c.(w) <= Z.max 24 (Z.of_nat cv.(width) + 4))%Z /\
     (24 <= c.(h) <= Z.max 32 (Z.of_nat cv.(height) + 4))%Z /\
     (0 <= c.(offsetX))%Z /\ (0 <= c.(offsetY))%Z /\
     (c.(w) <= Z.of_nat cv.(width) ->
        c.(offsetX) + c.(w) <= Z.of_nat cv.(width) /\
        Z.of_nat cv.(width) - c.(w) - 1 <= 2 * c.(offsetX) <= Z.of_nat cv.(width) - c.(w))%Z /\
     (c.(h) <= Z.of_nat cv.(height) ->
        c.(offsetY) + c.(h) <= Z.of_nat cv.(height) /\
        Z.of_nat cv.(height) - c.(h) - 1 <= 2 * c.(offsetY) <= Z.of_nat cv.(height) - c.(h))%Z).
Proof.
  unfold calculateColliderBounds.
  destruct (Nat.eqb_spec (width cv) 0) as [Hw|Hw]; cbn [orb].
  { split; [tauto|discriminate]. }
  destruct (Nat.eqb_spec (height cv) 0) as [Hh|Hh].
  { split; [tauto|discriminate]. }
  split.
  { split; [|lia]. destruct (negb (hasContent (scan cv))); discriminate. }
  intros c. destruct (hasContent (scan cv)) eqn:Hc; cbn [negb]; intros [= <-];
    cbn [w h offsetX offsetY].
  - destruct (scan_box cv Hc) as (Hx & Hx' & Hy & Hy').
    set (ww := Z.max 16 (maxX (scan cv) - minX (scan cv) + 1 + 4)).
    set (hh := Z.max 24 (maxY (scan cv) - minY (scan cv) + 1 + 4)).
    assert (Hww : (16 <= ww <= Z.max 24 (Z.of_nat (width cv) + 4))%Z) by (subst ww; lia).
    assert (Hhh : (24 <= hh <= Z.max 32 (Z.of_nat (height cv) + 4))%Z) by (subst hh; lia).
    clearbody ww hh.
    split; [exact Hww|]. split; [exact Hhh|].
    split; [lia|]. split; [lia|].
    split; intros Hle.
    + pose proof (Z.div_mod (Z.of_nat (width cv) - ww) 2 ltac:(lia)).
      pose proof (Z.mod_pos_bound (Z.of_nat (width cv) - ww) 2 ltac:(lia)).
      assert (0 <= (Z.of_nat (width cv) - ww) / 2)%Z by (apply Z.div_pos; lia).
      lia.
    + pose proof (Z.div_mod (Z.of_nat (height cv) - hh) 2 ltac:(lia)).
      pose proof (Z.mod_pos_bound (Z.of_nat (height cv) - hh) 2 ltac:(lia)).
      assert (0 <= (Z.of_nat (height cv) - hh) / 2)%Z by (apply Z.div_pos; lia).
      lia.
  - repeat split; lia.
Qed.

(** ** Character validation *)

Lemma trimEnd_nonempty (c : ascii) (r : string) :
  is_space c = false -> trimEnd (String c r) <> EmptyString.
Proof.
  intros Hc. cbn [trimEnd]. destruct (trimEnd r); [rewrite Hc|]; discriminate.
Qed.

Lemma trim_blank (s : string) : Nat.eqb (String.length (trim s)) 0 = blank s.
Proof.
  unfold trim. induction s as [|c r IH]; [reflexivity|].
  cbn [trimStart blank]. destruct (is_space c) eqn:Hc; cbn [andb]; [exact IH|].
  pose proof (trimEnd_nonempty c r Hc) as Hne.
  destruct (trimEnd (String c r)); [congruence|reflexivity].
Qed.

Lemma num_ltb_not_below (n : num) (z : Z) :
  num_ltb n (Fin (inject_Z z)) = false <-> not_below (inject_Z z) n.
Proof.
  unfold not_below. destruct n as [| |q|]; cbn [num_ltb].
  - split; auto.
  - split; [discriminate|]. intros [H|[H|(q & H & _)]]; discriminate.
  - rewrite Qltb_ge. split.
    + intros H. right. right. exists q. auto.
    + intros [H|[H|(q' & [= <-] & H)]]; try discriminate. exact H.
  - split; auto.
Qed.

Lemma number_within (v : value) (lo hi : Z) :
  negb (is_number v) || js_lt v (num_lit lo) || js_gt v (num_lit hi) = false
  <-> exists n, v = VNum n /\ within (inject_Z lo) (inject_Z hi) n.
Proof.
  unfold js_lt, js_gt, num_lit, within.
  destruct v as [| |b|n|s|l|kvs]; cbn [is_number typeof String.eqb Ascii.eqb Bool.eqb negb orb];
    try (split; [discriminate|intros (n' & H & _); discriminate]).
  cbn [ToNumber]. split.
  - intros H. apply orb_false_iff in H. destruct H as (H1 & H2).
    exists n. split; [reflexivity|].
    destruct n as [| |q|]; cbn [num_ltb] in H1, H2; try discriminate.
    + now left.
    + right. exists q. split; [reflexivity|]. now rewrite <- !Qltb_ge.
  - intros (n' & [= <-] & [->|(q & -> & H1 & H2)]); [reflexivity|].
    cbn [num_ltb]. apply orb_false_iff. now rewrite !Qltb_ge.
Qed.

Lemma startsWith_nonempty (s p : string) :
  startsWith s p = true -> p <> "" -> s <> "".
Proof.
  destruct p; [congruence|]. destruct s; [discriminate|discriminate].
Qed.

Lemma calculateColliderBounds_minimum (cv : canvas) (c : collider) :
  calculateColliderBounds cv = Some c -> (16 <= c.(w))%Z /\ (24 <= c.(h))%Z.
Proof.
  unfold calculateColliderBounds.
  destruct (Nat.eqb (width cv) 0 || Nat.eqb (height cv) 0); [discriminate|].
  destruct (negb (hasContent (scan cv))); intros [= <-]; cbn [w h]; lia.
Qed.

(** X20.  [validateCharacterData] throws on exactly three kinds of
    input: no character at all, a name that is truthy and not a string,
    and an image URL that is truthy and not a string.  Every other
    character, however malformed, gets its list of errors. *)
Theorem validateCharacterData_throws_iff (character : value) :
  validateCharacterData character = None
  <-> nullish character = true
      \/ (truthy (prop character "name") = true /\
          typeof (prop character "name") <> "string")
      \/ (truthy (prop character "imageUrl") = true /\
          typeof (prop character "imageUrl") <> "string").
Proof.
  unfold validateCharacterData, get.
  destruct (nullish character); [split; auto|].
  set (name := prop character "name"). set (url := prop character "imageUrl").
  destruct (truthy name) eqn:Tn; cbn [negb].
  - destruct name as [| |b|n|s|l|kvs] eqn:En;
      try (split; [intros _; right; left; split; [reflexivity|cbn [typeof]; discriminate]
                  |reflexivity]).
    cbv beta iota.
    destruct (truthy url) eqn:Tu.
    + destruct url as [| |b'|n'|s'|l'|kvs'] eqn:Eu;
        try (split; [intros _; right; right; split; [reflexivity|cbn [typeof]; discriminate]
                    |reflexivity]).
      split; [discriminate|].
      intros [H|[(H1 & H2)|(H1 & H2)]]; try discriminate; exfalso; apply H2; reflexivity.
    + split; [discriminate|].
      intros [H|[(H1 & H2)|(H1 & H2)]]; try discriminate; exfalso; apply H2; reflexivity.
  - cbv beta iota.
    destruct (truthy url) eqn:Tu.
    + destruct url as [| |b'|n'|s'|l'|kvs'] eqn:Eu;
        try (split; [intros _; right; right; split; [reflexivity|cbn [typeof]; discriminate]
                    |reflexivity]).
      split; [discriminate|].
      intros [H|[(H1 & H2)|(H1 & H2)]]; try discriminate; exfalso; apply H2; reflexivity.
    + split; [discriminate|].
      intros [H|[(H1 & H2)|(H1 & H2)]]; discriminate.
Qed.

Lemma blank_nonempty (s : string) : blank s = false -> String.eqb s "" = false.
Proof. destruct s; [discriminate|reflexivity]. Qed.

Lemma validateCharacterData_faultless (character : value) :
  validateCharacterData character = Some [] -> acceptable character.
Proof.
  unfold acceptable.
  intros H. unfold validateCharacterData, get in H.
  destruct (nullish character); [discriminate|].
  match type of H with
  | match ?e with _ => _ end = _ => destruct e as [nn|] eqn:Enn; [|discriminate]
  end.
  match type of H with
  | match ?e with _ => _ end = _ => destruct e as [bf|] eqn:Ebf; [|discriminate]
  end.
  injection H as H.
  repeat match type of H with
         | (_ ++ _)%list = [] => apply app_eq_nil in H; destruct H as (? & H)
         end.
  destruct nn; [discriminate|].
  destruct bf; [discriminate|].
  destruct (truthy (prop character "imageUrl")) eqn:Tu; [|discriminate].
  destruct (truthy (prop character "collider")) eqn:Tc; [|discriminate].
  destruct (truthy (prop character "abilities")) eqn:Ta; [|discriminate].
  cbn [negb orb] in *.
  destruct (truthy (prop character "name")) eqn:Tn; [|discriminate].
  cbn [negb] in Enn.
  destruct (prop character "name") as [| |b|n|name|l|kvs] eqn:En; try discriminate.
  destruct (prop character "imageUrl") as [| |b|n|url|l|kvs] eqn:Eu; try discriminate.
  injection Enn as Enn. injection Ebf as Ebf.
  rewrite trim_blank in Enn. apply negb_false_iff in Ebf.
  split; [|split; [|split]].
  + exists name. split; [reflexivity|]. split; [exact Enn|].
    cbn [andb] in *. destruct (Nat.ltb_spec 50 (String.length name)); [discriminate|lia].
  + exists url. split; [reflexivity|exact Ebf].
  + split; [reflexivity|].
    destruct (js_lt (prop (prop character "collider") "w") (num_lit 8)) eqn:Lw;
      [discriminate|].
    destruct (js_lt (prop (prop character "collider") "h") (num_lit 8)) eqn:Lh;
      [discriminate|].
    split; [exact (proj1 (num_ltb_not_below _ 8) Lw)|exact (proj1 (num_ltb_not_below _ 8) Lh)].
  + split; [reflexivity|].
    apply app_eq_nil in H. destruct H as (Hm & Hj).
    split.
    * apply (number_within _ 10 1000).
      destruct (negb (is_number (prop (prop character "abilities") "moveSpeed"))
                || js_lt (prop (prop character "abilities") "moveSpeed") (num_lit 10)
                || js_gt (prop (prop character "abilities") "moveSpeed") (num_lit 1000));
        [discriminate|reflexivity].
    * apply (number_within _ 50 2000).
      destruct (negb (is_number (prop (prop character "abilities") "jumpVelocity"))
                || js_lt (prop (prop character "abilities") "jumpVelocity") (num_lit 50)
                || js_gt (prop (prop character "abilities") "jumpVelocity") (num_lit 2000));
        [discriminate|reflexivity].
Qed.

Lemma validateCharacterData_accepts (character : value) :
  acceptable character -> validateCharacterData character = Some [].
Proof.
  unfold acceptable.
  intros ((name & En & Hb & Hl) & (url & Eu & Hu) & (Tc & Hw & Hh) & (Ta & Hm & Hj)).
  assert (Hc : nullish character = false)
    by (destruct character; try reflexivity; discriminate).
  unfold validateCharacterData, get. rewrite Hc, En, Eu, Tc, Ta.
  cbn [truthy negb orb].
  rewrite (blank_nonempty name Hb), trim_blank, Hb, Hu.
  assert (Hue : String.eqb url "" = false).
  { destruct url; [discriminate|reflexivity]. }
  rewrite Hue. cbn [negb andb].
  destruct (Nat.ltb_spec 50 (String.length name)) as [Hlt|_]; [lia|].
  assert (Lw : js_lt (prop (prop character "collider") "w") (num_lit 8) = false)
    by exact (proj2 (num_ltb_not_below _ 8) Hw).
  assert (Lh : js_lt (prop (prop character "collider") "h") (num_lit 8) = false)
    by exact (proj2 (num_ltb_not_below _ 8) Hh).
  rewrite Lw, Lh.
  rewrite (proj2 (number_within _ 10 1000) Hm), (proj2 (number_within _ 50 2000) Hj).
  reflexivity.
Qed.

(** X21.  [validateCharacterData] returns no error exactly for the
    characters with a name that is a string of at most 50 code units and
    not all white space, an image URL that is a string starting with
    [data:image/], a collider whose [w] and [h] do not compare below 8,
    and abilities whose [moveSpeed] and [jumpVelocity] are numbers that
    are NaN or lie in 10..1000 and 50..2000.  So a collider without
    sizes and NaN speeds pass. *)
Theorem validateCharacterData_valid_iff (character : value) :
  validateCharacterData character = Some [] <-> acceptable character.
Proof.
  split; [apply validateCharacterData_faultless|apply validateCharacterData_accepts].
Qed.

Lemma calculateColliderBounds_returns (cv : canvas) :
  0 < cv.(width) -> 0 < cv.(height) -> exists c, calculateColliderBounds cv = Some c.
Proof.
  intros Hw Hh. unfold calculateColliderBounds.
  destruct (Nat.eqb_spec (width cv) 0); [lia|].
  destruct (Nat.eqb_spec (height cv) 0); [lia|].
  cbn [orb]. destruct (negb (hasContent (scan cv))); eexists; reflexivity.
Qed.

(** X22.  With no name and no abilities among the options, the
    character [extractCharacterFromFrames] builds from frames that are
    not empty rasters passes [validateCharacterData] without an error,
    whatever the pixels, the selected frame and the other options: the
    computed collider is never below the validator's minimum and the
    default name and speeds are inside its limits.  (The data URL of a
    frame is taken to start with [data:image/], as [toDataURL] gives
    it.) *)
Theorem extractCharacterFromFrames_valid
        (frames : list frame) (currentFrame : nat) (options : value) (s : stamp) :
  frames <> [] -> options <> VNull ->
  prop options "name" = VUndef -> prop options "abilities" = VUndef ->
  Forall (fun f => 0 < width (pixels f) /\ 0 < height (pixels f) /\
                   startsWith (png f) "data:image/" = true) frames ->
  exists character,
    extractCharacterFromFrames frames currentFrame options s = Some character /\
    validateCharacterData character = Some [].
Proof.
  intros Hne Hopt Hname Hab Hall.
  destruct frames as [|first rest]; [congruence|].
  unfold extractCharacterFromFrames.
  set (f := nth currentFrame (first :: rest) first).
  assert (Hf : 0 < width (pixels f) /\ 0 < height (pixels f) /\
               startsWith (png f) "data:image/" = true).
  { rewrite Forall_forall in Hall. apply Hall. subst f.
    destruct (nth_in_or_default currentFrame (first :: rest) first) as [Hin| ->];
      [exact Hin|now left]. }
  destruct Hf as (Hw & Hh & Hurl).
  destruct (calculateColliderBounds_returns _ Hw Hh) as (c & Ec).
  destruct (calculateColliderBounds_minimum _ _ Ec) as (Hcw & Hch).
  assert (Hopts : nullish (js_default options (VObj [])) = false /\
                  prop (js_default options (VObj [])) "name" = VUndef /\
                  prop (js_default options (VObj [])) "abilities" = VUndef).
  { destruct options; cbn [js_default nullish]; auto; congruence. }
  destruct Hopts as (-> & -> & ->). rewrite Ec. cbn [js_default].
  eexists. split; [reflexivity|].
  apply validateCharacterData_accepts. unfold acceptable. read_fields.
  split; [|split; [|split]].
  - exists "Character". split; [reflexivity|]. split; [reflexivity|]. cbn. lia.
  - exists (png f). split; [reflexivity|exact Hurl].
  - split; [reflexivity|]. unfold collider_value. read_fields.
    unfold num_lit. cbn [ToNumber].
    split; right; right; eexists; (split; [reflexivity|]).
    + change (inject_Z 8 <= inject_Z (w c))%Q. rewrite <- Zle_Qle. lia.
    + change (inject_Z 8 <= inject_Z (h c))%Q. rewrite <- Zle_Qle. lia.
  - split; [reflexivity|]. read_fields. unfold num_lit.
    split; eexists; (split; [reflexivity|]); right; eexists;
      (split; [reflexivity|]); split; compute; discriminate.
Qed.

(** ** The line of [drawLinePixel] *)





(** ** Colours *)

Lemma hex_digit_plain (c : ascii) (v : Z) :
  hex_digit_value c = Some v ->
  (0 <= v <= 15)%Z /\ is_space c = false /\
  Ascii.eqb c "-" = false /\ Ascii.eqb c "+" = false /\
  Ascii.eqb c "x" = false /\ Ascii.eqb c "X" = false /\ Ascii.eqb c "#" = false.
Proof.
  destruct c as [[] [] [] [] [] [] [] []]; vm_compute; intros [= <-];
    repeat split; discriminate.
Qed.

Lemma parseInt16_two_digits (c d : ascii) (v u : Z) :
  hex_digit_value c = Some v -> hex_digit_value d = Some u ->
  parseInt16 (String c (String d EmptyString)) = Fin (inject_Z (16 * v + u)).
Proof.
  intros Hc Hd.
  destruct (hex_digit_plain c v Hc) as (_ & Sc & Mc & Pc & _).
  destruct (hex_digit_plain d u Hd) as (_ & _ & _ & _ & Xd & XXd & _).
  unfold parseInt16. cbn [trimStart]. rewrite Sc, Mc, Pc. cbn [orb].
  rewrite Xd, XXd. cbn [orb]. rewrite andb_false_r.
  cbn [radix16_prefix]. rewrite Hc, Hd. do 2 f_equal; lia.
Qed.

(** X24.  [hexToRgba] reads the three notations of a colour as written:
    of [#rrggbb] each component is sixteen times its first digit plus
    its second and the alpha is 255; [#rrggbbaa] gives the alpha the
    same way; [#rgb] counts every digit twice, which is seventeen times
    the digit.  Every component is then an integer from 0 to 255.  The
    digits may be of either case. *)
Theorem hexToRgba_digits :
  (forall c1 c2 c3 c4 c5 c6 v1 v2 v3 v4 v5 v6,
     hex_digit_value c1 = Some v1 -> hex_digit_value c2 = Some v2 ->
     hex_digit_value c3 = Some v3 -> hex_digit_value c4 = Some v4 ->
     hex_digit_value c5 = Some v5 -> hex_digit_value c6 = Some v6 ->
     hexToRgba (String "#" (String c1 (String c2 (String c3 (String c4
                  (String c5 (String c6 EmptyString)))))))
     = [ Fin (inject_Z (16 * v1 + v2)); Fin (inject_Z (16 * v3 + v4));
         Fin (inject_Z (16 * v5 + v6)); Fin (inject_Z 255) ] /\
     (0 <= 16 * v1 + v2 <= 255)%Z /\ (0 <= 16 * v3 + v4 <= 255)%Z /\
     (0 <= 16 * v5 + v6 <= 255)%Z) /\
  (forall c1 c2 c3 c4 c5 c6 c7 c8 v1 v2 v3 v4 v5 v6 v7 v8,
     hex_digit_value c1 = Some v1 -> hex_digit_value c2 = Some v2 ->
     hex_digit_value c3 = Some v3 -> hex_digit_value c4 = Some v4 ->
     hex_digit_value c5 = Some v5 -> hex_digit_value c6 = Some v6 ->
     hex_digit_value c7 = Some v7 -> hex_digit_value c8 = Some v8 ->
     hexToRgba (String "#" (String c1 (String c2 (String c3 (String c4
                  (String c5 (String c6 (String c7 (String c8 EmptyString)))))))))
     = [ Fin (inject_Z (16 * v1 + v2)); Fin (inject_Z (16 * v3 + v4));
         Fin (inject_Z (16 * v5 + v6)); Fin (inject_Z (16 * v7 + v8)) ] /\
     (0 <= 16 * v7 + v8 <= 255)%Z) /\
  (forall c1 c2 c3 v1 v2 v3,
     hex_digit_value c1 = Some v1 -> hex_digit_value c2 = Some v2 ->
     hex_digit_value c3 = Some v3 ->
     hexToRgba (String "#" (String c1 (String c2 (String c3 EmptyString))))
     = [ Fin (inject_Z (17 * v1)); Fin (inject_Z (17 * v2));
         Fin (inject_Z (17 * v3)); Fin (inject_Z 255) ]).
Proof.
  split; [|split].
  - intros c1 c2 c3 c4 c5 c6 v1 v2 v3 v4 v5 v6 H1 H2 H3 H4 H5 H6.
    split.
    + unfold hexToRgba.
      cbn [remove_first Ascii.eqb Bool.eqb String.length Nat.eqb slice substring Nat.sub].
      now rewrite (parseInt16_two_digits _ _ _ _ H1 H2), (parseInt16_two_digits _ _ _ _ H3 H4),
        (parseInt16_two_digits _ _ _ _ H5 H6).
    + apply hex_digit_plain in H1, H2, H3, H4, H5, H6. lia.
  - intros c1 c2 c3 c4 c5 c6 c7 c8 v1 v2 v3 v4 v5 v6 v7 v8 H1 H2 H3 H4 H5 H6 H7 H8.
    split.
    + unfold hexToRgba.
      cbn [remove_first Ascii.eqb Bool.eqb String.length Nat.eqb slice substring Nat.sub].
      now rewrite (parseInt16_two_digits _ _ _ _ H1 H2), (parseInt16_two_digits _ _ _ _ H3 H4),
        (parseInt16_two_digits _ _ _ _ H5 H6), (parseInt16_two_digits _ _ _ _ H7 H8).
    + apply hex_digit_plain in H7, H8. lia.
  - intros c1 c2 c3 v1 v2 v3 H1 H2 H3.
    unfold hexToRgba.
    cbn [remove_first Ascii.eqb Bool.eqb String.length Nat.eqb double_each
         slice substring Nat.sub].
    rewrite (parseInt16_two_digits _ _ _ _ H1 H1), (parseInt16_two_digits _ _ _ _ H2 H2),
      (parseInt16_two_digits _ _ _ _ H3 H3).
    replace (16 * v1 + v1)%Z with (17 * v1)%Z by lia.
    replace (16 * v2 + v2)%Z with (17 * v2)%Z by lia.
    replace (16 * v3 + v3)%Z with (17 * v3)%Z by lia.
    reflexivity.
Qed.

(** ** The bucket fill *)

Lemma length_store (i : nat) (v : Z) (l : list Z) :
  List.length (store i v l) = List.length l.
Proof.
  revert i. induction l as [|b r IH]; intros [|i]; cbn [store List.length]; auto.
Qed.

Lemma nth_error_store (i j : nat) (v : Z) (l : list Z) :
  nth_error (store i v l) j
  = if Nat.eqb j i
    then match nth_error l j with Some _ => Some (clamped_byte v) | None => None end
    else nth_error l j.
Proof.
  revert i j. induction l as [|b r IH]; intros i j.
  - cbn [store]. destruct (Nat.eqb j i); destruct j; reflexivity.
  - destruct i as [|i], j as [|j]; cbn [store nth_error Nat.eqb]; try reflexivity.
    apply IH.
Qed.

Lemma length_store_rgba (d : list Z) (i : Z) (c : rgba) :
  List.length (store_rgba d i c) = List.length d.
Proof. unfold store_rgba. now rewrite !length_store. Qed.

Lemma byte_at_store_rgba_other (d : list Z) (i j : Z) (c : rgba) :
  (0 <= i)%Z -> (j < i \/ i + 3 < j)%Z ->
  byte_at (store_rgba d i c) j = byte_at d j.
Proof.
  intros Hi Hj. unfold byte_at, store_rgba.
  destruct (Z.ltb_spec j 0) as [|Hj0]; [reflexivity|].
  rewrite !nth_error_store.
  repeat match goal with
         | |- context [Nat.eqb ?a ?b] => destruct (Nat.eqb_spec a b); [lia|]
         end.
  reflexivity.
Qed.

Lemma byte_at_some (d : list Z) (i : Z) :
  (0 <= i < Z.of_nat (List.length d))%Z -> exists b, byte_at d i = Some b.
Proof.
  intros Hi. unfold byte_at. destruct (Z.ltb_spec i 0); [lia|].
  destruct (nth_error d (Z.to_nat i)) as [b|] eqn:E; [now exists b|].
  apply nth_error_None in E. lia.
Qed.

Lemma byte_at_store_rgba_same (d : list Z) (i : Z) (c : rgba) :
  (0 <= i)%Z -> (i + 3 < Z.of_nat (List.length d))%Z ->
  byte_at (store_rgba d i c) i = Some (clamped_byte c.(red)) /\
  byte_at (store_rgba d i c) (i + 1) = Some (clamped_byte c.(green)) /\
  byte_at (store_rgba d i c) (i + 2) = Some (clamped_byte c.(blue)) /\
  byte_at (store_rgba d i c) (i + 3) = Some (clamped_byte c.(alpha)).
Proof.
  intros Hi Hlen.
  assert (H0 : exists b, nth_error d (Z.to_nat i) = Some b).
  { destruct (nth_error d (Z.to_nat i)) eqn:E; [eauto|apply nth_error_None in E; lia]. }
  assert (H1 : exists b, nth_error d (Z.to_nat (i + 1)) = Some b).
  { destruct (nth_error d (Z.to_nat (i + 1))) eqn:E; [eauto|apply nth_error_None in E; lia]. }
  assert (H2 : exists b, nth_error d (Z.to_nat (i + 2)) = Some b).
  { destruct (nth_error d (Z.to_nat (i + 2))) eqn:E; [eauto|apply nth_error_None in E; lia]. }
  assert (H3 : exists b, nth_error d (Z.to_nat (i + 3)) = Some b).
  { destruct (nth_error d (Z.to_nat (i + 3))) eqn:E; [eauto|apply nth_error_None in E; lia]. }
  destruct H0 as (b0 & E0), H1 as (b1 & E1), H2 as (b2 & E2), H3 as (b3 & E3).
  unfold byte_at, store_rgba.
  repeat match goal with
         | |- context [(?a <? 0)%Z] => destruct (Z.ltb_spec a 0); [lia|]
         end.
  rewrite !nth_error_store.
  repeat match goal with
         | |- context [Nat.eqb ?a ?b] =>
             destruct (Nat.eqb_spec a b); try lia
         end.
  rewrite E0, E1, E2, E3. auto.
Qed.

Lemma same_rgba_eq (d : list Z) (i : Z) (c c' : rgba) :
  same_rgba d i c = true -> same_rgba d i c' = true -> c = c'.
Proof.
  unfold same_rgba.
  destruct (byte_at d i), (byte_at d (i + 1)), (byte_at d (i + 2)), (byte_at d (i + 3));
    try discriminate.
  intros H H'.
  apply andb_true_iff in H, H'. destruct H as (H & Ha), H' as (H' & Ha').
  apply andb_true_iff in H, H'. destruct H as (H & Hb), H' as (H' & Hb').
  apply andb_true_iff in H, H'. destruct H as (Hr & Hg), H' as (Hr' & Hg').
  apply Z.eqb_eq in Ha, Ha', Hb, Hb', Hr, Hr', Hg, Hg'.
  destruct c, c'; cbn [red green blue alpha] in *. congruence.
Qed.

Lemma same_rgba_store_other (d : list Z) (i j : Z) (c c' : rgba) :
  (0 <= i)%Z -> (j + 3 < i \/ i + 3 < j)%Z ->
  same_rgba (store_rgba d i c) j c' = same_rgba d j c'.
Proof.
  intros Hi Hj. unfold same_rgba.
  now rewrite !byte_at_store_rgba_other by lia.
Qed.

Lemma same_rgba_store_same (d : list Z) (i : Z) (c c' : rgba) :
  (0 <= i)%Z -> (i + 3 < Z.of_nat (List.length d))%Z ->
  same_rgba (store_rgba d i c) i c' = true <-> c' = kept c.
Proof.
  intros Hi Hlen.
  destruct (byte_at_store_rgba_same d i c Hi Hlen) as (E0 & E1 & E2 & E3).
  unfold same_rgba. rewrite E0, E1, E2, E3. unfold kept.
  rewrite !andb_true_iff, !Z.eqb_eq.
  destruct c'; cbn [red green blue alpha]. split.
  - intros (((-> & ->) & ->) & ->). reflexivity.
  - intros [= -> -> -> ->]. auto.
Qed.

Lemma in_raster_dec (w h : Z) (p : Z * Z) : in_raster w h p \/ ~ in_raster w h p.
Proof. unfold in_raster. lia. Qed.

Lemma pair_eq_dec (p q : Z * Z) : p = q \/ p <> q.
Proof.
  destruct p as [a b], q as [a' b'].
  destruct (Z.eq_dec a a') as [->|]; [|right; congruence].
  destruct (Z.eq_dec b b') as [->|]; [now left|right; congruence].
Qed.

Lemma pixel_index_range (w h : Z) (p : Z * Z) :
  in_raster w h p ->
  (0 <= fst p + snd p * w < w * h)%Z.
Proof.
  intros ((Hx0 & Hx1) & (Hy0 & Hy1)).
  assert (0 <= snd p * w)%Z by (apply Z.mul_nonneg_nonneg; lia).
  assert (snd p * w <= (h - 1) * w)%Z by (apply Z.mul_le_mono_nonneg_r; lia).
  lia.
Qed.

Lemma pixel_index_apart (w h : Z) (p q : Z * Z) :
  in_raster w h p -> in_raster w h q -> p <> q ->
  (pixel_index w p + 3 < pixel_index w q \/ pixel_index w q + 3 < pixel_index w p)%Z.
Proof.
  intros ((Hx0 & Hx1) & (Hy0 & Hy1)) ((Hx0' & Hx1') & (Hy0' & Hy1')) Hne.
  unfold pixel_index.
  destruct p as [a b], q as [a' b']; cbn [fst snd] in *.
  destruct (Z.lt_trichotomy b b') as [Hlt|[->|Hgt]].
  - assert ((b + 1) * w <= b' * w)%Z by (apply Z.mul_le_mono_nonneg_r; lia). lia.
  - assert (a <> a') by congruence. lia.
  - assert ((b' + 1) * w <= b * w)%Z by (apply Z.mul_le_mono_nonneg_r; lia). lia.
Qed.

Section Bucket.

Variable cv : canvas.
Variables T R : rgba.
Variable start : Z * Z.
Hypothesis Hlen : List.length cv.(data) = 4 * (cv.(width) * cv.(height)).
Hypothesis Hdiffer : kept R <> T.

Let w := Z.of_nat cv.(width).
Let h := Z.of_nat cv.(height).

Lemma inside_index (d : list Z) (p : Z * Z) :
  List.length d = List.length cv.(data) -> inside cv p ->
  (0 <= pixel_index w p)%Z /\ (pixel_index w p + 3 < Z.of_nat (List.length d))%Z.
Proof.
  intros Hd Hp. pose proof (pixel_index_range _ _ _ Hp) as Hr.
  fold w h in Hr. unfold pixel_index. rewrite Hd, Hlen.
  rewrite !Nat2Z.inj_mul. fold w h. change (Z.of_nat 4) with 4%Z. lia.
Qed.

Lemma region_inside (p : Z * Z) : region cv T start p -> inside cv p.
Proof. now destruct 1. Qed.

Lemma region_has_start (p : Z * Z) :
  region cv T start p -> inside cv start /\ coloured cv start T.
Proof. induction 1; auto. Qed.

Lemma filled_in_region (d : list Z) (s : list (Z * Z)) (p : Z * Z) :
  fill_invariant cv T R start d s -> inside cv p -> filled cv T R d p ->
  region cv T start p.
Proof.
  intros (_ & I2 & _) Hp (H0 & Hd).
  destruct (I2 p Hp) as [Hsame|(_ & Hr)]; [|exact Hr].
  exfalso. apply Hdiffer. rewrite Hsame in Hd.
  exact (same_rgba_eq _ _ _ _ Hd H0).
Qed.

(** Dropping from the stack an entry that needs no recolouring. *)
Lemma fill_invariant_skip (d : list Z) (q : Z * Z) (s : list (Z * Z)) :
  fill_invariant cv T R start d (q :: s) ->
  ~ inside cv q \/ same_rgba d (pixel_index w q) T = false ->
  fill_invariant cv T R start d s.
Proof.
  intros (I1 & I2 & I3 & I4 & I5) Hq.
  split; [exact I1|]. split; [exact I2|]. split; [|split].
  - intros p r Hp Hf Hb.
    destruct (I3 p r Hp Hf Hb) as [[<-|Hin]|Hrest]; auto; destruct Hq; auto.
  - intros r Hr. apply I4. now right.
  - destruct I5 as [[<-|Hin]|Hrest]; auto; destruct Hq; auto.
Qed.

(** Recolouring the entry on top of the stack and pushing its four
    neighbours. *)
Lemma fill_invariant_fill (d : list Z) (q : Z * Z) (s : list (Z * Z)) :
  fill_invariant cv T R start d (q :: s) ->
  inside cv q -> same_rgba d (pixel_index w q) T = true ->
  fill_invariant cv T R start (store_rgba d (pixel_index w q) R)
    ((fst q, snd q - 1) :: (fst q, snd q + 1) :: (fst q - 1, snd q)
       :: (fst q + 1, snd q) :: s)%Z.
Proof.
  intros Hinv Hq HqT.
  pose proof Hinv as (I1 & I2 & I3 & I4 & I5).
  destruct (inside_index d q I1 Hq) as (Hi0 & Hi3).
  assert (Fother : forall p c, inside cv p -> p <> q ->
            same_rgba (store_rgba d (pixel_index w q) R) (pixel_index w p) c
            = same_rgba d (pixel_index w p) c).
  { intros p c Hp Hne. apply same_rgba_store_other; [exact Hi0|].
    destruct (pixel_index_apart w h p q Hp Hq Hne); lia. }
  assert (Fsame : forall c,
            same_rgba (store_rgba d (pixel_index w q) R) (pixel_index w q) c = true
            <-> c = kept R).
  { intros c. now apply same_rgba_store_same. }
  assert (FqT : same_rgba (store_rgba d (pixel_index w q) R) (pixel_index w q) T = false).
  { destruct (same_rgba (store_rgba d (pixel_index w q) R) (pixel_index w q) T) eqn:E;
      [|reflexivity].
    apply Fsame in E. congruence. }
  assert (Hq0 : coloured cv q T).
  { destruct (I2 q Hq) as [Hsame|((_ & HR) & _)].
    - unfold coloured. fold w. now rewrite <- Hsame.
    - exfalso. apply Hdiffer. exact (same_rgba_eq _ _ _ _ HR HqT). }
  assert (Hqfilled : filled cv T R (store_rgba d (pixel_index w q) R) q).
  { split; [exact Hq0|]. fold w. now apply Fsame. }
  assert (Hmono : forall p, inside cv p -> filled cv T R d p ->
            filled cv T R (store_rgba d (pixel_index w q) R) p).
  { intros p Hp (H0 & Hd). destruct (pair_eq_dec p q) as [->|Hne]; [exact Hqfilled|].
    split; [exact H0|]. fold w in Hd |- *. now rewrite Fother. }
  assert (Hback : forall p, inside cv p ->
            filled cv T R (store_rgba d (pixel_index w q) R) p ->
            p = q \/ filled cv T R d p).
  { intros p Hp (H0 & Hd). destruct (pair_eq_dec p q) as [->|Hne]; [now left|].
    right. split; [exact H0|]. fold w in Hd |- *. now rewrite Fother in Hd. }
  assert (Hqregion : region cv T start q).
  { destruct (I4 q (or_introl eq_refl)) as [->|(p & Hp & Hf & Hb)].
    - now apply region_start.
    - apply (region_step _ _ _ p q); auto.
      exact (filled_in_region d (q :: s) p Hinv Hp Hf). }
  split; [|split; [|split; [|split]]].
  - now rewrite length_store_rgba.
  - intros p Hp. destruct (pair_eq_dec p q) as [->|Hne]; [now right|].
    destruct (I2 p Hp) as [Hsame|(Hf & Hr)].
    + left. intros c. fold w in Hsame |- *. now rewrite Fother.
    + right. split; [now apply Hmono|exact Hr].
  - intros p r Hp Hf Hb.
    destruct (Hback p Hp Hf) as [->|Hf'].
    + left. destruct q as [qx qy]. destruct r as [rx ry].
      unfold beside in Hb. cbn [fst snd In] in *.
      destruct Hb as [(-> & [->| ->])|(-> & [->| ->])]; auto.
    + destruct (I3 p r Hp Hf' Hb) as [[<-|Hin]|[Hout|HrT]].
      * right. right. exact FqT.
      * left. now do 4 right.
      * right. now left.
      * destruct (in_raster_dec w h r) as [Hr|Hr]; [|right; now left].
        right. right. destruct (pair_eq_dec r q) as [->|Hne]; [exact FqT|].
        now rewrite Fother.
  - intros r [<-|[<-|[<-|[<-|Hin]]]];
      try (right; exists q; split; [exact Hq|split; [exact Hqfilled|]];
           unfold beside; cbn [fst snd]; lia).
    destruct (I4 r (or_intror Hin)) as [->|(p & Hp & Hf & Hb)]; [now left|].
    right. exists p. split; [exact Hp|]. split; [now apply Hmono|exact Hb].
  - destruct I5 as [[<-|Hin]|[Hout|HsT]].
    + right. right. exact FqT.
    + left. now do 4 right.
    + right. now left.
    + destruct (in_raster_dec w h start) as [Hs|Hs]; [|right; now left].
      right. right. destruct (pair_eq_dec start q) as [->|Hne]; [exact FqT|].
      now rewrite Fother.
Qed.

Lemma filter_length_flip {A : Type} (f g : A -> bool) (x : A) (l : list A) :
  NoDup l -> In x l -> f x = true -> g x = false ->
  (forall y, In y l -> y <> x -> g y = f y) ->
  List.length (filter g l) + 1 = List.length (filter f l).
Proof.
  intros Hnd Hin Hf Hg Hrest.
  induction l as [|y r IH]; [contradiction|].
  inversion Hnd as [|? ? Hnotin Hnd']; subst.
  destruct Hin as [->|Hin].
  - cbn [filter]. rewrite Hf, Hg. cbn [List.length].
    assert (E : filter g r = filter f r).
    { apply filter_ext_in. intros z Hz. apply Hrest; [now right|].
      intros ->. contradiction. }
    rewrite E. lia.
  - assert (Hy : g y = f y).
    { apply Hrest; [now left|]. intros ->. contradiction. }
    cbn [filter]. rewrite Hy.
    assert (IH' := IH Hnd' Hin (fun z Hz => Hrest z (or_intror Hz))).
    destruct (f y); cbn [List.length]; lia.
Qed.

Lemma targets_left_fill (d : list Z) (q : Z * Z) :
  List.length d = List.length cv.(data) -> inside cv q ->
  same_rgba d (pixel_index w q) T = true ->
  targets_left cv T (store_rgba d (pixel_index w q) R) + 1 = targets_left cv T d.
Proof.
  intros Hd Hq HqT.
  destruct (inside_index d q Hd Hq) as (Hi0 & Hi3).
  pose proof (pixel_index_range w h q Hq) as Hr.
  set (k := Z.to_nat (fst q + snd q * w)).
  assert (Hk : pixel_index w q = (4 * Z.of_nat k)%Z).
  { unfold pixel_index. subst k. rewrite Z2Nat.id by lia. ring. }
  unfold targets_left.
  apply (filter_length_flip _ _ k).
  - apply seq_NoDup.
  - apply in_seq. subst k. unfold w, h in Hr. 
    assert (Z.of_nat (width cv * height cv) = Z.of_nat (width cv) * Z.of_nat (height cv))%Z
      by apply Nat2Z.inj_mul.
    lia.
  - now rewrite <- Hk.
  - rewrite <- Hk.
    destruct (same_rgba (store_rgba d (pixel_index w q) R) (pixel_index w q) T) eqn:E;
      [|reflexivity].
    apply same_rgba_store_same in E; [congruence|exact Hi0|exact Hi3].
  - intros y _ Hy. apply same_rgba_store_other; [exact Hi0|]. rewrite Hk. lia.
Qed.

Lemma in_raster_test (p : Z * Z) :
  ((fst p <? 0) || (snd p <? 0) || (w <=? fst p) || (h <=? snd p))%Z = false
  <-> inside cv p.
Proof.
  unfold inside, in_raster. fold w h.
  rewrite !orb_false_iff, !Z.ltb_ge, !Z.leb_gt. lia.
Qed.

Lemma fill_loop_spec (fuel : nat) :
  forall (d : list Z) (s : list (Z * Z)),
    fill_invariant cv T R start d s ->
    4 * targets_left cv T d + List.length s < fuel ->
    exists d', fill_loop fuel w h T R d s = Some d' /\
               fill_invariant cv T R start d' [].
Proof.
  induction fuel as [|fuel IH]; intros d s Hinv Hfuel; [lia|].
  destruct s as [|[cx cy] s]; cbn [fill_loop].
  { exists d. split; [reflexivity|exact Hinv]. }
  cbn [List.length] in Hfuel.
  pose proof (in_raster_test (cx, cy)) as Htest. cbn [fst snd] in Htest.
  destruct ((cx <? 0) || (cy <? 0) || (w <=? cx) || (h <=? cy))%Z.
  - apply IH; [|lia].
    apply (fill_invariant_skip d (cx, cy)); [exact Hinv|].
    left. intros Hin. apply Htest in Hin. discriminate.
  - assert (Hq : inside cv (cx, cy)) by now apply Htest.
    change ((cx + cy * w) * 4)%Z with (pixel_index w (cx, cy)).
    destruct (same_rgba d (pixel_index w (cx, cy)) T) eqn:HqT.
    + apply IH.
      * exact (fill_invariant_fill d (cx, cy) s Hinv Hq HqT).
      * pose proof (targets_left_fill d (cx, cy) (proj1 Hinv) Hq HqT).
        cbn [List.length]. lia.
    + apply IH; [|lia].
      apply (fill_invariant_skip d (cx, cy)); [exact Hinv|]. now right.
Qed.

Lemma fill_invariant_start :
  fill_invariant cv T R start cv.(data) [start].
Proof.
  assert (Hnone : forall p, ~ filled cv T R cv.(data) p).
  { intros p (H0 & H1). apply Hdiffer. exact (same_rgba_eq _ _ _ _ H1 H0). }
  split; [reflexivity|]. split; [now left|]. split; [|split].
  - intros p q _ Hf. destruct (Hnone p Hf).
  - intros q [<-|[]]. now left.
  - left. now left.
Qed.

Lemma fill_invariant_done (d : list Z) :
  fill_invariant cv T R start d [] ->
  (forall p, region cv T start p ->
     same_rgba d (pixel_index w p) (kept R) = true) /\
  (forall p, inside cv p -> ~ region cv T start p ->
     forall c, same_rgba d (pixel_index w p) c = same_rgba cv.(data) (pixel_index w p) c).
Proof.
  intros (I1 & I2 & I3 & I4 & I5).
  assert (Hall : forall p, region cv T start p -> filled cv T R d p).
  { induction 1 as [Hs Hc|p q Hp IHp Hb Hq Hc].
    - destruct (I2 start Hs) as [Hsame|(Hf & _)]; [|exact Hf].
      destruct I5 as [[]|[Hout|HsT]]; [contradiction|].
      rewrite Hsame in HsT. unfold coloured in Hc. congruence.
    - destruct (I2 q Hq) as [Hsame|(Hf & _)]; [|exact Hf].
      destruct (I3 p q (region_inside p Hp) IHp Hb) as [[]|[Hout|HqT]]; [contradiction|].
      rewrite Hsame in HqT. unfold coloured in Hc. congruence. }
  split.
  - intros p Hp. exact (proj2 (Hall p Hp)).
  - intros p Hp Hnot. destruct (I2 p Hp) as [Hsame|(_ & Hr)]; [exact Hsame|contradiction].
Qed.

End Bucket.

Lemma fill_loop_more_fuel (w h : Z) (T R : rgba) (fuel : nat) :
  forall (d : list Z) (s : list (Z * Z)) (d' : list Z),
    fill_loop fuel w h T R d s = Some d' ->
    forall fuel', fuel <= fuel' -> fill_loop fuel' w h T R d s = Some d'.
Proof.
  induction fuel as [|fuel IH]; intros d s d' H fuel' Hle; [discriminate|].
  destruct fuel' as [|fuel']; [lia|].
  cbn [fill_loop] in *.
  destruct s as [|[cx cy] s]; [exact H|].
  destruct ((cx <? 0) || (cy <? 0) || (w <=? cx) || (h <=? cy))%Z;
    [apply IH; [exact H|lia]|].
  destruct (same_rgba d ((cx + cy * w) * 4) T); apply IH; try exact H; lia.
Qed.

Lemma byte_at_in (d : list Z) (i : Z) (b : Z) : byte_at d i = Some b -> In b d.
Proof.
  unfold byte_at. destruct (i <? 0)%Z; [discriminate|]. apply nth_error_In.
Qed.

Lemma same_rgba_kept (d : list Z) (i : Z) (c : rgba) :
  Forall (fun b => 0 <= b <= 255)%Z d -> same_rgba d i c = true -> kept c = c.
Proof.
  intros Hd. rewrite Forall_forall in Hd. unfold same_rgba.
  destruct (byte_at d i) as [r|] eqn:Er; [|discriminate].
  destruct (byte_at d (i + 1)) as [g|] eqn:Eg; [|discriminate].
  destruct (byte_at d (i + 2)) as [b|] eqn:Eb; [|discriminate].
  destruct (byte_at d (i + 3)) as [a|] eqn:Ea; [|discriminate].
  rewrite !andb_true_iff, !Z.eqb_eq. intros (((Hr & Hg) & Hb) & Ha).
  apply byte_at_in, Hd in Er, Eg, Eb, Ea.
  destruct c; cbn [red green blue alpha] in *; subst.
  unfold kept, clamped_byte. cbn [red green blue alpha]. f_equal; lia.
Qed.

(** X25.  On a raster of bytes, [floodFill] with a replacement that the
    pixel array keeps as a colour other than the target ends, whatever
    the start, and recolours a region exactly: every pixel joined to the
    start through pixels of the target colour, side by side, has the
    replacement colour afterwards, and every other pixel of the raster
    is as it was.  The size of the raster does not change. *)
Theorem floodFill_region (cv : canvas) (x y : Z) (targetColor replacementColor : rgba) :
  0 < cv.(width) -> 0 < cv.(height) ->
  List.length cv.(data) = 4 * (cv.(width) * cv.(height)) ->
  Forall (fun b => 0 <= b <= 255)%Z cv.(data) ->
  kept replacementColor <> targetColor ->
  exists out,
    (forall fuel, 4 * (cv.(width) * cv.(height)) + 2 <= fuel ->
       floodFill fuel cv x y targetColor replacementColor = Some out) /\
    out.(width) = cv.(width) /\ out.(height) = cv.(height) /\
    List.length out.(data) = List.length cv.(data) /\
    (forall p, region cv targetColor (x, y) p -> coloured out p (kept replacementColor)) /\
    (forall p, inside cv p -> ~ region cv targetColor (x, y) p -> same_pixel cv out p).
Proof.
  intros Hw Hh Hlen Hbytes Hdiffer.
  unfold floodFill.
  destruct (Nat.eqb_spec (width cv) 0); [lia|].
  destruct (Nat.eqb_spec (height cv) 0); [lia|]. cbn [orb].
  change ((x + y * Z.of_nat (width cv)) * 4)%Z
    with (pixel_index (Z.of_nat (width cv)) (x, y)).
  destruct (same_rgba (data cv) (pixel_index (Z.of_nat (width cv)) (x, y)) replacementColor)
    eqn:Early.
  - (* the start has the replacement colour already *)
    exists cv. split; [reflexivity|]. split; [reflexivity|]. split; [reflexivity|].
    split; [reflexivity|]. split.
    + intros p Hp. exfalso.
      destruct (region_has_start cv targetColor (x, y) p Hp) as (_ & Hc).
      apply Hdiffer. rewrite (same_rgba_kept _ _ _ Hbytes Early).
      exact (same_rgba_eq _ _ _ _ Early Hc).
    + intros p _ _ c. reflexivity.
  - pose proof (fill_invariant_start cv targetColor replacementColor (x, y) Hdiffer) as Hinit.
    assert (Hcount : targets_left cv targetColor (data cv) <= width cv * height cv).
    { unfold targets_left.
      etransitivity; [apply filter_length_le|]. now rewrite length_seq. }
    destruct (fill_loop_spec cv targetColor replacementColor (x, y) Hlen Hdiffer
                (4 * (width cv * height cv) + 2) (data cv) [(x, y)] Hinit)
      as (d' & Ed & Hdone); [cbn [List.length]; lia|].
    destruct (fill_invariant_done cv targetColor replacementColor (x, y) d' Hdone)
      as (Hin & Hout).
    exists {| width := width cv; height := height cv; data := d' |}.
    split; [|split; [reflexivity|split; [reflexivity|split; [exact (proj1 Hdone)|split]]]].
    + intros fuel Hfuel.
      now rewrite (fill_loop_more_fuel _ _ _ _ _ _ _ _ Ed fuel Hfuel).
    + intros p Hp. exact (Hin p Hp).
    + intros p Hp Hnot c. unfold coloured. cbn [width data].
      now rewrite (Hout p Hp Hnot c).
Qed.

(** ** The eyedropper's colour read back *)

Lemma byte_text (k : nat) :
  k < 256 ->
  exists c1 c2,
    padStart2 (toString16 (Z.of_nat k)) = String c1 (String c2 EmptyString) /\
    hex_digit_value c1 = Some (Z.of_nat k / 16)%Z /\
    hex_digit_value c2 = Some (Z.of_nat k mod 16)%Z.
Proof.
  intros Hk.
  assert (Hall : forallb
            (fun k =>
               match padStart2 (toString16 (Z.of_nat k)) with
               | String c1 (String c2 EmptyString) =>
                   match hex_digit_value c1, hex_digit_value c2 with
                   | Some a, Some b =>
                       (a =? Z.of_nat k / 16)%Z && (b =? Z.of_nat k mod 16)%Z
                   | _, _ => false
                   end
               | _ => false
               end) (seq 0 256) = true) by (vm_compute; reflexivity).
  rewrite forallb_forall in Hall.
  specialize (Hall k ltac:(apply in_seq; lia)).
  destruct (padStart2 (toString16 (Z.of_nat k))) as [|c1 [|c2 [|c3 r]]]; try discriminate.
  destruct (hex_digit_value c1) as [a|] eqn:E1; [|discriminate].
  destruct (hex_digit_value c2) as [b|] eqn:E2; [|discriminate].
  apply andb_true_iff in Hall. destruct Hall as (Ha & Hb).
  apply Z.eqb_eq in Ha, Hb. subst a b.
  exists c1, c2. split; [reflexivity|split; assumption].
Qed.

(** X26.  The colour text the eyedropper makes of a pixel is read back
    by [hexToRgba] as the pixel's red, green and blue with an alpha of
    255: the three components survive and the pixel's own alpha is
    lost. *)
Theorem hexToRgba_rgbaToHex (c : rgba) :
  (0 <= c.(red) <= 255)%Z -> (0 <= c.(green) <= 255)%Z -> (0 <= c.(blue) <= 255)%Z ->
  hexToRgba (rgbaToHex c)
  = [ Fin (inject_Z c.(red)); Fin (inject_Z c.(green)); Fin (inject_Z c.(blue));
      Fin (inject_Z 255) ].
Proof.
  intros Hr Hg Hb.
  destruct (byte_text (Z.to_nat c.(red))) as (r1 & r2 & Er & Hr1 & Hr2); [lia|].
  destruct (byte_text (Z.to_nat c.(green))) as (g1 & g2 & Eg & Hg1 & Hg2); [lia|].
  destruct (byte_text (Z.to_nat c.(blue))) as (b1 & b2 & Eb & Hb1 & Hb2); [lia|].
  rewrite Z2Nat.id in Er, Hr1, Hr2, Eg, Hg1, Hg2, Eb, Hb1, Hb2 by lia.
  unfold rgbaToHex. rewrite Er, Eg, Eb.
  unfold hexToRgba.
  cbn [append remove_first Ascii.eqb Bool.eqb String.length Nat.eqb slice substring Nat.sub].
  rewrite (parseInt16_two_digits _ _ _ _ Hr1 Hr2), (parseInt16_two_digits _ _ _ _ Hg1 Hg2),
    (parseInt16_two_digits _ _ _ _ Hb1 Hb2).
  rewrite <- !Z.div_mod by lia. reflexivity.
Qed.

End Engine.

(** * Closed instances *)

Ltac keys_differ :=
  repeat (apply NoDup_cons; [cbn; intuition discriminate|]); apply NoDup_nil.

Ltac distinct_literal :=
  repeat first
    [ apply distinct_undef | apply distinct_null | apply distinct_bool
    | apply distinct_num | apply distinct_str
    | apply distinct_arr | apply distinct_obj; [keys_differ|]
    | apply Forall_cons; cbn [snd] | apply Forall_nil ].

Ltac by_key :=
  let k := fresh "k" in
  intros k; cbn [lookup];
  repeat match goal with
         | |- context [String.eqb k ?s] =>
             destruct (String.eqb_spec k s); [subst k; cbn [String.eqb Ascii.eqb Bool.eqb]|]
         end;
  first [apply opt_rel_none | apply opt_rel_some].

Ltac same_literal_data :=
  repeat first
    [ apply same_undef | apply same_null | apply same_bool | apply same_num
    | apply same_str | apply same_arr | apply Forall2_cons | apply Forall2_nil
    | apply same_obj; by_key ].

Lemma saturated_below (r : range) (n out : num) :
  saturated r n out -> num_ltb n (bound r.(min)) = true -> out = bound r.(min).
Proof. intros (H & _ & _). exact H. Qed.

Lemma saturated_above (r : range) (n out : num) :
  saturated r n out -> num_ltb (bound r.(max)) n = true -> out = bound r.(max).
Proof. intros (_ & H & _). exact H. Qed.

(** C3 at one character with [moveSpeed: 50000], [jumpVelocity: -10] and
    a 4 by 300 collider, in a world of gravity 5000. *)
Lemma toScene_clamps_witness :
  exists scene chars o,
    toScene Sample.StringToNumber
      (toScene_input (VArr [Examples.hero]) (VArr [Examples.ground]) VUndef
         Examples.world VUndef) = Some scene /\
    prop scene "characters" = VArr chars /\
    nth_error chars 0 = Some o /\
    prop (prop o "abilities") "moveSpeed" = num_lit 800 /\
    prop (prop o "abilities") "jumpVelocity" = num_lit 100 /\
    prop (prop o "collider") "w" = num_lit 8 /\
    prop (prop o "collider") "h" = num_lit 256 /\
    prop (prop scene "world") "gravity" = num_lit 3000.
Proof.
  destruct (toScene_clamps_to_nearest_bound Sample.StringToNumber
              [Examples.hero] [Examples.ground] VUndef Examples.world VUndef
              0 Examples.hero)
    as (scene & chars & o & E & Ec & Ho & Hms & Hjv & Hw & Hh & Hg).
  - discriminate.
  - repeat constructor.
  - repeat constructor.
  - unfold CONSTRAINTS.maxCharacters; lia.
  - reflexivity.
  - exists scene, chars, o. repeat split; try assumption.
    + destruct (Hms _ eq_refl) as (r & -> & Hr).
      now rewrite (saturated_above _ _ _ Hr eq_refl).
    + destruct (Hjv _ eq_refl) as (r & -> & Hr).
      now rewrite (saturated_below _ _ _ Hr eq_refl).
    + destruct (Hw _ eq_refl) as (r & -> & Hr).
      now rewrite (saturated_below _ _ _ Hr eq_refl).
    + destruct (Hh _ eq_refl) as (r & -> & Hr).
      now rewrite (saturated_above _ _ _ Hr eq_refl).
    + destruct (Hg _ eq_refl) as (r & -> & Hr).
      now rewrite (saturated_above _ _ _ Hr eq_refl).
Defined.

(** C3 as stated fails: a [moveSpeed] of NaN is a number outside
    [50,800], and the Scene carries it as it is, at neither bound. *)
Lemma toScene_passes_NaN_through :
  prop (prop Examples.restless "abilities") "moveSpeed" = VNum NaN /\
  typeof (prop (prop Examples.restless "abilities") "moveSpeed") = "number" /\
  num_leb (bound 50) NaN && num_leb NaN (bound 800) = false /\
  exists scene chars o,
    toScene Sample.StringToNumber
      (toScene_input (VArr [Examples.restless]) (VArr []) VUndef VUndef VUndef)
    = Some scene /\
    prop scene "characters" = VArr chars /\
    nth_error chars 0 = Some o /\
    prop (prop o "abilities") "moveSpeed" = VNum NaN /\
    prop (prop o "abilities") "moveSpeed" <> VNum (bound 50) /\
    prop (prop o "abilities") "moveSpeed" <> VNum (bound 800).
Proof.
  split; [reflexivity|]. split; [reflexivity|]. split; [reflexivity|].
  eexists. eexists. eexists.
  split; [vm_compute; reflexivity|]. split; [reflexivity|]. split; [reflexivity|].
  split; [reflexivity|]. split; discriminate.
Qed.

(** C4 at five characters named a to e. *)
Lemma toScene_keeps_first_three_witness :
  exists scene chars,
    toScene Sample.StringToNumber
      (toScene_input (VArr Examples.five) (VArr []) VUndef VUndef VUndef) = Some scene /\
    prop scene "characters" = VArr chars /\
    List.length chars = 3 /\
    forall i c, i < 3 -> nth_error Examples.five i = Some c ->
      exists o, nth_error chars i = Some o /\
                prop o "imageUrl" = prop c "imageUrl" /\
                prop o "id" = js_or (prop c "id") (VStr ("char-" ++ nat_to_string (i + 1))) /\
                prop o "name" = js_or (prop c "name") (VStr "Hero").
Proof.
  apply (toScene_keeps_first_three Sample.StringToNumber Examples.five [] VUndef VUndef VUndef).
  - simpl; lia.
  - discriminate.
  - repeat constructor.
  - constructor.
Defined.

(** C10 at a character without abilities. *)
Lemma toScene_default_speeds_witness :
  exists scene chars o,
    toScene Sample.StringToNumber
      (toScene_input (VArr [Examples.named "solo"]) (VArr []) VUndef VUndef VUndef)
    = Some scene /\
    prop scene "characters" = VArr chars /\
    nth_error chars 0 = Some o /\
    prop (prop o "abilities") "moveSpeed" = num_lit 180 /\
    prop (prop o "abilities") "jumpVelocity" = num_lit 420.
Proof.
  destruct (toScene_default_speeds Sample.StringToNumber
              [Examples.named "solo"] [] VUndef VUndef VUndef 0 (Examples.named "solo"))
    as (scene & chars & o & E & Ec & Ho & Hms & Hjv & _).
  - discriminate.
  - repeat constructor.
  - constructor.
  - unfold CONSTRAINTS.maxCharacters; lia.
  - reflexivity.
  - exists scene, chars, o. repeat split; auto.
Defined.

(** C8, as amended, at a background that carries one target. *)
Lemma toScene_second_pass_witness :
  exists scene,
    toScene Sample.StringToNumber
      (toScene_input (VArr [Examples.hero]) (VArr [Examples.ground])
         (VObj [("targets", VArr [Examples.coin])]) Examples.world VUndef) = Some scene /\
    toScene Sample.StringToNumber (feed_back scene)
    = Some (with_targets scene (VArr [])).
Proof.
  assert (E : exists scene,
             toScene Sample.StringToNumber
               (toScene_input (VArr [Examples.hero]) (VArr [Examples.ground])
                  (VObj [("targets", VArr [Examples.coin])]) Examples.world VUndef)
             = Some scene)
    by (vm_compute; eexists; reflexivity).
  destruct E as (scene & E). exists scene. split; [exact E|].
  destruct (toScene_second_pass Sample.StringToNumber _ _ E) as (again & E' & -> & _).
  exact E'.
Defined.

(** C8 as stated fails: with one target on the input background, the
    second application does not return the Scene of the first. *)
Lemma toScene_second_pass_loses_targets :
  exists scene,
    toScene Sample.StringToNumber
      (toScene_input (VArr [Examples.hero]) (VArr [Examples.ground])
         (VObj [("targets", VArr [Examples.coin])]) Examples.world VUndef) = Some scene /\
    prop scene "targets" = VArr [Examples.coin] /\
    toScene Sample.StringToNumber (feed_back scene) <> Some scene.
Proof.
  eexists. split; [vm_compute; reflexivity|]. split; [reflexivity|].
  vm_compute. discriminate.
Qed.

(** C5 at a design whose only entity has an unknown type. *)
Lemma ensureScene_has_platform_and_character_witness :
  exists scene ps cs,
    ensureScene Sample.StringToNumber
      (VObj [("entities", VArr [VObj [("type", VStr "portal")]])]) = Some scene /\
    prop scene "platforms" = VArr ps /\ 1 <= List.length ps /\
    prop scene "characters" = VArr cs /\ 1 <= List.length cs.
Proof.
  apply (ensureScene_has_platform_and_character Sample.StringToNumber
           (VObj [("entities", VArr [VObj [("type", VStr "portal")]])])
           [VObj [("type", VStr "portal")]]).
  - reflexivity.
  - reflexivity.
  - repeat constructor.
Defined.

(** C2 at a design and the same design with the keys of every object in
    another order. *)
Lemma generateBuildManifest_deterministic_witness :
  distinct_keys Examples.design /\
  distinct_keys Examples.design_reordered /\
  same_value Examples.design Examples.design_reordered /\
  generateBuildManifest Sample.StringToNumber Sample.FormatDouble Examples.design
  = generateBuildManifest Sample.StringToNumber Sample.FormatDouble Examples.design_reordered.
Proof.
  assert (D : distinct_keys Examples.design)
    by (unfold Examples.design; distinct_literal).
  assert (D' : distinct_keys Examples.design_reordered)
    by (unfold Examples.design_reordered; distinct_literal).
  assert (S : same_value Examples.design Examples.design_reordered).
  { unfold Examples.design, Examples.design_reordered. same_literal_data. }
  split; [exact D|]. split; [exact D'|]. split; [exact S|].
  exact (generateBuildManifest_deterministic
           Sample.StringToNumber Sample.FormatDouble _ _ D D' S).
Defined.




(** C9 at an 8 by 8 raster with the one opaque pixel (3,4). *)
Lemma calculateColliderBounds_tight_box_witness :
  opaque (single_pixel 8 8 3 4) 3 4 /\
  exists x0 y0 x1 y1 c,
    bounding_box (single_pixel 8 8 3 4) x0 y0 x1 y1 /\
    calculateColliderBounds (single_pixel 8 8 3 4) = Some c /\
    c.(w) = Z.max 16 (Z.of_nat x1 - Z.of_nat x0 + 1 + 2 + 2) /\
    c.(h) = Z.max 24 (Z.of_nat y1 - Z.of_nat y0 + 1 + 2 + 2) /\
    (16 <= c.(w))%Z /\ (24 <= c.(h))%Z /\
    c.(offsetX) = Z.max 0 ((Z.of_nat (single_pixel 8 8 3 4).(width) - c.(w)) / 2) /\
    c.(offsetY) = Z.max 0 ((Z.of_nat (single_pixel 8 8 3 4).(height) - c.(h)) / 2).
Proof.
  assert (O : opaque (single_pixel 8 8 3 4) 3 4)
    by (unfold opaque; split; [cbn; lia|split; [cbn; lia|vm_compute; reflexivity]]).
  split; [exact O|].
  apply (proj1 calculateColliderBounds_tight_box). exists 3, 4. exact O.
Defined.

(** X2 at a character with [moveSpeed: 20], a 4 by 300 collider and a
    shoot block of speed 9000 and cooldown 10, in a world of gravity
    5000. *)
Lemma toScene_numbers_within_range_witness :
  exists scene chars o,
    toScene Sample.StringToNumber
      (toScene_input (VArr [Examples.shooter]) (VArr [Examples.ground]) VUndef
         Examples.world VUndef) = Some scene /\
    prop scene "characters" = VArr chars /\
    nth_error chars 0 = Some o /\
    (exists n, prop (prop o "abilities") "moveSpeed" = VNum n /\
               within_range CONSTRAINTS.moveSpeed n) /\
    (exists n, prop (prop o "abilities") "jumpVelocity" = VNum n /\
               within_range CONSTRAINTS.jumpVelocity n) /\
    (exists nw nh,
       prop (prop o "collider") "w" = VNum nw /\ within_range collider_size nw /\
       prop (prop o "collider") "h" = VNum nh /\ within_range collider_size nh) /\
    (exists np nc,
       prop (prop (prop o "abilities") "shoot") "projectileSpeed" = VNum np /\
       within_range CONSTRAINTS.projectileSpeed np /\
       prop (prop (prop o "abilities") "shoot") "cooldownMs" = VNum nc /\
       within_range CONSTRAINTS.cooldownMs nc) /\
    (exists g, prop (prop scene "world") "gravity" = VNum g /\
               within_range CONSTRAINTS.gravity g).
Proof.
  destruct (toScene_numbers_within_range Sample.StringToNumber
              [Examples.shooter] [Examples.ground] VUndef Examples.world VUndef
              0 Examples.shooter)
    as (scene & chars & o & E & Ec & Ho & Hms & Hjv & Hc & Hs & Hg).
  - discriminate.
  - repeat constructor.
  - repeat constructor.
  - unfold CONSTRAINTS.maxCharacters; lia.
  - reflexivity.
  - exists scene, chars, o.
    split; [exact E|]. split; [exact Ec|]. split; [exact Ho|].
    split; [exact Hms|]. split; [exact Hjv|].
    split; [exact (Hc eq_refl)|]. split; [exact (Hs eq_refl)|exact Hg].
Defined.

(** X3 at a character that asks to spawn at [x = 5000] and gives no
    [y], in a world of 1280 by 720. *)
Lemma toScene_spawn_inside_world_witness :
  exists scene chars o x y,
    toScene Sample.StringToNumber
      (toScene_input (VArr [Examples.shooter]) (VArr [Examples.ground]) VUndef
         Examples.world VUndef) = Some scene /\
    prop scene "characters" = VArr chars /\
    nth_error chars 0 = Some o /\
    prop (prop o "spawn") "x" = VNum x /\ within 0 (inject_Z 1280) x /\
    prop (prop o "spawn") "y" = VNum y /\ within 0 (inject_Z 720) y /\
    y = Fin (inject_Z 520).
Proof.
  destruct (toScene_spawn_inside_world Sample.StringToNumber
              [Examples.shooter] [Examples.ground] VUndef Examples.world VUndef
              0 Examples.shooter (inject_Z 1280) (inject_Z 720))
    as (scene & chars & o & x & y & E & Ec & Ho & Hx & Wx & Hy & Wy & _ & Dy).
  - discriminate.
  - repeat constructor.
  - repeat constructor.
  - unfold CONSTRAINTS.maxCharacters; lia.
  - reflexivity.
  - reflexivity.
  - discriminate.
  - reflexivity.
  - discriminate.
  - exists scene, chars, o, x, y.
    split; [exact E|]. split; [exact Ec|]. split; [exact Ho|].
    split; [exact Hx|]. split; [exact Wx|]. split; [exact Hy|]. split; [exact Wy|].
    apply (Dy eq_refl 720%Z eq_refl). lia.
Defined.

(** X4 at one platform. *)
Lemma toScene_platforms_pass_through_witness :
  exists scene plats,
    toScene Sample.StringToNumber
      (toScene_input (VArr [Examples.shooter]) (VArr [Examples.ground]) VUndef
         Examples.world VUndef) = Some scene /\
    prop scene "platforms" = VArr plats /\
    List.length plats = 1 /\
    exists o, nth_error plats 0 = Some o /\
              Object_keys o = ["x"; "y"; "w"; "h"] /\
              prop o "x" = num_lit 0 /\ prop o "y" = num_lit 660 /\
              prop o "w" = num_lit 1280 /\ prop o "h" = num_lit 60.
Proof.
  destruct (toScene_platforms_pass_through Sample.StringToNumber
              [Examples.shooter] [Examples.ground] VUndef Examples.world VUndef)
    as (scene & plats & E & Ep & Hl & Hat).
  - discriminate.
  - repeat constructor.
  - repeat constructor.
  - exists scene, plats.
    split; [exact E|]. split; [exact Ep|]. split; [exact Hl|].
    exact (Hat 0 Examples.ground eq_refl).
Defined.

(** X6 at a shoot block of speed 9000 and cooldown 10. *)
Lemma toScene_shoot_witness :
  exists scene chars o,
    toScene Sample.StringToNumber
      (toScene_input (VArr [Examples.shooter]) (VArr [Examples.ground]) VUndef
         Examples.world VUndef) = Some scene /\
    prop scene "characters" = VArr chars /\
    nth_error chars 0 = Some o /\
    prop (prop (prop o "abilities") "shoot") "projectileSpeed" = num_lit 2000 /\
    prop (prop (prop o "abilities") "shoot") "cooldownMs" = num_lit 80.
Proof.
  destruct (toScene_shoot Sample.StringToNumber
              [Examples.shooter] [Examples.ground] VUndef Examples.world VUndef
              0 Examples.shooter)
    as (scene & chars & o & E & Ec & Ho & _ & Hs).
  - discriminate.
  - repeat constructor.
  - repeat constructor.
  - unfold CONSTRAINTS.maxCharacters; lia.
  - reflexivity.
  - destruct (Hs eq_refl) as (Hp & Hc).
    exists scene, chars, o.
    split; [exact E|]. split; [exact Ec|]. split; [exact Ho|]. split.
    + destruct (Hp _ eq_refl) as (r & -> & Hr).
      now rewrite (saturated_above _ _ _ Hr eq_refl).
    + destruct (Hc _ eq_refl) as (r & -> & Hr).
      now rewrite (saturated_below _ _ _ Hr eq_refl).
Defined.

(** X7 at abilities [jump: true], [slide: "yes"] and [dash: true]. *)
Lemma toScene_abilities_kept_witness :
  exists scene chars o,
    toScene Sample.StringToNumber
      (toScene_input (VArr [Examples.shooter]) (VArr [Examples.ground]) VUndef
         Examples.world VUndef) = Some scene /\
    prop scene "characters" = VArr chars /\
    nth_error chars 0 = Some o /\
    prop (prop o "abilities") "jump" = VBool true /\
    prop (prop o "abilities") "slide" = VUndef /\
    prop (prop o "abilities") "dash" = VUndef.
Proof.
  destruct (toScene_abilities_kept Sample.StringToNumber
              [Examples.shooter] [Examples.ground] VUndef Examples.world VUndef
              0 Examples.shooter)
    as (scene & chars & o & E & Ec & Ho & Hb & Hn & Hk).
  - discriminate.
  - repeat constructor.
  - repeat constructor.
  - unfold CONSTRAINTS.maxCharacters; lia.
  - reflexivity.
  - exists scene, chars, o.
    split; [exact E|]. split; [exact Ec|]. split; [exact Ho|].
    split; [|split].
    + apply Hb; [now left|reflexivity].
    + apply Hn; [right; now left|discriminate].
    + apply Hk. cbn [In]. intuition discriminate.
Defined.

(** X8 at a second character with a four-character payload. *)
Lemma validateAssets_sprite_limit_witness :
  validateAssets Sample.FormatDouble
    (validateAssets_input VUndef (VArr [Examples.named "a"; Examples.inline_sprite]))
  = Some [].
Proof.
  apply (validateAssets_sprite_limit Sample.FormatDouble
           [Examples.named "a"] [] Examples.inline_sprite "image/png;base64" "AAAA").
  - repeat constructor.
  - constructor.
  - unfold CONSTRAINTS.maxCharacters. simpl. lia.
  - reflexivity.
  - reflexivity.
  - reflexivity.
Defined.

(** X10 at a remote background and one small inline sprite. *)
Lemma validateAssets_valid_iff_witness :
  exists errs,
    validateAssets Sample.FormatDouble
      (validateAssets_input Examples.remote_background (VArr [Examples.inline_sprite]))
    = Some errs /\
    (errs = [] <->
     oversize bgMaxBytes (prop Examples.remote_background "imageUrl") = false /\
     Forall (fun c => oversize spriteMaxBytes (prop c "imageUrl") = false)
       [Examples.inline_sprite] /\
     List.length [Examples.inline_sprite] <= CONSTRAINTS.maxCharacters).
Proof.
  apply (validateAssets_valid_iff Sample.FormatDouble
           Examples.remote_background [Examples.inline_sprite]).
  - exists false. reflexivity.
  - repeat constructor. exists true. reflexivity.
Defined.

(** X11 at the same assets. *)
Lemma validateAssets_then_toScene_witness :
  exists scene chars,
    toScene Sample.StringToNumber
      (toScene_input (VArr [Examples.inline_sprite]) (VArr [Examples.ground])
         Examples.remote_background Examples.world VUndef) = Some scene /\
    prop scene "characters" = VArr chars /\
    List.length chars = 1.
Proof.
  apply (validateAssets_then_toScene Sample.StringToNumber Sample.FormatDouble
           Examples.remote_background Examples.world VUndef
           [Examples.inline_sprite] [Examples.ground]).
  - reflexivity.
  - discriminate.
  - repeat constructor.
Defined.

(** X13 at a level with a line platform, a coin, a decoration of unknown
    type and a spawn point. *)
Lemma ensureScene_ignores_unknown_types_witness :
  ensureScene Sample.StringToNumber (design_of Examples.small_canvas Examples.level)
  = ensureScene Sample.StringToNumber
      (design_of Examples.small_canvas
         [Examples.ledge; Examples.coin; Examples.spawn_point]).
Proof.
  apply (ensureScene_ignores_unknown_types Sample.StringToNumber
           Examples.small_canvas Examples.level).
  repeat constructor.
Defined.

(** X14 at the same level. *)
Lemma ensureScene_counts_witness :
  exists scene ps ts cs,
    ensureScene Sample.StringToNumber (design_of Examples.small_canvas Examples.level)
    = Some scene /\
    prop scene "platforms" = VArr ps /\
    prop scene "targets" = VArr ts /\
    prop scene "characters" = VArr cs /\
    List.length ps = 1 /\ List.length ts = 1 /\ List.length cs = 1.
Proof.
  apply (ensureScene_counts Sample.StringToNumber Examples.small_canvas Examples.level).
  repeat constructor.
Defined.

(** X15 at the line from (300, 200) to (100, 200). *)
Lemma ensureScene_line_platform_witness :
  exists scene ps p,
    ensureScene Sample.StringToNumber (design_of Examples.small_canvas Examples.level)
    = Some scene /\
    prop scene "platforms" = VArr ps /\ In p ps /\
    Object_keys p = ["x"; "y"; "w"; "h"] /\
    prop p "x" = num_lit 100 /\ prop p "y" = num_lit 200 /\
    prop p "w" = num_lit 200 /\ prop p "h" = num_lit 4.
Proof.
  apply (ensureScene_line_platform Sample.StringToNumber
           Examples.small_canvas Examples.level Examples.ledge
           300 200 100 200)%Z.
  - repeat constructor.
  - now left.
  - reflexivity.
  - reflexivity.
  - reflexivity.
  - reflexivity.
  - reflexivity.
  - reflexivity.
  - vm_compute; discriminate.
  - vm_compute; discriminate.
  - vm_compute; discriminate.
  - vm_compute; discriminate.
Defined.


(** X17 at the same level: one platform, one target, one character. *)
Lemma generateBuildManifest_scene_literal_witness :
  generateBuildManifest Sample.StringToNumber Sample.FormatDouble
    (design_of Examples.small_canvas Examples.level)
  = Some {| kind := "web-service"; runtime := "static"; entry := "index.html";
            start := "static";
            files :=
              [ {| path := "index.html"; content := buildIndexHtml |};
                {| path := "game.js";
                   content := gameJs_head ++ hollow_scene 1 1 1 ++ gameJs_tail |} ] |}.
Proof.
  apply (generateBuildManifest_scene_literal Sample.StringToNumber Sample.FormatDouble
           Examples.small_canvas Examples.level).
  repeat constructor.
Defined.

(** X18 at a transparent raster of 2 by 2. *)
Lemma calculateColliderBounds_transparent_witness :
  calculateColliderBounds {| width := 2; height := 2; data := List.repeat 0%Z 16 |}
  = Some {| w := 24; h := 32; offsetX := 0; offsetY := 0 |}.
Proof.
  apply (calculateColliderBounds_transparent
           {| width := 2; height := 2; data := List.repeat 0%Z 16 |}).
  - cbn [width]. lia.
  - cbn [height]. lia.
  - intros x y (Hx & Hy & Ho). cbn [width height] in Hx, Hy.
    destruct x as [|[|x]]; [| |lia]; (destruct y as [|[|y]]; [| |lia]);
      vm_compute in Ho; discriminate.
Defined.

(** X22 at one frame of 8 by 8 with a single opaque pixel. *)
Lemma extractCharacterFromFrames_valid_witness :
  exists character,
    extractCharacterFromFrames
      [ {| pixels := single_pixel 8 8 3 4; png := "data:image/png;base64,AAAA" |} ]
      0 VUndef
      {| now := "1700000000000"; salt := "k3x9q"; iso := "2023-11-14T22:13:20.000Z" |}
    = Some character /\
    validateCharacterData Sample.StringToNumber character = Some [].
Proof.
  apply (extractCharacterFromFrames_valid Sample.StringToNumber).
  - discriminate.
  - discriminate.
  - reflexivity.
  - reflexivity.
  - repeat constructor.
Defined.

(** X25 at a raster of three pixels in a row, two transparent and one
    grey, filled with red from the left end. *)
Lemma floodFill_region_witness :
  exists out,
    (forall fuel, 14 <= fuel ->
       floodFill fuel
         {| width := 3; height := 1;
            data := [0; 0; 0; 0; 0; 0; 0; 0; 9; 9; 9; 255]%Z |}
         0 0
         {| red := 0; green := 0; blue := 0; alpha := 0 |}
         {| red := 255; green := 0; blue := 0; alpha := 255 |} = Some out) /\
    out.(data) = [255; 0; 0; 255; 255; 0; 0; 255; 9; 9; 9; 255]%Z.
Proof.
  destruct (floodFill_region
              {| width := 3; height := 1;
                 data := [0; 0; 0; 0; 0; 0; 0; 0; 9; 9; 9; 255]%Z |}
              0 0
              {| red := 0; green := 0; blue := 0; alpha := 0 |}
              {| red := 255; green := 0; blue := 0; alpha := 255 |})
    as (out & Hrun & _).
  - cbn [width]. lia.
  - cbn [height]. lia.
  - reflexivity.
  - cbn [data]. repeat (apply Forall_cons; [lia|]). apply Forall_nil.
  - discriminate.
  - exists out. split; [exact Hrun|].
    specialize (Hrun 14 (le_n 14)). vm_compute in Hrun. now injection Hrun as <-.
Defined.

(** X26 at an orange pixel of alpha 77. *)
Lemma hexToRgba_rgbaToHex_witness :
  rgbaToHex {| red := 255; green := 128; blue := 0; alpha := 77 |} = "#ff8000" /\
  hexToRgba "#ff8000"
  = [ Fin (inject_Z 255); Fin (inject_Z 128); Fin (inject_Z 0); Fin (inject_Z 255) ].
Proof.
  split; [reflexivity|].
  apply (hexToRgba_rgbaToHex {| red := 255; green := 128; blue := 0; alpha := 77 |});
    cbn [red green blue]; lia.
Defined.
